(** * MNIST training script: a shallow embedding and its properties

    Source: [notebooks/part-1/deployment/pytorch_mnist_training.py].

    The script is modelled in layers.

    - [Conda]: the dependency-manifest utility [add_libraries_to_conda_env],
      over a small model of Python values (strings, lists, ordered dicts),
      on manifests that are trees.
    - [CondaHeap]: the same utility with dict objects held by reference,
      for what the in-place assignments do to a manifest that holds one
      dict object at several places.
    - [F]: the numeric tail of [Net.forward] (fully connected layers,
      element dropout, [log_softmax], [nll_loss], arg-max) in exact
      arithmetic over the reals.
    - [Script]: the stateful part (event writer, tracking client, model,
      optimizer, random generator) as an explicit state-and-error monad over
      a [World] record, with the library layers the script only calls
      (convolutions, pooling, autograd, image decoding) kept behind the
      [TorchOps] interface.
    - [Float]: the forward pass, the evaluation pass and the inference
      wrapper on floating-point values, with the overflow of binary32, the
      infinities and NaN; rounding inside the range is not represented. *)

From Stdlib Require Import List String ZArith Bool Arith Lia.
From Stdlib Require Import Reals Lra.
Import ListNotations.

Set Implicit Arguments.

(** ** Python exceptions the script can raise *)

Inductive PyError : Type :=
| KeyError
| TypeError
| IndexError
| ValueError
| AttributeError
| ZeroDivisionError
| RuntimeError.

(** A computation that either raises or returns. *)
Definition result (A : Type) : Type := (PyError + A)%type.

Definition Ok {A : Type} (a : A) : result A := inr a.
Definition Raise {A : Type} (e : PyError) : result A := inl e.

Definition rbind {A B : Type} (r : result A) (k : A -> result B) : result B :=
  match r with
  | inl e => inl e
  | inr a => k a
  end.

Declare Scope result_scope.
Delimit Scope result_scope with result.
Notation "'let?' x ':=' r 'in' k" :=
  (rbind r (fun x => k))
    (at level 10, x pattern, r at level 100, k at level 200) : result_scope.

(** * The dependency manifest utility *)

Module Conda.

Local Open Scope string_scope.
Local Open Scope result_scope.

(** The Python values a conda environment description is made of.  A dict is
    an association list: Python dicts keep insertion order, and what the merge
    leaves alone includes the order of the keys. *)
#[local] Unset Elimination Schemes.
Inductive pyval : Type :=
| PyNone
| PyStr (s : string)
| PyList (l : list pyval)
| PyDict (d : list (string * pyval)).
#[local] Set Elimination Schemes.

Definition pydict : Type := list (string * pyval).

(** [d[k]] read access; [None] stands for the [KeyError]. *)
Fixpoint dict_get (k : string) (d : pydict) : option pyval :=
  match d with
  | [] => None
  | (k', v) :: d' => if String.eqb k k' then Some v else dict_get k d'
  end.

(** [k in d.keys()] *)
Definition dict_mem (k : string) (d : pydict) : bool :=
  match dict_get k d with
  | Some _ => true
  | None => false
  end.

(** [d[k] = v]: an existing key keeps its position, a new key goes last. *)
Fixpoint dict_set (k : string) (v : pyval) (d : pydict) : pydict :=
  match d with
  | [] => [(k, v)]
  | (k', v') :: d' =>
      if String.eqb k k' then (k', v) :: d' else (k', v') :: dict_set k v d'
  end.

(** [l[i] = v] for an index in range (the only use in the source). *)
Fixpoint list_set {A : Type} (i : nat) (v : A) (l : list A) : list A :=
  match l, i with
  | [], _ => []
  | _ :: l', O => v :: l'
  | x :: l', S i' => x :: list_set i' v l'
  end.

(** [type(_element) == dict and "pip" in _element.keys()] *)
Definition is_pip_entry (e : pyval) : bool :=
  match e with
  | PyDict d => dict_mem "pip" d
  | _ => false
  end.

(** The [for _index, _element in enumerate(dependencies)] loop with its
    [break]: the index of the first dict carrying the key ["pip"], or
    [None] when the loop runs to its end and [pip_index] keeps its initial
    value. *)
Fixpoint find_pip_index_from (i : nat) (dependencies : list pyval) : option nat :=
  match dependencies with
  | [] => None
  | e :: rest =>
      if is_pip_entry e then Some i else find_pip_index_from (S i) rest
  end.

Definition find_pip_index (dependencies : list pyval) : option nat :=
  find_pip_index_from 0 dependencies.

(** [a + b] where [b] is a list: defined on lists only. *)
Definition py_add_list (a : pyval) (b : list pyval) : result pyval :=
  match a with
  | PyList l => Ok (PyList (l ++ b))
  | _ => Raise TypeError
  end.

(** [add_libraries_to_conda_env(_conda_env, libraries, conda_dependencies)].

    The element dict is updated in place in the source; it is shared with
    the list that [_conda_env] held before, which is dropped when the key
    ["dependencies"] is reassigned, so the returned manifest is the value
    computed here.  A manifest is taken to be a tree: no dict object sits
    at two positions.  [CondaHeap] below drops that assumption. *)
Definition add_libraries_to_conda_env
    (_conda_env : pydict) (libraries conda_dependencies : list pyval)
  : result pydict :=
  let? dependencies :=
    match dict_get "dependencies" _conda_env with
    | Some v => Ok v
    | None => Raise KeyError
    end in
  let? dependencies := py_add_list dependencies conda_dependencies in
  match dependencies with
  | PyList dependencies =>
      match find_pip_index dependencies with
      | None => Raise TypeError          (* dependencies[None] *)
      | Some pip_index =>
          match nth_error dependencies pip_index with
          | Some (PyDict entry) =>
              let? pip_list :=
                match dict_get "pip" entry with
                | Some v => Ok v
                | None => Raise KeyError
                end in
              let? pip_list := py_add_list pip_list libraries in
              let entry := dict_set "pip" pip_list entry in
              let dependencies := list_set pip_index (PyDict entry) dependencies in
              Ok (dict_set "dependencies" (PyList dependencies) _conda_env)
          | Some _ => Raise TypeError
          | None => Raise IndexError
          end
      end
  | _ => Raise TypeError
  end.

(** A list has a pip entry when one of its elements is a dict with the key. *)
Definition has_pip_entry (l : list pyval) : Prop :=
  exists d, In (PyDict d) l /\ dict_mem "pip" d = true.

End Conda.

(** * Tensor functions over the reals *)

(** Named after [torch.nn.functional as F]. *)
Module F.

Local Open Scope R_scope.
Local Open Scope result_scope.

Definition Vector : Type := list R.

(** A 2-D tensor as the list of its rows: axis 0 runs over the rows (the
    batch), axis 1 inside a row (the classes). *)
Definition Matrix : Type := list (list R).

Definition Rsum (l : list R) : R := fold_right Rplus 0 l.

Fixpoint map2 {A B C : Type} (f : A -> B -> C) (u : list A) (v : list B) : list C :=
  match u, v with
  | a :: u', b :: v' => f a b :: map2 f u' v'
  | _, _ => []
  end.

Fixpoint dot (u v : list R) : R :=
  match u, v with
  | a :: u', b :: v' => a * b + dot u' v'
  | _, _ => 0
  end.

(** [nn.Linear]: [x @ weight.T + bias], with [weight] of shape (out, in).
    The shapes are fixed by [Net.__init__], so no mismatch is modelled. *)
Definition linear (x weight : Matrix) (bias : Vector) : Matrix :=
  map (fun row => map2 Rplus (map (dot row) weight) bias) x.

Definition relu (x : Matrix) : Matrix := map (map (Rmax 0)) x.

(** One row of [F.dropout] in training mode with the default [p = 0.5]: a
    kept element is scaled by [1 / (1 - p)], a dropped one is zero. *)
Definition apply_mask (mask : list bool) (row : list R) : list R :=
  map2 (fun (keep : bool) v => if keep then v * 2 else 0) mask row.

(** Sum of the rows of a matrix, column by column. *)
Fixpoint sum_rows (m : Matrix) : Vector :=
  match m with
  | [] => []
  | [r] => r
  | r :: rs => map2 Rplus r (sum_rows rs)
  end.

(** [log_softmax] along axis 0: every entry is reduced by the logarithm of
    the sum of the exponentials of its column. *)
Definition log_softmax_dim0 (x : Matrix) : Matrix :=
  let lse := map ln (sum_rows (map (map exp) x)) in
  map (fun row => map2 Rminus row lse) x.

(** [log_softmax] along axis 1: every entry is reduced by the logarithm of
    the sum of the exponentials of its row. *)
Definition log_softmax_dim1 (x : Matrix) : Matrix :=
  map (fun row => map (fun v => v - ln (Rsum (map exp row))) row) x.

(** [F.log_softmax(x, dim)] on a 2-D tensor; negative axes count from the
    end, an axis outside [-2, 1] is refused. *)
Definition log_softmax (x : Matrix) (dim : Z) : result Matrix :=
  if (dim =? 0)%Z || (dim =? -2)%Z then Ok (log_softmax_dim0 x)
  else if (dim =? 1)%Z || (dim =? -1)%Z then Ok (log_softmax_dim1 x)
  else Raise IndexError.

Inductive reduction : Type := Mean | Sum.

(** Default [ignore_index] of [F.nll_loss]. *)
Definition ignore_index : Z := (-100)%Z.

(** The per-row terms [- input[i][target[i]]] of the loss, rows whose target
    is [ignore_index] left out. *)
Fixpoint nll_terms (input : Matrix) (target : list Z) : result (list R) :=
  match input, target with
  | row :: input', t :: target' =>
      if (t =? ignore_index)%Z then nll_terms input' target'
      else if (t <? 0)%Z then Raise IndexError
      else match nth_error row (Z.to_nat t) with
           | None => Raise IndexError
           | Some v =>
               let? rest := nll_terms input' target' in
               Ok (- v :: rest)
           end
  | _, _ => Ok []
  end.

(** [F.nll_loss(input, target, reduction=...)]. *)
Definition nll_loss (input : Matrix) (target : list Z) (red : reduction)
  : result R :=
  if negb (List.length input =? List.length target)%nat then Raise ValueError
  else
    let? terms := nll_terms input target in
    match red with
    | Sum => Ok (Rsum terms)
    | Mean => Ok (Rsum terms / INR (List.length terms))
    end.

(** Index of the maximum of a row, the first one among equals. *)
Fixpoint argmax_from (best_i : nat) (best : R) (i : nat) (l : list R) : nat :=
  match l with
  | [] => best_i
  | v :: l' =>
      if Rlt_dec best v then argmax_from i v (S i) l'
      else argmax_from best_i best (S i) l'
  end.

Definition argmax (row : list R) : result nat :=
  match row with
  | [] => Raise IndexError
  | v :: l => Ok (argmax_from 0 v 1 l)
  end.

(** [t.max(1)[1]]: the arg-max of every row. *)
Fixpoint max_dim1 (t : Matrix) : result (list nat) :=
  match t with
  | [] => Ok []
  | row :: t' =>
      let? i := argmax row in
      let? rest := max_dim1 t' in
      Ok (i :: rest)
  end.

(** [pred.eq(target).sum()] *)
Definition count_eq (pred : list nat) (target : list Z) : nat :=
  List.length (filter (fun pt => (Z.of_nat (fst pt) =? snd pt)%Z) (combine pred target)).

(** Sum of the exponentials of a row: 1 when the row is a vector of
    log-probabilities. *)
Definition exp_sum (row : list R) : R := Rsum (map exp row).

(** Matrices whose entries are all positive. *)
Definition all_positive (m : Matrix) : Prop :=
  forall row v, In row m -> In v row -> (0 < v)%R.

End F.

(** * State and errors *)

(** A computation over a state [S] that may raise.  The state reached when
    an exception is raised is kept: what was written to a log before the
    failure stays written. *)
Definition M (S A : Type) : Type := S -> result A * S.

Definition ret {S A : Type} (a : A) : M S A := fun s => (Ok a, s).

Definition bind {S A B : Type} (m : M S A) (k : A -> M S B) : M S B :=
  fun s =>
    match m s with
    | (inl e, s') => (inl e, s')
    | (inr a, s') => k a s'
    end.

Definition raise {S A : Type} (e : PyError) : M S A := fun s => (Raise e, s).

Definition lift {S A : Type} (r : result A) : M S A := fun s => (r, s).

Definition gets {S A : Type} (f : S -> A) : M S A := fun s => (Ok (f s), s).

Definition modify {S : Type} (f : S -> S) : M S unit := fun s => (Ok tt, f s).

Declare Scope monad_scope.
Delimit Scope monad_scope with monad.
Notation "x <- c ;; k" := (bind c (fun x => k))
  (at level 61, c at next level, right associativity) : monad_scope.
Notation "c ;; k" := (bind c (fun _ => k))
  (at level 61, right associativity) : monad_scope.

(** [for x in l: body(x)] *)
Fixpoint for_each {S A : Type} (l : list A) (body : A -> M S unit) : M S unit :=
  match l with
  | [] => ret tt
  | x :: l' => bind (body x) (fun _ => for_each l' body)
  end.

(** A loop that carries accumulators. *)
Fixpoint fold_each {S A B : Type} (l : list A) (acc : B) (body : B -> A -> M S B)
  : M S B :=
  match l with
  | [] => ret acc
  | x :: l' => bind (body acc x) (fun acc' => fold_each l' acc' body)
  end.

(** [enumerate(l)] *)
Definition enumerate {A : Type} (l : list A) : list (nat * A) :=
  combine (seq 0 (List.length l)) l.

(** [range(1, n + 1)] *)
Definition range1 (n : Z) : list Z :=
  map Z.of_nat (seq 1 (Z.to_nat n)).

(** String-keyed association lists for small Python dicts and for files. *)
Fixpoint lookup {A : Type} (k : string) (d : list (string * A)) : option A :=
  match d with
  | [] => None
  | (k', v) :: d' => if String.eqb k k' then Some v else lookup k d'
  end.

Fixpoint store {A : Type} (k : string) (v : A) (d : list (string * A))
  : list (string * A) :=
  match d with
  | [] => [(k, v)]
  | (k', v') :: d' =>
      if String.eqb k k' then (k', v) :: d' else (k', v') :: store k v d'
  end.

(** * The dependency manifest utility on shared objects *)

(** [add_libraries_to_conda_env] once more, with the dict objects held by
    reference as Python holds them: the assignments
    [dependencies[pip_index]["pip"] = ...] and [_conda_env["dependencies"] = ...]
    change a dict object in place, and every position that holds the object
    sees the change.  [Conda] above is this function on manifests that are
    trees. *)
Module CondaHeap.

Local Open Scope string_scope.
Local Open Scope monad_scope.
Local Open Scope list_scope.

(** A Python value; a dict is the address of a dict object.  Lists are
    values: both [+] of the function build a new list, and no list object
    is changed. *)
#[local] Unset Elimination Schemes.
Inductive val : Type :=
| VNone
| VStr (s : string)
| VList (l : list val)
| VRef (a : nat).
#[local] Set Elimination Schemes.

(** The content of a dict object: its items in insertion order. *)
Definition dict : Type := list (string * val).

(** The dict objects of the process, by address. *)
Definition heap : Type := nat -> dict.

Definition update (a : nat) (d : dict) (h : heap) : heap :=
  fun b => if Nat.eqb b a then d else h b.

(** [d[k]] for the dict object at address [a]. *)
Definition getitem (a : nat) (k : string) : M heap val :=
  fun h =>
    match lookup k (h a) with
    | Some v => (Ok v, h)
    | None => (Raise KeyError, h)
    end.

(** [d[k] = v]: the object at address [a] is changed in place. *)
Definition setitem (a : nat) (k : string) (v : val) : M heap unit :=
  modify (fun h => update a (store k v (h a)) h).

(** [type(_element) == dict and "pip" in _element.keys()] *)
Definition is_pip_entry (h : heap) (e : val) : bool :=
  match e with
  | VRef a => match lookup "pip" (h a) with
              | Some _ => true
              | None => false
              end
  | _ => false
  end.

(** The search loop with its [break]. *)
Fixpoint find_pip_index_from (h : heap) (i : nat) (dependencies : list val)
  : option nat :=
  match dependencies with
  | [] => None
  | e :: rest =>
      if is_pip_entry h e then Some i else find_pip_index_from h (S i) rest
  end.

Definition find_pip_index (h : heap) (dependencies : list val) : option nat :=
  find_pip_index_from h 0 dependencies.

(** [a + b] where [b] is a list: a new list. *)
Definition py_add_list (a : val) (b : list val) : result val :=
  match a with
  | VList l => Ok (VList (l ++ b))
  | _ => Raise TypeError
  end.

(** [add_libraries_to_conda_env(_conda_env, libraries, conda_dependencies)],
    [_conda_env] being the address of the manifest. *)
Definition add_libraries_to_conda_env
    (_conda_env : nat) (libraries conda_dependencies : list val) : M heap nat :=
  dependencies <- getitem _conda_env "dependencies" ;;
  dependencies <- lift (py_add_list dependencies conda_dependencies) ;;
  match dependencies with
  | VList dependencies =>
      pip_index <- gets (fun h => find_pip_index h dependencies) ;;
      match pip_index with
      | None => raise TypeError          (* dependencies[None] *)
      | Some pip_index =>
          match nth_error dependencies pip_index with
          | Some (VRef entry) =>
              pip_list <- getitem entry "pip" ;;
              pip_list <- lift (py_add_list pip_list libraries) ;;
              setitem entry "pip" pip_list ;;
              setitem _conda_env "dependencies" (VList dependencies) ;;
              ret _conda_env
          | Some _ => raise TypeError
          | None => raise IndexError
          end
      end
  | _ => raise TypeError
  end.

(** [f] on every element, if it is defined on all of them. *)
Fixpoint traverse {A B : Type} (f : A -> option B) (l : list A)
  : option (list B) :=
  match l with
  | [] => Some []
  | x :: l' =>
      match f x, traverse f l' with
      | Some y, Some ys => Some (y :: ys)
      | _, _ => None
      end
  end.

(** The value that [v] stands for in the heap [h], read [n] levels deep:
    what [print] would show.  It is undefined on a value nested deeper, and
    so on a cyclic one for every [n]. *)
Fixpoint read (n : nat) (h : heap) (v : val) : option Conda.pyval :=
  match n with
  | O => None
  | S n' =>
      match v with
      | VNone => Some Conda.PyNone
      | VStr s => Some (Conda.PyStr s)
      | VList l => option_map Conda.PyList (traverse (read n' h) l)
      | VRef a =>
          option_map Conda.PyDict
            (traverse (fun kv => option_map (pair (fst kv)) (read n' h (snd kv)))
                      (h a))
      end
  end.

(** The dict objects a value holds, directly or inside other values. *)
Inductive reaches (h : heap) : val -> nat -> Prop :=
| reaches_ref (a : nat) : reaches h (VRef a) a
| reaches_item (l : list val) (v : val) (a : nat) :
    In v l -> reaches h v a -> reaches h (VList l) a
| reaches_value (b : nat) (k : string) (v : val) (a : nat) :
    In (k, v) (h b) -> reaches h v a -> reaches h (VRef b) a.

(** [v] shows the same value in [h'] as in [h]. *)
Definition same_value (h h' : heap) (v : val) : Prop :=
  forall n, read n h' v = read n h v.

(** Every element of the list but the one at index [i] shows the same
    value in [h'] as in [h]. *)
Definition other_elements_unchanged (h h' : heap) (dependencies : list val)
    (i : nat) : Prop :=
  forall j v, j <> i -> nth_error dependencies j = Some v -> same_value h h' v.

End CondaHeap.

(** * The library behind the script *)

(** The eight parameter tensors of [Net], in the order [log_weights] walks
    them.  [T] is the type of the convolution kernels and biases. *)
Record Params (T : Type) : Type := {
  conv1_weight : T;
  conv1_bias : T;
  conv2_weight : T;
  conv2_bias : T;
  fc1_weight : F.Matrix;
  fc1_bias : F.Vector;
  fc2_weight : F.Matrix;
  fc2_bias : F.Vector
}.

(** What the script calls and does not define: the convolutional layers,
    the random generator, autograd and the optimizer update, image
    decoding.  Every operation is a function of its arguments and of the
    generator state it is handed. *)
Class TorchOps : Type := {
  (** n-dimensional tensors: image batches, kernels, activations *)
  Tensor : Type;
  (** numpy arrays of decoded images *)
  NdArray : Type;
  (** state of the global random generator *)
  Generator : Type;
  (** one gradient per parameter tensor *)
  Grads : Type;
  (** momentum buffers of the optimizer *)
  Momentum : Type;
  (** [conv(x)] for [nn.Conv2d] with the given weight and bias *)
  conv2d : Tensor -> Tensor -> Tensor -> result Tensor;
  (** [F.max_pool2d(x, k)] *)
  max_pool2d : Tensor -> nat -> result Tensor;
  (** [F.relu] on an n-dimensional tensor *)
  relu_nd : Tensor -> Tensor;
  (** [F.dropout2d(x, training=True)]: random channels zeroed *)
  feature_dropout : Generator -> Tensor -> Tensor * Generator;
  (** [x.view(-1, n)] *)
  view : Tensor -> nat -> result F.Matrix;
  (** [n] independent keep flags, each true with probability one half *)
  bernoulli : Generator -> nat -> list bool * Generator;
  (** [loss.backward()]: gradients of the mean loss of the batch, for the
      masks the forward pass drew from the given generator state *)
  backward : Params Tensor -> Generator -> Tensor -> list Z -> Grads;
  (** [optimizer.step()] of [optim.SGD(lr, momentum)] *)
  sgd_step : R -> R -> Momentum -> Params Tensor -> Grads
             -> Params Tensor * Momentum;
  (** [base64.b64decode] *)
  b64decode : string -> result string;
  (** [Image.open], [np.array(image, dtype=np.uint8)], [np.expand_dims] *)
  image_array : string -> result NdArray;
  (** [np.stack(l, axis=0).astype(np.float32)] and [torch.from_numpy] *)
  stack_to_tensor : list NdArray -> result Tensor
}.

(** * The script *)

Section Script.

Context {ops : TorchOps}.

Local Open Scope monad_scope.
Local Open Scope string_scope.
Local Open Scope list_scope.

(** ** The model *)

(** [Net]: its parameters and the [training] flag of [nn.Module], which
    [model.train()] and [model.eval()] switch. *)
Record Net : Type := {
  parameters : Params Tensor;
  training : bool
}.

Definition set_training (b : bool) (self : Net) : Net :=
  {| parameters := parameters self; training := b |}.

Definition set_parameters (p : Params Tensor) (self : Net) : Net :=
  {| parameters := p; training := training self |}.

(** [Net()]: a fresh [nn.Module] is in training mode. *)
Definition Net_init (p : Params Tensor) : Net :=
  {| parameters := p; training := true |}.

(** [nn.Dropout2d]: the identity unless the module is in training mode. *)
Definition Dropout2d (training : bool) (x : Tensor) : M Generator Tensor :=
  if training
  then fun g => let (y, g') := feature_dropout g x in (Ok y, g')
  else ret x.

Fixpoint dropout_rows (x : F.Matrix) : M Generator F.Matrix :=
  match x with
  | [] => ret []
  | row :: x' =>
      mask <- (fun g => let (m, g') := bernoulli g (List.length row) in (Ok m, g')) ;;
      rest <- dropout_rows x' ;;
      ret (F.apply_mask mask row :: rest)
  end.

(** [F.dropout(x, training=...)] *)
Definition dropout (x : F.Matrix) (training : bool) : M Generator F.Matrix :=
  if training then dropout_rows x else ret x.

(** [Net.forward] *)
Definition forward (self : Net) (x : Tensor) : M Generator F.Matrix :=
  let p := parameters self in
  c1 <- lift (conv2d x (conv1_weight p) (conv1_bias p)) ;;
  p1 <- lift (max_pool2d c1 2) ;;
  let x := relu_nd p1 in
  c2 <- lift (conv2d x (conv2_weight p) (conv2_bias p)) ;;
  d2 <- Dropout2d (training self) c2 ;;
  p2 <- lift (max_pool2d d2 2) ;;
  let x := relu_nd p2 in
  x <- lift (view x 320) ;;
  let x := F.relu (F.linear x (fc1_weight p) (fc1_bias p)) in
  x <- dropout x (training self) ;;
  let x := F.linear x (fc2_weight p) (fc2_bias p) in
  lift (F.log_softmax x 0).

(** ** Events and the state of a run *)

Inductive ParamData : Type :=
| NdData (t : Tensor)
| MatrixData (m : F.Matrix)
| VectorData (v : F.Vector).

(** What the event writer is asked to append. *)
Inductive Event : Type :=
| Scalar (tag : string) (value : R) (step : Z)
| Histogram (tag : string) (values : ParamData) (step : Z).

Definition event_step (e : Event) : Z :=
  match e with
  | Scalar _ _ s => s
  | Histogram _ _ s => s
  end.

(** The arguments of one [mlflow.log_metric(key, value, step=None)] call. *)
Record Metric : Type := {
  metric_key : string;
  metric_value : R;
  metric_step : option Z
}.

Inductive ArgValue : Type :=
| IntArg (n : Z)
| FloatArg (x : R)
| StrArg (s : string)
| BoolArg (b : bool).

(** [PytorchModelWrapper]: [self.model] exists only after [load_context]. *)
Record PytorchModelWrapper : Type := {
  wrapper_model : option Net
}.

(** What [mlflow.pyfunc.log_model] is given. *)
Record LoggedModel : Type := {
  artifact_path : string;
  python_model : PytorchModelWrapper;
  artifacts : list (string * string);
  conda_env : Conda.pydict
}.

Record World : Type := {
  (** the global [model] *)
  model : Net;
  (** the [.grad] fields of the parameters *)
  grad : option Grads;
  (** the optimizer's buffers, and how often [optimizer.step()] ran *)
  momentum_buffers : Momentum;
  optimizer_steps : nat;
  generator : Generator;
  (** the global [writer]: [None] until the [SummaryWriter] is created *)
  writer : option (list Event);
  (** the tracking client: metrics, parameters, artifacts, models *)
  metrics : list Metric;
  run_params : list (string * ArgValue);
  run_artifacts : list (string * list Event);
  logged_models : list LoggedModel;
  (** files written by [torch.jit.save] *)
  files : list (string * Net)
}.

Definition set_model (m : Net) (w : World) : World :=
  {| model := m; grad := grad w; momentum_buffers := momentum_buffers w;
     optimizer_steps := optimizer_steps w; generator := generator w;
     writer := writer w; metrics := metrics w; run_params := run_params w;
     run_artifacts := run_artifacts w; logged_models := logged_models w;
     files := files w |}.

Definition set_grad (g : option Grads) (w : World) : World :=
  {| model := model w; grad := g; momentum_buffers := momentum_buffers w;
     optimizer_steps := optimizer_steps w; generator := generator w;
     writer := writer w; metrics := metrics w; run_params := run_params w;
     run_artifacts := run_artifacts w; logged_models := logged_models w;
     files := files w |}.

Definition set_optimizer (b : Momentum) (n : nat) (w : World) : World :=
  {| model := model w; grad := grad w; momentum_buffers := b;
     optimizer_steps := n; generator := generator w;
     writer := writer w; metrics := metrics w; run_params := run_params w;
     run_artifacts := run_artifacts w; logged_models := logged_models w;
     files := files w |}.

Definition set_generator (g : Generator) (w : World) : World :=
  {| model := model w; grad := grad w; momentum_buffers := momentum_buffers w;
     optimizer_steps := optimizer_steps w; generator := g;
     writer := writer w; metrics := metrics w; run_params := run_params w;
     run_artifacts := run_artifacts w; logged_models := logged_models w;
     files := files w |}.

Definition set_writer (e : option (list Event)) (w : World) : World :=
  {| model := model w; grad := grad w; momentum_buffers := momentum_buffers w;
     optimizer_steps := optimizer_steps w; generator := generator w;
     writer := e; metrics := metrics w; run_params := run_params w;
     run_artifacts := run_artifacts w; logged_models := logged_models w;
     files := files w |}.

Definition set_metrics (m : list Metric) (w : World) : World :=
  {| model := model w; grad := grad w; momentum_buffers := momentum_buffers w;
     optimizer_steps := optimizer_steps w; generator := generator w;
     writer := writer w; metrics := m; run_params := run_params w;
     run_artifacts := run_artifacts w; logged_models := logged_models w;
     files := files w |}.

Definition set_run_params (p : list (string * ArgValue)) (w : World) : World :=
  {| model := model w; grad := grad w; momentum_buffers := momentum_buffers w;
     optimizer_steps := optimizer_steps w; generator := generator w;
     writer := writer w; metrics := metrics w; run_params := p;
     run_artifacts := run_artifacts w; logged_models := logged_models w;
     files := files w |}.

Definition set_run_artifacts (a : list (string * list Event)) (w : World) : World :=
  {| model := model w; grad := grad w; momentum_buffers := momentum_buffers w;
     optimizer_steps := optimizer_steps w; generator := generator w;
     writer := writer w; metrics := metrics w; run_params := run_params w;
     run_artifacts := a; logged_models := logged_models w;
     files := files w |}.

Definition set_logged_models (l : list LoggedModel) (w : World) : World :=
  {| model := model w; grad := grad w; momentum_buffers := momentum_buffers w;
     optimizer_steps := optimizer_steps w; generator := generator w;
     writer := writer w; metrics := metrics w; run_params := run_params w;
     run_artifacts := run_artifacts w; logged_models := l;
     files := files w |}.

Definition set_files (f : list (string * Net)) (w : World) : World :=
  {| model := model w; grad := grad w; momentum_buffers := momentum_buffers w;
     optimizer_steps := optimizer_steps w; generator := generator w;
     writer := writer w; metrics := metrics w; run_params := run_params w;
     run_artifacts := run_artifacts w; logged_models := logged_models w;
     files := f |}.

(** The state when [with mlflow.start_run():] is entered: a fresh model,
    an optimizer that has not stepped, [writer = None], nothing logged. *)
Definition initial_world (p : Params Tensor) (b : Momentum) (g : Generator)
  : World :=
  {| model := Net_init p; grad := None; momentum_buffers := b;
     optimizer_steps := 0; generator := g; writer := None; metrics := [];
     run_params := []; run_artifacts := []; logged_models := [];
     files := [] |}.

(** A computation on the generator, run on the generator of the world. *)
Definition with_generator {A : Type} (m : M Generator A) : M World A :=
  fun w => let (r, g) := m (generator w) in (r, set_generator g w).

(** ** Logging *)

(** [writer.add_scalar(tag, value, step)]; the global [writer] is [None]
    before the run creates it. *)
Definition add_scalar (tag : string) (value : R) (step : Z) : M World unit :=
  fun w =>
    match writer w with
    | None => (Raise AttributeError, w)
    | Some events => (Ok tt, set_writer (Some (events ++ [Scalar tag value step])) w)
    end.

(** [writer.add_histogram(tag, values, step)] *)
Definition add_histogram (tag : string) (values : ParamData) (step : Z)
  : M World unit :=
  fun w =>
    match writer w with
    | None => (Raise AttributeError, w)
    | Some events =>
        (Ok tt, set_writer (Some (events ++ [Histogram tag values step])) w)
    end.

(** [mlflow.log_metric(key, value, step)], [step] being optional. *)
Definition mlflow_log_metric (key : string) (value : R) (step : option Z)
  : M World unit :=
  modify (fun w =>
    set_metrics
      (metrics w ++ [{| metric_key := key; metric_value := value;
                        metric_step := step |}]) w).

(** [log_scalar(name, value, step)] *)
Definition log_scalar (name : string) (value : R) (step : Z) : M World unit :=
  add_scalar name value step ;;
  mlflow_log_metric name value None.

(** [Net.log_weights(step)]; the method reads the global [model]. *)
Definition log_weights (step : Z) : M World unit :=
  m <- gets model ;;
  let p := parameters m in
  add_histogram "weights/conv1/weight" (NdData (conv1_weight p)) step ;;
  add_histogram "weights/conv1/bias" (NdData (conv1_bias p)) step ;;
  add_histogram "weights/conv2/weight" (NdData (conv2_weight p)) step ;;
  add_histogram "weights/conv2/bias" (NdData (conv2_bias p)) step ;;
  add_histogram "weights/fc1/weight" (MatrixData (fc1_weight p)) step ;;
  add_histogram "weights/fc1/bias" (VectorData (fc1_bias p)) step ;;
  add_histogram "weights/fc2/weight" (MatrixData (fc2_weight p)) step ;;
  add_histogram "weights/fc2/bias" (VectorData (fc2_bias p)) step.

(** ** Configuration and data *)

(** The parsed command line, with the [cuda] field the script adds. *)
Record Args : Type := {
  batch_size : Z;
  test_batch_size : Z;
  epochs : Z;
  lr : R;
  momentum : R;
  enable_cuda : string;
  seed : Z;
  log_interval : Z;
  cuda : bool
}.

(** [vars(args).items()] *)
Definition vars (args : Args) : list (string * ArgValue) :=
  [ ("batch_size", IntArg (batch_size args));
    ("test_batch_size", IntArg (test_batch_size args));
    ("epochs", IntArg (epochs args));
    ("lr", FloatArg (lr args));
    ("momentum", FloatArg (momentum args));
    ("enable_cuda", StrArg (enable_cuda args));
    ("seed", IntArg (seed args));
    ("log_interval", IntArg (log_interval args));
    ("cuda", BoolArg (cuda args)) ].

(** A batch: the stacked images and the label of every row. *)
Definition Batch : Type := (Tensor * list Z)%type.

(** A [DataLoader]: one pass over it (shuffling draws from the generator),
    [len(loader)] and [len(loader.dataset)]. *)
Record DataLoader : Type := {
  iter_batches : Generator -> list Batch * Generator;
  loader_len : nat;
  dataset_len : nat
}.

(** What [torch.utils.data.DataLoader] guarantees with its default
    [drop_last=False]: a pass yields [len(loader)] batches that together
    hold every example of the data set once. *)
Definition loader_ok (l : DataLoader) : Prop :=
  forall g,
    List.length (fst (iter_batches l g)) = loader_len l /\
    fold_right plus 0%nat (map (fun b : Batch => List.length (snd b))
                               (fst (iter_batches l g)))
    = dataset_len l.

Definition iterate (l : DataLoader) : M World (list Batch) :=
  with_generator (fun g => let (bs, g') := iter_batches l g in (Ok bs, g')).

Variable args : Args.
Variable train_loader : DataLoader.
Variable test_loader : DataLoader.

(** ** Training and evaluation *)

(** One trip through the body of the loop of [train].  Moving the data to
    the device and the console line are left out. *)
Definition train_batch (epoch : Z) (item : nat * Batch) : M World unit :=
  let batch_idx := Z.of_nat (fst item) in
  let data := fst (snd item) in
  let target := snd (snd item) in
  modify (set_grad None) ;;                               (* zero_grad *)
  self <- gets model ;;
  g0 <- gets generator ;;
  output <- with_generator (forward self data) ;;
  loss <- lift (F.nll_loss output target F.Mean) ;;
  let gr := backward (parameters self) g0 data target in
  modify (set_grad (Some gr)) ;;                          (* loss.backward *)
  modify (fun w =>
    let (p, b) := sgd_step (lr args) (momentum args) (momentum_buffers w)
                           (parameters (model w)) gr in
    set_optimizer b (S (optimizer_steps w))
                  (set_model (set_parameters p (model w)) w)) ;;
                                                          (* optimizer.step *)
  if (log_interval args =? 0)%Z then raise ZeroDivisionError
  else if (batch_idx mod log_interval args =? 0)%Z then
    let step := (epoch * Z.of_nat (loader_len train_loader) + batch_idx)%Z in
    log_scalar "train_loss" loss step ;;
    log_weights step
  else ret tt.

(** [train(epoch)] *)
Definition train (epoch : Z) : M World unit :=
  modify (fun w => set_model (set_training true (model w)) w) ;;
  batches <- iterate train_loader ;;
  for_each (enumerate batches) (train_batch epoch).

(** One trip through the loop of [test]: the accumulators are the summed
    loss and the number of correct predictions. *)
Definition test_batch (acc : R * nat) (item : Batch) : M World (R * nat) :=
  let data := fst item in
  let target := snd item in
  self <- gets model ;;
  output <- with_generator (forward self data) ;;
  batch_loss <- lift (F.nll_loss output target F.Sum) ;;
  pred <- lift (F.max_dim1 output) ;;
  ret ((fst acc + batch_loss)%R, (snd acc + F.count_eq pred target)%nat).

(** [test(epoch)]; under [torch.no_grad()] the forward pass records nothing
    for autograd. *)
Definition test (epoch : Z) : M World unit :=
  modify (fun w => set_model (set_training false (model w)) w) ;;
  batches <- iterate test_loader ;;
  acc <- fold_each batches (0%R, 0%nat) test_batch ;;
  let n := dataset_len test_loader in
  if (n =? 0)%nat then raise ZeroDivisionError
  else
    let test_loss := (fst acc / INR n)%R in
    let test_accuracy := (100 * INR (snd acc) / INR n)%R in
    let step := ((epoch + 1) * Z.of_nat (loader_len train_loader))%Z in
    log_scalar "test_loss" test_loss step ;;
    log_scalar "test_accuracy" test_accuracy step.

(** ** The inference wrapper *)

(** The [context] handed to a python model: its named artifact paths. *)
Record PythonModelContext : Type := {
  context_artifacts : list (string * string)
}.

(** [PytorchModelWrapper.load_context]; [fs] is the file system that
    [torch.jit.load] reads. *)
Definition load_context (fs : list (string * Net)) (self : PytorchModelWrapper)
    (context : PythonModelContext) : result PytorchModelWrapper :=
  match lookup "scripted_model" (context_artifacts context) with
  | None => Raise KeyError
  | Some scripted_model =>
      match lookup scripted_model fs with
      | None => Raise ValueError
      | Some m => Ok {| wrapper_model := Some m |}
      end
  end.

(** The loop over the rows of the input table: the cell of the column
    [images] of every row is decoded into an array. *)
Fixpoint decode_rows (rows : list string) : result (list NdArray) :=
  match rows with
  | [] => Ok []
  | row :: rows' =>
      rbind (b64decode row) (fun base64_decoded =>
      rbind (image_array base64_decoded) (fun image_np =>
      rbind (decode_rows rows') (fun rest =>
      Ok (image_np :: rest))))
  end.

(** [PytorchModelWrapper.predict]; the forward pass runs on the random
    generator of the serving process. *)
Definition predict (self : PytorchModelWrapper) (model_input : list string)
  : M Generator (list nat) :=
  nparray_list <- lift (decode_rows model_input) ;;
  torch_tensor <- lift (stack_to_tensor nparray_list) ;;
  match wrapper_model self with
  | None => raise AttributeError
  | Some m =>
      output <- forward m torch_tensor ;;
      lift (F.max_dim1 output)
  end.

(** ** The run *)

(** [mlflow.pytorch.get_default_conda_env()] *)
Variable get_default_conda_env : Conda.pydict.

(** The body of [with mlflow.start_run():]. *)
Definition main : M World unit :=
  for_each (vars args)
    (fun kv => modify (fun w => set_run_params (run_params w ++ [kv]) w)) ;;
  modify (set_writer (Some [])) ;;                        (* SummaryWriter *)
  for_each (range1 (epochs args)) (fun epoch => train epoch ;; test epoch) ;;
  (* mlflow.log_artifacts(output_dir, artifact_path="events"): the call is
     recorded with the events handed to the writer by then *)
  modify (fun w =>
    set_run_artifacts
      (run_artifacts w ++ [("events", match writer w with
                                      | Some events => events
                                      | None => []
                                      end)]) w) ;;
  scripted_model <- gets model ;;                         (* torch.jit.script *)
  modify (fun w => set_files (store "scripted_model.pth" scripted_model (files w)) w) ;;
  let model_artifacts := [("scripted_model", "scripted_model.pth")] in
  let pyfunc_pytorch_model := {| wrapper_model := None |} in
  conda_env <- lift (Conda.add_libraries_to_conda_env get_default_conda_env
                       [Conda.PyStr "typing-extensions"; Conda.PyStr "Pillow"] []) ;;
  modify (fun w =>
    set_logged_models
      (logged_models w ++ [{| artifact_path := "pytorch-model";
                              python_model := pyfunc_pytorch_model;
                              artifacts := model_artifacts;
                              conda_env := conda_env |}]) w).

End Script.

(** * Statements used by the properties *)

(** Hoare triples for [M]: from a state satisfying [P] the computation ends
    in a state satisfying [Q] with its value, or raises in a state
    satisfying [E]. *)
Definition triple {S A : Type} (P : S -> Prop) (m : M S A)
    (Q : A -> S -> Prop) (E : S -> Prop) : Prop :=
  forall s, P s ->
    match m s with
    | (inr a, s') => Q a s'
    | (inl _, s') => E s'
    end.

(** An invariant that holds however the computation ends. *)
Definition preserves {S A : Type} (I : S -> Prop) (m : M S A) : Prop :=
  triple I m (fun _ => I) I.

(** A list of integers that never decreases, and one that always grows. *)
Fixpoint non_decreasing (l : list Z) : Prop :=
  match l with
  | [] => True
  | x :: l' => match l' with
               | [] => True
               | y :: _ => (x <= y)%Z
               end /\ non_decreasing l'
  end.

Fixpoint strictly_increasing (l : list Z) : Prop :=
  match l with
  | [] => True
  | x :: l' => match l' with
               | [] => True
               | y :: _ => (x < y)%Z
               end /\ strictly_increasing l'
  end.

Section Statements.

Context {ops : TorchOps}.

Local Open Scope string_scope.
Local Open Scope list_scope.

(** The events of the writer, none while there is no writer. *)
Definition events (w : World) : list Event :=
  match writer w with
  | Some l => l
  | None => []
  end.

(** The steps of the events written so far, in call order. *)
Definition steps (w : World) : list Z := map event_step (events w).


(** The last call of each sink carries the given name, value and step. *)
Definition same_event_at_both_sinks (name : string) (value : R) (step : Z)
    (w : World) : Prop :=
  last (events w) (Scalar "" 0 0) = Scalar name value step /\
  (exists m, last (map Some (metrics w)) None = Some m /\
             metric_key m = name /\ metric_value m = value /\
             metric_step m = Some step).

(** The steps of the scalar events alone. *)
Definition scalar_steps (w : World) : list Z :=
  flat_map (fun e => match e with
                     | Scalar _ _ s => [s]
                     | Histogram _ _ _ => []
                     end) (events w).

(** The part of the world that training owns and evaluation must not
    touch: parameters, gradients, optimizer buffers and step count. *)
Definition same_training_state (w w' : World) : Prop :=
  parameters (model w') = parameters (model w) /\
  grad w' = grad w /\
  momentum_buffers w' = momentum_buffers w /\
  optimizer_steps w' = optimizer_steps w.

(** A predicate that only depends on the training state. *)
Definition reads_training_state (I : World -> Prop) : Prop :=
  forall w w',
    model w' = model w \/ model w' = set_training false (model w) ->
    grad w' = grad w -> momentum_buffers w' = momentum_buffers w ->
    optimizer_steps w' = optimizer_steps w ->
    I w -> I w'.

(** A predicate that only depends on the event writer. *)
Definition reads_writer (I : World -> Prop) : Prop :=
  forall w w', writer w' = writer w -> I w -> I w'.

(** The steps written so far never decrease and stay below [b]. *)
Definition sorted_below (b : Z) (w : World) : Prop :=
  non_decreasing (steps w) /\ Forall (fun s => (s <= b)%Z) (steps w).

(** The number of labels in a list of batches. *)
Definition rows (bs : list Batch) : nat :=
  fold_right plus 0%nat (map (fun b : Batch => List.length (snd b)) bs).



(** A predicate that only depends on what the run records at the tracking
    service and on disk besides metrics: parameters, artifacts, models and
    files. *)
Definition reads_run_record (I : World -> Prop) : Prop :=
  forall w w',
    run_params w' = run_params w -> run_artifacts w' = run_artifacts w ->
    logged_models w' = logged_models w -> files w' = files w ->
    I w -> I w'.

(** The world after the first half of a trip through the loop of [train]:
    gradients cleared, the forward pass run (leaving the generator at
    [g2]), the gradients computed and one optimizer step taken. *)
Definition after_step (args : Args) (w : World) (data : Tensor)
    (target : list Z) (g2 : Generator) : World :=
  let gr := backward (parameters (model w)) (generator w) data target in
  let w1 := set_grad (Some gr) (set_generator g2 (set_grad None w)) in
  let (p, b) := sgd_step (lr args) (momentum args) (momentum_buffers w1)
                         (parameters (model w1)) gr in
  set_optimizer b (S (optimizer_steps w1))
                (set_model (set_parameters p (model w1)) w1).

(** How many of the batch indices [0 .. n-1] pass the test
    [batch_idx % log_interval == 0] of [train]. *)
Definition logged_batches (log_interval : Z) (n : nat) : nat :=
  List.length
    (filter (fun j => (Z.of_nat j mod log_interval =? 0)%Z) (seq 0 n)).

(** The batch indices [0 .. n-1] that pass that test, in order. *)
Definition logged_indices (log_interval : Z) (n : nat) : list nat :=
  filter (fun j => (Z.of_nat j mod log_interval =? 0)%Z) (seq 0 n).

(** The scalar events written so far, in call order: tag, value, step. *)
Definition scalars (w : World) : list (string * R * Z) :=
  flat_map (fun e => match e with
                     | Scalar t v s => [(t, v, s)]
                     | Histogram _ _ _ => []
                     end) (events w).

(** The call of the tracking client that goes with a scalar event. *)
Definition metric_of (x : string * R * Z) : Metric :=
  {| metric_key := fst (fst x); metric_value := snd (fst x);
     metric_step := None |}.

Definition name_and_step (x : string * R * Z) : string * Z :=
  (fst (fst x), snd x).

(** Name and step of what an epoch of [train] logs over [n] batches, of
    what [test] logs after it, and of what a run of [epochs] epochs logs. *)
Definition train_schedule (log_interval : Z) (n : nat) (epoch : Z)
  : list (string * Z) :=
  map (fun j => ("train_loss", (epoch * Z.of_nat n + Z.of_nat j)%Z))
      (logged_indices log_interval n).

Definition test_schedule (n : nat) (epoch : Z) : list (string * Z) :=
  [ ("test_loss", ((epoch + 1) * Z.of_nat n)%Z);
    ("test_accuracy", ((epoch + 1) * Z.of_nat n)%Z) ].

Definition run_schedule (log_interval : Z) (n : nat) (epochs : Z)
  : list (string * Z) :=
  flat_map (fun epoch => train_schedule log_interval n epoch
                         ++ test_schedule n epoch)
           (range1 epochs).

(** Since the sinks held the scalars [sc] and the metrics [ms], scalars
    with the names and steps [sched] were written, and each of them was
    handed to the tracking client. *)
Definition logged_since (sc : list (string * R * Z)) (ms : list Metric)
    (sched : list (string * Z)) (w : World) : Prop :=
  exists new,
    scalars w = sc ++ new /\
    metrics w = ms ++ map metric_of new /\
    map name_and_step new = sched.

(** What [main] registers on success, given the merged manifest. *)
Definition registered_model (conda_env : Conda.pydict) : LoggedModel :=
  {| artifact_path := "pytorch-model";
     python_model := {| wrapper_model := None |};
     artifacts := [("scripted_model", "scripted_model.pth")];
     conda_env := conda_env |}.

End Statements.

(** * The evaluation pass in floating point *)

(** The numeric tail of [Net.forward], [test] and [predict] once more, on
    floating-point values: a finite number, an infinity or NaN.  [F] and
    [Script] above compute in exact arithmetic; here the overflow of
    binary32 and the arithmetic of the infinities and of NaN are kept, which
    decides what the evaluation pass emits once a logit leaves the range.
    Rounding inside the range is not modelled: a result in range is the
    exact one. *)
Module Float.

Local Open Scope R_scope.
Local Open Scope result_scope.

Inductive num : Type :=
| Finite (x : R)
| PosInf
| NegInf
| NaN.

(** From this magnitude on a binary32 result rounds to an infinity: half an
    ulp above the largest finite number [2^128 - 2^104]. *)
Definition overflow32 : R := 2 ^ 128 - 2 ^ 103.

(** The binary32 value of an operation whose exact result is [x]. *)
Definition round32 (x : R) : num :=
  if Rle_dec overflow32 x then PosInf
  else if Rle_dec x (- overflow32) then NegInf
  else Finite x.

Definition fneg (a : num) : num :=
  match a with
  | Finite x => Finite (- x)
  | PosInf => NegInf
  | NegInf => PosInf
  | NaN => NaN
  end.

Definition fadd (a b : num) : num :=
  match a, b with
  | NaN, _ | _, NaN => NaN
  | Finite x, Finite y => round32 (x + y)
  | PosInf, NegInf | NegInf, PosInf => NaN
  | PosInf, _ | _, PosInf => PosInf
  | NegInf, _ | _, NegInf => NegInf
  end.

Definition fsub (a b : num) : num := fadd a (fneg b).

(** An infinity times a finite number: NaN for zero, else by the signs. *)
Definition scale_inf (positive : bool) (x : R) : num :=
  if Rlt_dec 0 x then (if positive then PosInf else NegInf)
  else if Rlt_dec x 0 then (if positive then NegInf else PosInf)
  else NaN.

Definition fmul (a b : num) : num :=
  match a, b with
  | NaN, _ | _, NaN => NaN
  | Finite x, Finite y => round32 (x * y)
  | Finite x, PosInf | PosInf, Finite x => scale_inf true x
  | Finite x, NegInf | NegInf, Finite x => scale_inf false x
  | PosInf, PosInf | NegInf, NegInf => PosInf
  | PosInf, NegInf | NegInf, PosInf => NegInf
  end.

Definition fexp (a : num) : num :=
  match a with
  | Finite x => round32 (exp x)
  | PosInf => PosInf
  | NegInf => Finite 0
  | NaN => NaN
  end.

Definition fln (a : num) : num :=
  match a with
  | Finite x =>
      if Rlt_dec x 0 then NaN
      else if Rlt_dec 0 x then Finite (ln x)
      else NegInf
  | PosInf => PosInf
  | NegInf => NaN
  | NaN => NaN
  end.

(** The larger of two values; NaN if one of them is. *)
Definition fmax (a b : num) : num :=
  match a, b with
  | NaN, _ | _, NaN => NaN
  | PosInf, _ | _, PosInf => PosInf
  | NegInf, c | c, NegInf => c
  | Finite x, Finite y => Finite (Rmax x y)
  end.

(** [a <= b]: false when one of them is NaN. *)
Definition fleb (a b : num) : bool :=
  match a, b with
  | NaN, _ | _, NaN => false
  | NegInf, _ | _, PosInf => true
  | Finite x, Finite y => if Rle_dec x y then true else false
  | _, _ => false
  end.

Definition is_nan (a : num) : bool :=
  match a with
  | NaN => true
  | _ => false
  end.

Definition finite (a : num) : Prop :=
  match a with
  | Finite _ => True
  | _ => False
  end.

(** Arithmetic on Python's own floats, which are binary64: the sums of
    binary32 values and the quotients by a length that the script forms
    stay far inside that range, so a finite result is the exact one. *)
Definition py_add (a b : num) : num :=
  match a, b with
  | NaN, _ | _, NaN => NaN
  | Finite x, Finite y => Finite (x + y)
  | PosInf, NegInf | NegInf, PosInf => NaN
  | PosInf, _ | _, PosInf => PosInf
  | NegInf, _ | _, NegInf => NegInf
  end.

(** [a / n] for a length [n] that is not zero. *)
Definition py_div (a : num) (n : nat) : num :=
  match a with
  | Finite x => Finite (x / INR n)
  | other => other
  end.

(** ** Tensor functions *)

Definition Vector : Type := list num.

Definition Matrix : Type := list (list num).

(** The binary32 tensor of finite numbers. *)
Definition of_reals (m : F.Matrix) : Matrix := map (map Finite) m.

Fixpoint dot (u v : list num) : num :=
  match u, v with
  | a :: u', b :: v' => fadd (fmul a b) (dot u' v')
  | _, _ => Finite 0
  end.

(** [nn.Linear]: [x @ weight.T + bias]. *)
Definition linear (x weight : Matrix) (bias : Vector) : Matrix :=
  map (fun row => F.map2 fadd (map (dot row) weight) bias) x.

(** [F.relu]: negative entries become zero, NaN stays. *)
Definition relu (x : Matrix) : Matrix :=
  map (map (fun a => match a with
                     | Finite v => Finite (Rmax 0 v)
                     | PosInf => PosInf
                     | NegInf => Finite 0
                     | NaN => NaN
                     end)) x.

(** One row of [F.dropout] in training mode: every element is multiplied
    by 2 or by 0. *)
Definition apply_mask (mask : list bool) (row : list num) : list num :=
  F.map2 (fun (keep : bool) v => fmul v (Finite (if keep then 2 else 0)))
         mask row.

Fixpoint sum_rows (m : Matrix) : Vector :=
  match m with
  | [] => []
  | [r] => r
  | r :: rs => F.map2 fadd r (sum_rows rs)
  end.

Fixpoint max_rows (m : Matrix) : Vector :=
  match m with
  | [] => []
  | [r] => r
  | r :: rs => F.map2 fmax r (max_rows rs)
  end.

(** [F.log_softmax(x, dim=0)] as PyTorch computes it: the maximum of the
    column is subtracted first, then the logarithm of the sum of the
    exponentials of the column. *)
Definition log_softmax_dim0 (x : Matrix) : Matrix :=
  let shifted := map (fun row => F.map2 fsub row (max_rows x)) x in
  let lse := map fln (sum_rows (map (map fexp) shifted)) in
  map (fun row => F.map2 fsub row lse) shifted.

Fixpoint nll_terms (input : Matrix) (target : list Z) : result (list num) :=
  match input, target with
  | row :: input', t :: target' =>
      if (t =? F.ignore_index)%Z then nll_terms input' target'
      else if (t <? 0)%Z then Raise IndexError
      else match nth_error row (Z.to_nat t) with
           | None => Raise IndexError
           | Some v =>
               let? rest := nll_terms input' target' in
               Ok (fneg v :: rest)
           end
  | _, _ => Ok []
  end.

(** [F.nll_loss(input, target, reduction='sum')] *)
Definition nll_loss_sum (input : Matrix) (target : list Z) : result num :=
  if negb (List.length input =? List.length target)%nat then Raise ValueError
  else
    let? terms := nll_terms input target in
    Ok (fold_right fadd (Finite 0) terms).

(** Index of the maximum of a row as [torch.max] finds it: the first of
    equal entries, and the first NaN if the row holds one. *)
Fixpoint argmax_from (best_i : nat) (best : num) (i : nat) (l : list num)
  : nat :=
  match l with
  | [] => best_i
  | v :: l' =>
      if fleb v best then argmax_from best_i best (S i) l'
      else if is_nan v then i
      else argmax_from i v (S i) l'
  end.

Definition argmax (row : list num) : result nat :=
  match row with
  | [] => Raise IndexError
  | v :: l => Ok (if is_nan v then 0%nat else argmax_from 0 v 1 l)
  end.

(** [t.max(1)[1]] *)
Fixpoint max_dim1 (t : Matrix) : result (list nat) :=
  match t with
  | [] => Ok []
  | row :: t' =>
      let? i := argmax row in
      let? rest := max_dim1 t' in
      Ok (i :: rest)
  end.

(** Values that are not negative, and values that are not positive; NaN
    counts as both. *)
Definition nonnegative_or_nan (a : num) : Prop :=
  match a with
  | Finite x => 0 <= x
  | PosInf | NaN => True
  | NegInf => False
  end.

Definition nonpositive_or_nan (a : num) : Prop :=
  match a with
  | Finite x => x <= 0
  | NegInf | NaN => True
  | PosInf => False
  end.

(** [a] is at most [b], or [b] is NaN. *)
Definition below (a b : num) : Prop :=
  match b with
  | NaN | PosInf => True
  | NegInf => False
  | Finite s => match a with
                | Finite v => v <= s
                | _ => False
                end
  end.

Section FloatScript.

Context {ops : TorchOps}.

Local Open Scope monad_scope.
Local Open Scope string_scope.
Local Open Scope list_scope.

Fixpoint dropout_rows (x : Matrix) : M Generator Matrix :=
  match x with
  | [] => ret []
  | row :: x' =>
      mask <- (fun g => let (m, g') := bernoulli g (List.length row) in (Ok m, g')) ;;
      rest <- dropout_rows x' ;;
      ret (apply_mask mask row :: rest)
  end.

(** [F.dropout(x, training=...)] *)
Definition dropout (x : Matrix) (training : bool) : M Generator Matrix :=
  if training then dropout_rows x else ret x.

(** [Net.forward]; the parameters and the convolutional activations are
    finite numbers. *)
Definition forward (self : Net) (x : Tensor) : M Generator Matrix :=
  let p := parameters self in
  c1 <- lift (conv2d x (conv1_weight p) (conv1_bias p)) ;;
  p1 <- lift (max_pool2d c1 2) ;;
  let x := relu_nd p1 in
  c2 <- lift (conv2d x (conv2_weight p) (conv2_bias p)) ;;
  d2 <- Dropout2d (training self) c2 ;;
  p2 <- lift (max_pool2d d2 2) ;;
  let x := relu_nd p2 in
  x <- lift (view x 320) ;;
  let x := relu (linear (of_reals x) (of_reals (fc1_weight p))
                        (map Finite (fc1_bias p))) in
  x <- dropout x (training self) ;;
  let x := linear x (of_reals (fc2_weight p)) (map Finite (fc2_bias p)) in
  ret (log_softmax_dim0 x).

(** The logits: what [forward] hands to [F.log_softmax]. *)
Definition logits (self : Net) (x : Tensor) : M Generator Matrix :=
  let p := parameters self in
  c1 <- lift (conv2d x (conv1_weight p) (conv1_bias p)) ;;
  p1 <- lift (max_pool2d c1 2) ;;
  let x := relu_nd p1 in
  c2 <- lift (conv2d x (conv2_weight p) (conv2_bias p)) ;;
  d2 <- Dropout2d (training self) c2 ;;
  p2 <- lift (max_pool2d d2 2) ;;
  let x := relu_nd p2 in
  x <- lift (view x 320) ;;
  let x := relu (linear (of_reals x) (of_reals (fc1_weight p))
                        (map Finite (fc1_bias p))) in
  x <- dropout x (training self) ;;
  ret (linear x (of_reals (fc2_weight p)) (map Finite (fc2_bias p))).

(** The part of the state that the evaluation pass reads or writes, with
    the logged values in floating point. *)
Record World : Type := {
  model : Net;
  generator : Generator;
  (** the scalar events of the global [writer] *)
  writer : option (list (string * num * Z));
  (** the calls [mlflow.log_metric(key, value)] *)
  metrics : list (string * num)
}.

Definition set_model (m : Net) (w : World) : World :=
  {| model := m; generator := generator w; writer := writer w;
     metrics := metrics w |}.

Definition set_generator (g : Generator) (w : World) : World :=
  {| model := model w; generator := g; writer := writer w;
     metrics := metrics w |}.

Definition set_writer (e : option (list (string * num * Z))) (w : World)
  : World :=
  {| model := model w; generator := generator w; writer := e;
     metrics := metrics w |}.

Definition set_metrics (m : list (string * num)) (w : World) : World :=
  {| model := model w; generator := generator w; writer := writer w;
     metrics := m |}.

Definition with_generator {A : Type} (m : M Generator A) : M World A :=
  fun w => let (r, g) := m (generator w) in (r, set_generator g w).

Definition iterate (l : DataLoader) : M World (list Batch) :=
  with_generator (fun g => let (bs, g') := iter_batches l g in (Ok bs, g')).

(** [writer.add_scalar(tag, value, step)] *)
Definition add_scalar (tag : string) (value : num) (step : Z) : M World unit :=
  fun w =>
    match writer w with
    | None => (Raise AttributeError, w)
    | Some events => (Ok tt, set_writer (Some (events ++ [(tag, value, step)])) w)
    end.

(** [log_scalar(name, value, step)] *)
Definition log_scalar (name : string) (value : num) (step : Z) : M World unit :=
  add_scalar name value step ;;
  modify (fun w => set_metrics (metrics w ++ [(name, value)]) w).

Variable train_loader : DataLoader.
Variable test_loader : DataLoader.

(** One trip through the loop of [test]. *)
Definition test_batch (acc : num * nat) (item : Batch) : M World (num * nat) :=
  let data := fst item in
  let target := snd item in
  self <- gets model ;;
  output <- with_generator (forward self data) ;;
  batch_loss <- lift (nll_loss_sum output target) ;;
  pred <- lift (max_dim1 output) ;;
  ret (py_add (fst acc) batch_loss, (snd acc + F.count_eq pred target)%nat).

(** [test(epoch)]; [correct] and the lengths are integers, and
    [100.0 * correct / len(test_loader.dataset)] is formed in binary64. *)
Definition test (epoch : Z) : M World unit :=
  modify (fun w => set_model (set_training false (model w)) w) ;;
  batches <- iterate test_loader ;;
  acc <- fold_each batches (Finite 0, 0%nat) test_batch ;;
  let n := dataset_len test_loader in
  if (n =? 0)%nat then raise ZeroDivisionError
  else
    let test_loss := py_div (fst acc) n in
    let test_accuracy := Finite (100 * INR (snd acc) / INR n) in
    let step := ((epoch + 1) * Z.of_nat (loader_len train_loader))%Z in
    log_scalar "test_loss" test_loss step ;;
    log_scalar "test_accuracy" test_accuracy step.

(** [PytorchModelWrapper.predict] *)
Definition predict (self : PytorchModelWrapper) (model_input : list string)
  : M Generator (list nat) :=
  nparray_list <- lift (decode_rows model_input) ;;
  torch_tensor <- lift (stack_to_tensor nparray_list) ;;
  match wrapper_model self with
  | None => raise AttributeError
  | Some m =>
      output <- forward m torch_tensor ;;
      lift (max_dim1 output)
  end.

(** The mean loss that the pass wrote last is at least zero. *)
Definition test_loss_nonnegative (w : World) : Prop :=
  forall events,
    writer w = Some events ->
    forall value step,
      In ("test_loss", value, step) events -> fleb (Finite 0) value = true.

End FloatScript.

End Float.

(** * A concrete backend *)

(** The library on networks whose convolution kernels and biases are all
    zero, trained with learning rate zero: every convolutional activation
    is zero whatever the image, so a tensor is represented by its number of
    rows, and the optimizer leaves the parameters as they are.  The
    generator is the tape of the keep flags [F.dropout] will draw; past its
    end every flag is [false].  Every cell of an input table is taken to
    hold the payload of a valid 28 x 28 single-channel image. *)
Definition zero_ops : TorchOps :=
  {| Tensor := nat;
     NdArray := unit;
     Generator := list bool;
     Grads := unit;
     Momentum := unit;
     conv2d := fun x _ _ => Ok x;
     max_pool2d := fun x _ => Ok x;
     relu_nd := fun x => x;
     feature_dropout := fun g x => (x, g);
     view := fun x n => Ok (repeat (repeat 0%R n) x);
     bernoulli := fun g n => (firstn n (g ++ repeat false n), skipn n g);
     backward := fun _ _ _ _ => tt;
     sgd_step := fun _ _ b p _ => (p, b);
     b64decode := fun s => Ok s;
     image_array := fun _ => Ok tt;
     stack_to_tensor := fun l =>
       match l with
       | [] => Raise ValueError
       | _ => Ok (List.length l)
       end |}.

Module Demo.

Local Open Scope string_scope.
Local Open Scope list_scope.

(** Parameters with the shapes of [Net.__init__]: [fc1] is 50 x 320 and
    maps every input to the vector of ones, [fc2] is 10 x 50 and copies
    the first hidden unit to class 1. *)
Definition demo_params : Params (@Tensor zero_ops) :=
  {| conv1_weight := 0%nat; conv1_bias := 0%nat;
     conv2_weight := 0%nat; conv2_bias := 0%nat;
     fc1_weight := repeat (repeat 0%R 320) 50;
     fc1_bias := repeat 1%R 50;
     fc2_weight := repeat 0%R 50 :: (1%R :: repeat 0%R 49)
                   :: repeat (repeat 0%R 50) 8;
     fc2_bias := repeat 0%R 10 |}.

Definition train_mode_net : @Net zero_ops :=
  @Build_Net zero_ops demo_params true.

Definition eval_mode_net : @Net zero_ops :=
  @Build_Net zero_ops demo_params false.

(** A loader with a single batch of one image, labelled 0. *)
Definition one_image_loader : @DataLoader zero_ops :=
  @Build_DataLoader zero_ops (fun g => ([(1%nat, [0%Z])], g)) 1 1.

Definition demo_args : Args :=
  {| batch_size := 64; test_batch_size := 1000; epochs := 1;
     lr := 0; momentum := 0.5; enable_cuda := "False"; seed := 1;
     log_interval := 100; cuda := false |}.

Definition zero_epoch_args : Args :=
  {| batch_size := 64; test_batch_size := 1000; epochs := 0;
     lr := 0; momentum := 0.5; enable_cuda := "False"; seed := 1;
     log_interval := 100; cuda := false |}.

(** A world in the middle of a run: the writer exists and is empty. *)
Definition demo_world : @World zero_ops :=
  @set_writer zero_ops (Some []) (@initial_world zero_ops demo_params tt []).

(** A manifest of the shape [mlflow.pytorch.get_default_conda_env] returns. *)
Definition demo_conda_env : Conda.pydict :=
  [ ("name", Conda.PyStr "mlflow-env");
    ("channels", Conda.PyList [Conda.PyStr "conda-forge"]);
    ("dependencies",
     Conda.PyList [ Conda.PyStr "python=3.8"; Conda.PyStr "pip";
                    Conda.PyDict [("pip", Conda.PyList [Conda.PyStr "mlflow"])] ]) ].

(** A manifest without any pip entry. *)
Definition no_pip_env : Conda.pydict :=
  [ ("name", Conda.PyStr "mlflow-env");
    ("dependencies", Conda.PyList [Conda.PyStr "python=3.8"]) ].

(** The manifest after the merge of the run. *)
Definition merged_conda_env : Conda.pydict :=
  [ ("name", Conda.PyStr "mlflow-env");
    ("channels", Conda.PyList [Conda.PyStr "conda-forge"]);
    ("dependencies",
     Conda.PyList [ Conda.PyStr "python=3.8"; Conda.PyStr "pip";
                    Conda.PyDict [("pip", Conda.PyList
                       [Conda.PyStr "mlflow"; Conda.PyStr "typing-extensions";
                        Conda.PyStr "Pillow"])] ]) ].

(** The [images] column of a table of two rows; the strings stand for the
    base64 payloads of two images. *)
Definition two_images : list string := ["<image 1>"; "<image 2>"].

Definition demo_context : PythonModelContext :=
  {| context_artifacts := [("scripted_model", "scripted_model.pth")] |}.

(** The file system after a run that saved the model in training mode
    (a run without epochs), and after one that saved it in evaluation
    mode. *)
Definition train_mode_files : list (string * @Net zero_ops) :=
  [("scripted_model.pth", train_mode_net)].

Definition eval_mode_files : list (string * @Net zero_ops) :=
  [("scripted_model.pth", eval_mode_net)].

Definition unloaded_wrapper : @PytorchModelWrapper zero_ops :=
  @Build_PytorchModelWrapper zero_ops None.

Definition train_mode_wrapper : @PytorchModelWrapper zero_ops :=
  @Build_PytorchModelWrapper zero_ops (Some train_mode_net).

Definition eval_mode_wrapper : @PytorchModelWrapper zero_ops :=
  @Build_PytorchModelWrapper zero_ops (Some eval_mode_net).

(** What the forward pass returns on the single training batch, in
    training mode with every hidden unit dropped, and the loss of that
    batch. *)
Definition demo_first_output : F.Matrix :=
  match fst (@forward zero_ops train_mode_net 1%nat []) with
  | inr out => out
  | inl _ => []
  end.

Definition demo_first_loss : R :=
  match F.nll_loss demo_first_output [0%Z] F.Mean with
  | inr loss => loss
  | inl _ => 0%R
  end.

(** One epoch over one batch of one image. *)
Definition demo_run : result unit * @World zero_ops :=
  @main zero_ops demo_args one_image_loader one_image_loader demo_conda_env
        demo_world.

(** The logits of the demo network for two rows of hidden activations of
    which only the first unit of the first row may be non-zero. *)
Definition demo_logits (h : R) : F.Matrix :=
  [[0; h; 0; 0; 0; 0; 0; 0; 0; 0]; [0; 0; 0; 0; 0; 0; 0; 0; 0; 0]]%R.

(** Arguments with a log interval of zero. *)
Definition zero_interval_args : Args :=
  {| batch_size := 64; test_batch_size := 1000; epochs := 1;
     lr := 0; momentum := 0.5; enable_cuda := "False"; seed := 1;
     log_interval := 0; cuda := false |}.

(** A loader over an empty data set. *)
Definition empty_loader : @DataLoader zero_ops :=
  @Build_DataLoader zero_ops (fun g => ([], g)) 0 0.

(** The world before the run has created its writer. *)
Definition fresh_world : @World zero_ops :=
  @initial_world zero_ops demo_params tt [].

(** The [images] column of a table of one row. *)
Definition one_image : list string := ["<image 1>"].

(** A matrix of two rows and two columns. *)
Definition two_by_two : F.Matrix := [[0; 1]; [1; 0]]%R.

(** The demo manifest as objects: the manifest at address 0, its pip
    entry at address 1. *)
Definition demo_heap : CondaHeap.heap :=
  fun a =>
    match a with
    | 0%nat =>
        [ ("name", CondaHeap.VStr "mlflow-env");
          ("channels", CondaHeap.VList [CondaHeap.VStr "conda-forge"]);
          ("dependencies",
           CondaHeap.VList [ CondaHeap.VStr "python=3.8"; CondaHeap.VStr "pip";
                             CondaHeap.VRef 1 ]) ]
    | 1%nat => [("pip", CondaHeap.VList [CondaHeap.VStr "mlflow"])]
    | _ => []
    end.

(** A manifest whose dependencies hold one dict object twice, as a YAML
    document does that repeats an entry through an alias. *)
Definition shared_dependencies : list CondaHeap.val :=
  [CondaHeap.VStr "python=3.8"; CondaHeap.VRef 1; CondaHeap.VRef 1].

Definition shared_heap : CondaHeap.heap :=
  fun a =>
    match a with
    | 0%nat =>
        [ ("name", CondaHeap.VStr "mlflow-env");
          ("dependencies", CondaHeap.VList shared_dependencies) ]
    | 1%nat => [("pip", CondaHeap.VList [CondaHeap.VStr "mlflow"])]
    | _ => []
    end.

(** Finite parameters with which every logit overflows: [fc1] maps every
    input to the vector of twos and every weight of [fc2] is [2^127]. *)
Definition overflow_params : Params (@Tensor zero_ops) :=
  {| conv1_weight := 0%nat; conv1_bias := 0%nat;
     conv2_weight := 0%nat; conv2_bias := 0%nat;
     fc1_weight := repeat (repeat 0%R 320) 50;
     fc1_bias := repeat 2%R 50;
     fc2_weight := repeat (repeat (2 ^ 127)%R 50) 10;
     fc2_bias := repeat 0%R 10 |}.

Definition overflow_net : @Net zero_ops :=
  @Build_Net zero_ops overflow_params false.

(** A run with these parameters about to evaluate: the writer exists. *)
Definition overflow_world : @Float.World zero_ops :=
  @Float.Build_World zero_ops overflow_net [] (Some []) [].

(** Parameters whose fully connected layers are all zero. *)
Definition zero_params : Params (@Tensor zero_ops) :=
  {| conv1_weight := 0%nat; conv1_bias := 0%nat;
     conv2_weight := 0%nat; conv2_bias := 0%nat;
     fc1_weight := repeat (repeat 0%R 320) 50;
     fc1_bias := repeat 0%R 50;
     fc2_weight := repeat (repeat 0%R 50) 10;
     fc2_bias := repeat 0%R 10 |}.

Definition zero_net : @Net zero_ops := @Build_Net zero_ops zero_params false.

Definition zero_wrapper : @PytorchModelWrapper zero_ops :=
  @Build_PytorchModelWrapper zero_ops (Some zero_net).

End Demo.

(** One branch of a computation on results, both ways. *)
Ltac step_result :=
  match goal with
  | |- context [match ?r with inl _ => _ | inr _ => _ end] =>
      destruct r; simpl; auto
  end.

(** * Properties of the manifest utility *)

Module CondaFacts.

Import Conda.
Local Open Scope string_scope.

Lemma dict_get_set_same (k : string) (v : pyval) (d : pydict) :
  dict_get k (dict_set k v d) = Some v.
Proof.
  induction d as [|[k' v'] d IH]; simpl.
  - now rewrite String.eqb_refl.
  - destruct (String.eqb k k') eqn:E; simpl; rewrite E; auto.
Qed.

Lemma dict_get_set_other (k k0 : string) (v : pyval) (d : pydict) :
  k0 <> k -> dict_get k0 (dict_set k v d) = dict_get k0 d.
Proof.
  intros Hne. induction d as [|[k' v'] d IH]; simpl.
  - destruct (String.eqb k0 k) eqn:E; auto.
    apply String.eqb_eq in E. contradiction.
  - destruct (String.eqb k k') eqn:E; simpl.
    + apply String.eqb_eq in E. subst k'.
      destruct (String.eqb k0 k) eqn:E0; auto.
      apply String.eqb_eq in E0. contradiction.
    + now rewrite IH.
Qed.

(** Assigning to a key that is present keeps the keys and their order. *)
Lemma dict_set_keys (k : string) (v v0 : pyval) (d : pydict) :
  dict_get k d = Some v0 -> map fst (dict_set k v d) = map fst d.
Proof.
  induction d as [|[k' v'] d IH]; simpl; [discriminate|].
  destruct (String.eqb k k') eqn:E; simpl; intros H; auto.
  now rewrite IH.
Qed.

Lemma list_set_length {A : Type} (i : nat) (v : A) (l : list A) :
  List.length (list_set i v l) = List.length l.
Proof.
  revert i; induction l as [|x l IH]; intros [|i]; simpl; auto.
Qed.

Lemma nth_error_list_set_same {A : Type} (i : nat) (v x : A) (l : list A) :
  nth_error l i = Some x -> nth_error (list_set i v l) i = Some v.
Proof.
  revert i; induction l as [|y l IH]; intros [|i]; simpl; try discriminate; auto.
Qed.

Lemma nth_error_list_set_other {A : Type} (i j : nat) (v : A) (l : list A) :
  j <> i -> nth_error (list_set i v l) j = nth_error l j.
Proof.
  revert i j; induction l as [|y l IH]; intros [|i] [|j] H; simpl; auto.
  congruence.
Qed.

(** What the search loop finds: a dict with the key, and nothing like it
    before. *)
Lemma find_pip_index_from_some (l : list pyval) (i0 i : nat) :
  find_pip_index_from i0 l = Some i ->
  exists j d, i = (i0 + j)%nat /\ nth_error l j = Some (PyDict d) /\
              dict_mem "pip" d = true /\
              forall j' e, (j' < j)%nat -> nth_error l j' = Some e ->
                           is_pip_entry e = false.
Proof.
  revert i0; induction l as [|e l IH]; intros i0; simpl; [discriminate|].
  destruct (is_pip_entry e) eqn:E.
  - intros H; injection H as <-. exists 0%nat.
    destruct e as [| |?|d]; simpl in E; try discriminate.
    exists d. split; [lia|]. split; [reflexivity|]. split; [exact E|].
    intros j' e' Hlt; lia.
  - intros H. destruct (IH _ H) as (j & d & -> & Hn & Hm & Hbefore).
    exists (S j), d. split; [lia|]. split; [exact Hn|]. split; [exact Hm|].
    intros [|j'] e' Hlt; simpl.
    + intros [= <-]; exact E.
    + intros He. apply (Hbefore j' e'); [lia | exact He].
Qed.

Lemma find_pip_index_from_none (l : list pyval) (i0 : nat) :
  ~ has_pip_entry l -> find_pip_index_from i0 l = None.
Proof.
  revert i0; induction l as [|e l IH]; intros i0 Hno; simpl; auto.
  destruct (is_pip_entry e) eqn:E.
  - exfalso. apply Hno.
    destruct e as [| |?|d]; simpl in E; try discriminate.
    exists d; split; [now left | exact E].
  - apply IH. intros (d & Hin & Hm). apply Hno. exists d; split; [now right | exact Hm].
Qed.

(** Replacing the found entry by a dict that still has the key does not
    move the index the loop finds. *)
Lemma find_pip_index_from_set (l : list pyval) (i0 j : nat) (d d' : pydict) :
  find_pip_index_from i0 l = Some (i0 + j)%nat ->
  nth_error l j = Some (PyDict d) ->
  dict_mem "pip" d' = true ->
  find_pip_index_from i0 (list_set j (PyDict d') l) = Some (i0 + j)%nat.
Proof.
  revert i0 j; induction l as [|e l IH]; intros i0 [|j]; simpl; try discriminate.
  - intros _ _ ->. f_equal; lia.
  - destruct (is_pip_entry e) eqn:E.
    + intros [= H]; lia.
    + intros H Hn Hm. replace (i0 + S j)%nat with (S i0 + j)%nat in * by lia.
      now apply IH.
Qed.

(** The merge raises [TypeError] on a manifest whose dependencies are a
    list without pip entry: the lookup [dependencies[None]]. *)
Lemma add_libraries_no_pip_type_error
    (env : pydict) (libraries conda_dependencies deps : list pyval) :
  dict_get "dependencies" env = Some (PyList deps) ->
  ~ has_pip_entry (deps ++ conda_dependencies) ->
  add_libraries_to_conda_env env libraries conda_dependencies = Raise TypeError.
Proof.
  intros Hd Hno. unfold add_libraries_to_conda_env. rewrite Hd. simpl.
  unfold find_pip_index. now rewrite find_pip_index_from_none.
Qed.

(** C3: without a nested dict carrying the key ["pip"] among the
    dependencies (extended by [conda_dependencies]) the merge raises; it
    returns no manifest, and so creates no key. *)
Theorem add_libraries_without_pip_raises
    (env : pydict) (libraries conda_dependencies : list pyval) :
  (forall deps, dict_get "dependencies" env = Some (PyList deps) ->
                ~ has_pip_entry (deps ++ conda_dependencies)) ->
  exists e, add_libraries_to_conda_env env libraries conda_dependencies = Raise e.
Proof.
  intros Hno.
  destruct (dict_get "dependencies" env) as [v|] eqn:Hd.
  - destruct v as [| s | deps | d].
    + exists TypeError. unfold add_libraries_to_conda_env. now rewrite Hd.
    + exists TypeError. unfold add_libraries_to_conda_env. now rewrite Hd.
    + exists TypeError. apply add_libraries_no_pip_type_error with deps; auto.
    + exists TypeError. unfold add_libraries_to_conda_env. now rewrite Hd.
  - exists KeyError. unfold add_libraries_to_conda_env. now rewrite Hd.
Qed.

Lemma add_libraries_without_pip_raises_witness :
  exists e, add_libraries_to_conda_env Demo.no_pip_env
              [PyStr "Pillow"] [] = Raise e.
Proof.
  apply (@add_libraries_without_pip_raises Demo.no_pip_env [PyStr "Pillow"] []).
  intros deps H. simpl in H. injection H as <-.
  intros (d & Hin & _). simpl in Hin. destruct Hin as [Hin|[]]. discriminate.
Defined.

End CondaFacts.

(** * Properties of the tensor functions *)

Module FFacts.

Import F.
Local Open Scope R_scope.

Lemma nth_error_map2 {A B C : Type} (f : A -> B -> C) (u : list A) (v : list B)
    (j : nat) (c : C) :
  nth_error (map2 f u v) j = Some c ->
  exists a b, nth_error u j = Some a /\ nth_error v j = Some b /\ c = f a b.
Proof.
  revert v j; induction u as [|a u IH]; intros [|b v] [|j]; simpl;
    try discriminate.
  - intros [= <-]. now exists a, b.
  - apply IH.
Qed.

Lemma map2_map_r {A B C D : Type} (f : A -> C -> D) (g : B -> C)
    (u : list A) (v : list B) :
  map2 f u (map g v) = map2 (fun a b => f a (g b)) u v.
Proof.
  revert v; induction u as [|a u IH]; intros [|b v]; simpl; auto.
  now rewrite IH.
Qed.

Lemma map2_diag {A B C : Type} (f : A -> B -> C) (g : A -> B) (u : list A) :
  map2 f u (map g u) = map (fun a => f a (g a)) u.
Proof. induction u as [|a u IH]; simpl; auto. now rewrite IH. Qed.

(** ** Normalisation along axis 0 *)

(** On a batch of one row every column holds a single entry, which the
    normalisation turns into [ln 1]. *)
Lemma log_softmax_dim0_single_row (row : list R) :
  log_softmax_dim0 [row] = [map (fun _ => 0) row].
Proof.
  unfold log_softmax_dim0. simpl. f_equal.
  rewrite map_map, map2_diag.
  apply map_ext. intros a. rewrite ln_exp. lra.
Qed.

Lemma exp_sum_zeros {A : Type} (row : list A) :
  exp_sum (map (fun _ => 0) row) = INR (List.length row).
Proof.
  unfold exp_sum. induction row as [|a row IH].
  - reflexivity.
  - change (List.length (a :: row)) with (S (List.length row)).
    rewrite S_INR. simpl in *. rewrite IH, exp_0. lra.
Qed.

(** C2: on a batch of one row the final activation of [forward] returns
    the all-zero row, whose exponentials add up to the number of classes,
    not to one: the row is not a vector of log-probabilities. *)
Theorem log_softmax_axis0_single_row (row : list R) :
  log_softmax [row] 0 = Ok [map (fun _ => 0) row] /\
  exp_sum (map (fun _ => 0) row) = INR (List.length row).
Proof.
  split.
  - unfold log_softmax. simpl. now rewrite log_softmax_dim0_single_row.
  - apply exp_sum_zeros.
Qed.

(** What the claim asks for is what axis 1 gives: every non-empty row of
    the result is a vector of log-probabilities. *)
Lemma Rsum_map_scale (c : R) (l : list R) :
  Rsum (map (fun v => v * c) l) = Rsum l * c.
Proof. induction l as [|a l IH]; simpl; [lra | rewrite IH; lra]. Qed.

Lemma Rsum_exp_pos (row : list R) : row <> [] -> 0 < Rsum (map exp row).
Proof.
  destruct row as [|a row]; [congruence|]. intros _. simpl.
  assert (H : 0 <= Rsum (map exp row)).
  { induction row as [|b row IH]; simpl; [lra|].
    pose proof (exp_pos b). lra. }
  pose proof (exp_pos a). lra.
Qed.

Lemma log_softmax_dim1_rows_normalised (x : Matrix) (row : list R) :
  In row (log_softmax_dim1 x) -> row <> [] -> exp_sum row = 1.
Proof.
  unfold log_softmax_dim1. rewrite in_map_iff. intros (r & <- & _) Hne.
  assert (Hr : r <> []) by (destruct r; [contradiction Hne; reflexivity | discriminate]).
  pose proof (Rsum_exp_pos Hr) as Hpos.
  unfold exp_sum. rewrite map_map.
  rewrite (map_ext (fun v => exp (v - ln (Rsum (map exp r))))
                   (fun v => exp v * / Rsum (map exp r))).
  - rewrite <- (map_map exp (fun e => e * / Rsum (map exp r))).
    rewrite Rsum_map_scale. field. lra.
  - intros a. unfold Rminus. rewrite exp_plus, exp_Ropp, exp_ln; auto.
Qed.

(** ** Sums of columns *)

Lemma sum_rows_positive (m : Matrix) :
  all_positive m ->
  forall j s, nth_error (sum_rows m) j = Some s -> 0 < s.
Proof.
  induction m as [|r0 m IH]; intros Hpos j s; simpl.
  - destruct j; discriminate.
  - destruct m as [|r1 m].
    + intros H. apply (Hpos r0 s); [now left | eapply nth_error_In; eauto].
    + intros H. apply nth_error_map2 in H.
      destruct H as (a & b & Ha & Hb & ->).
      assert (0 < a) by (apply (Hpos r0 a); [now left | eapply nth_error_In; eauto]).
      assert (0 < b).
      { apply (IH (fun row v Hr Hv => Hpos row v (or_intror Hr) Hv) j b Hb). }
      lra.
Qed.

Lemma exp_matrix_positive (x : Matrix) : all_positive (map (map exp) x).
Proof.
  intros row v Hr Hv. apply in_map_iff in Hr. destruct Hr as (r & <- & _).
  apply in_map_iff in Hv. destruct Hv as (a & <- & _). apply exp_pos.
Qed.

(** ** What axis 0 does normalise: the columns *)

Lemma exp_row_minus_lse (r S : list R) :
  Forall (fun s => 0 < s) S ->
  map exp (map2 Rminus r (map ln S)) = map2 Rdiv (map exp r) S.
Proof.
  intros HS. revert r; induction HS as [|s S Hs HS IH]; intros [|a r]; simpl; auto.
  rewrite IH. f_equal.
  unfold Rminus, Rdiv. rewrite exp_plus, exp_Ropp, exp_ln; auto.
Qed.

Lemma map2_div_plus (a b T : list R) :
  map2 Rplus (map2 Rdiv a T) (map2 Rdiv b T) = map2 Rdiv (map2 Rplus a b) T.
Proof.
  revert b T; induction a as [|x a IH]; intros [|y b] [|t T]; simpl; auto.
  rewrite IH. f_equal. unfold Rdiv. lra.
Qed.

Lemma sum_rows_div (m : Matrix) (T : list R) :
  sum_rows (map (fun r => map2 Rdiv r T) m) = map2 Rdiv (sum_rows m) T.
Proof.
  induction m as [|r m IH]; [reflexivity|].
  destruct m as [|r' m]; [reflexivity|].
  change (sum_rows (map (fun r => map2 Rdiv r T) (r :: r' :: m)))
    with (map2 Rplus (map2 Rdiv r T)
                     (sum_rows (map (fun r => map2 Rdiv r T) (r' :: m)))).
  rewrite IH.
  change (sum_rows (r :: r' :: m)) with (map2 Rplus r (sum_rows (r' :: m))).
  apply map2_div_plus.
Qed.

Lemma map2_div_self (S : list R) :
  Forall (fun s => 0 < s) S -> map2 Rdiv S S = repeat 1 (List.length S).
Proof.
  induction 1 as [|s S Hs HS IH]; simpl; auto.
  rewrite IH. f_equal. unfold Rdiv. apply Rinv_r. lra.
Qed.

Lemma map2_length_same {A B C : Type} (f : A -> B -> C) (u : list A) (v : list B) :
  List.length u = List.length v -> List.length (map2 f u v) = List.length u.
Proof.
  revert v; induction u as [|a u IH]; intros [|b v]; simpl; try discriminate; auto.
Qed.

Lemma sum_rows_length (m : Matrix) (n : nat) :
  m <> [] -> Forall (fun r => List.length r = n) m ->
  List.length (sum_rows m) = n.
Proof.
  induction m as [|r m IH]; [congruence|]. intros _ Hall.
  inversion Hall as [|? ? Hr Hm]; subst.
  destruct m as [|r' m]; [reflexivity|].
  change (sum_rows (r :: r' :: m)) with (map2 Rplus r (sum_rows (r' :: m))).
  rewrite map2_length_same; auto. symmetry. apply IH; [discriminate | exact Hm].
Qed.

(** On a non-empty batch of rows of one length, the exponentials of every
    column of the result add up to one: the normalisation runs over the
    rows of the batch. *)
Lemma log_softmax_dim0_columns_normalised (x : Matrix) (n : nat) :
  x <> [] -> Forall (fun r => List.length r = n) x ->
  sum_rows (map (map exp) (log_softmax_dim0 x)) = repeat 1 n.
Proof.
  intros Hne Hrect.
  set (S := sum_rows (map (map exp) x)).
  assert (HS : Forall (fun s => 0 < s) S).
  { apply Forall_forall. intros s Hs. apply In_nth_error in Hs.
    destruct Hs as [j Hj].
    apply (@sum_rows_positive (map (map exp) x) (exp_matrix_positive x) j s Hj). }
  assert (Hlen : List.length S = n).
  { apply sum_rows_length.
    - destruct x; [congruence | discriminate].
    - apply Forall_map. eapply Forall_impl; [|exact Hrect].
      intros r Hr. simpl. now rewrite length_map. }
  unfold log_softmax_dim0. fold S. rewrite map_map.
  rewrite (map_ext (fun r => map exp (map2 Rminus r (map ln S)))
                   (fun r => map2 Rdiv (map exp r) S))
    by (intros r; now apply exp_row_minus_lse).
  rewrite <- (map_map (map exp) (fun r => map2 Rdiv r S)).
  rewrite sum_rows_div. fold S. rewrite map2_div_self by exact HS.
  now rewrite Hlen.
Qed.

(** ** The count of correct predictions *)

Lemma count_eq_le (pred : list nat) (target : list Z) :
  (count_eq pred target <= List.length target)%nat.
Proof.
  unfold count_eq.
  eapply Nat.le_trans; [apply filter_length_le|].
  rewrite length_combine. apply Nat.le_min_r.
Qed.

End FFacts.

(** * Reasoning about computations *)

Section TripleRules.

Context {S : Type}.

Lemma triple_ret {A : Type} (a : A) (Q : A -> S -> Prop) (E : S -> Prop) :
  triple (Q a) (ret a) Q E.
Proof. intros s H. exact H. Qed.

(** Reading the state: the continuation may use what was read. *)
Lemma triple_bind_gets {A B : Type} (f : S -> A) (k : A -> M S B)
    (P : S -> Prop) (Q : B -> S -> Prop) (E : S -> Prop) :
  (forall a, triple (fun s => a = f s /\ P s) (k a) Q E) ->
  triple P (bind (gets f) k) Q E.
Proof.
  intros Hk s HP. unfold bind, gets. apply (Hk (f s) s). split; auto.
Qed.

(** A result that is known to be a value. *)
Lemma triple_bind_lift {A B : Type} (r : result A) (a : A) (k : A -> M S B)
    (P : S -> Prop) (Q : B -> S -> Prop) (E : S -> Prop) :
  r = Ok a ->
  triple P (k a) Q E ->
  triple P (bind (lift r) k) Q E.
Proof.
  intros -> Hk s HP. unfold bind, lift. apply (Hk s HP).
Qed.

Lemma triple_bind {A B : Type} (m : M S A) (k : A -> M S B)
    (P : S -> Prop) (Q : A -> S -> Prop) (R : B -> S -> Prop) (E : S -> Prop) :
  triple P m Q E ->
  (forall a, triple (Q a) (k a) R E) ->
  triple P (bind m k) R E.
Proof.
  intros Hm Hk s HP. unfold bind. specialize (Hm s HP).
  destruct (m s) as [[e|a] s']; [exact Hm|].
  apply (Hk a s' Hm).
Qed.

Lemma triple_consequence {A : Type} (m : M S A)
    (P P' : S -> Prop) (Q Q' : A -> S -> Prop) (E E' : S -> Prop) :
  triple P' m Q' E' ->
  (forall s, P s -> P' s) ->
  (forall a s, Q' a s -> Q a s) ->
  (forall s, E' s -> E s) ->
  triple P m Q E.
Proof.
  intros Hm HP HQ HE s Hs. specialize (Hm s (HP s Hs)).
  destruct (m s) as [[e|a] s']; auto.
Qed.

Lemma triple_lift {A : Type} (r : result A) (P : S -> Prop) :
  triple P (lift r) (fun a s => r = Ok a /\ P s) P.
Proof. intros s H. unfold lift. destruct r; auto. Qed.

Lemma triple_raise {A : Type} (e : PyError) (P : S -> Prop) (Q : A -> S -> Prop) :
  triple P (raise e) Q P.
Proof. intros s H. exact H. Qed.

Lemma triple_gets {A : Type} (f : S -> A) (P : S -> Prop) :
  triple P (gets f) (fun a s => a = f s /\ P s) P.
Proof. intros s H. simpl. auto. Qed.

Lemma triple_modify (f : S -> S) (P Q E : S -> Prop) :
  (forall s, P s -> Q (f s)) ->
  triple P (modify f) (fun _ => Q) E.
Proof. intros H s Hs. simpl. auto. Qed.

Lemma preserves_ret {A : Type} (I : S -> Prop) (a : A) : preserves I (ret a).
Proof. intros s H. exact H. Qed.

Lemma preserves_bind {A B : Type} (I : S -> Prop) (m : M S A) (k : A -> M S B) :
  preserves I m -> (forall a, preserves I (k a)) -> preserves I (bind m k).
Proof. intros Hm Hk. eapply triple_bind; eauto. Qed.

Lemma preserves_lift {A : Type} (I : S -> Prop) (r : result A) :
  preserves I (lift r).
Proof. intros s H. unfold lift. destruct r; exact H. Qed.

Lemma preserves_raise {A : Type} (I : S -> Prop) (e : PyError) :
  preserves I (@raise S A e).
Proof. intros s H. exact H. Qed.

Lemma preserves_gets {A : Type} (I : S -> Prop) (f : S -> A) :
  preserves I (gets f).
Proof. intros s H. exact H. Qed.

Lemma preserves_modify (I : S -> Prop) (f : S -> S) :
  (forall s, I s -> I (f s)) -> preserves I (modify f).
Proof. intros H s Hs. simpl. auto. Qed.

Lemma preserves_for_each {A : Type} (I : S -> Prop) (l : list A)
    (body : A -> M S unit) :
  (forall x, preserves I (body x)) -> preserves I (for_each l body).
Proof.
  intros Hb. induction l as [|x l IH]; simpl.
  - apply preserves_ret.
  - apply preserves_bind; auto.
Qed.

Lemma preserves_fold_each {A B : Type} (I : S -> Prop) (l : list A) (acc : B)
    (body : B -> A -> M S B) :
  (forall b x, preserves I (body b x)) -> preserves I (fold_each l acc body).
Proof.
  intros Hb. revert acc; induction l as [|x l IH]; intros acc; simpl.
  - apply preserves_ret.
  - apply preserves_bind; auto.
Qed.

(** When nothing is asked of the state, only the last step matters. *)
Lemma triple_bind_true {A B : Type} (m : M S A) (k : A -> M S B)
    (Q : B -> S -> Prop) :
  (forall a, triple (fun _ => True) (k a) Q (fun _ => True)) ->
  triple (fun _ => True) (bind m k) Q (fun _ => True).
Proof.
  intros Hk s _. unfold bind. destruct (m s) as [[e|a] s']; auto.
  apply (Hk a s' Logic.I).
Qed.

(** A fact that does not speak of the state can be taken out of the
    precondition. *)
Lemma triple_pure_pre {A : Type} (phi : Prop) (m : M S A)
    (P : S -> Prop) (Q : A -> S -> Prop) (E : S -> Prop) :
  (phi -> triple P m Q E) ->
  triple (fun s => phi /\ P s) m Q E.
Proof. intros H s [Hphi HP]. now apply H. Qed.

(** Computations that agree on every state satisfy the same triples. *)
Lemma triple_ext {A : Type} (m m' : M S A)
    (P : S -> Prop) (Q : A -> S -> Prop) (E : S -> Prop) :
  (forall s, m s = m' s) -> triple P m' Q E -> triple P m Q E.
Proof. intros Heq H s Hs. rewrite Heq. now apply H. Qed.

Lemma for_each_app {A : Type} (l1 l2 : list A) (body : A -> M S unit) (s : S) :
  for_each (l1 ++ l2) body s
  = bind (for_each l1 body) (fun _ => for_each l2 body) s.
Proof.
  revert s; induction l1 as [|x l1 IH]; intros s; simpl.
  - reflexivity.
  - unfold bind. destruct (body x s) as [[e|u] s']; [reflexivity|].
    rewrite IH. reflexivity.
Qed.

(** A loop of plain state updates does not raise. *)
Lemma triple_for_each_modify {A : Type} (l : list A) (f : A -> S -> S)
    (E : S -> Prop) :
  triple (fun _ => True) (for_each l (fun x => modify (f x)))
         (fun _ _ => True) E.
Proof.
  induction l as [|x l IH]; intros s _; simpl; auto.
  unfold bind, modify. apply (IH (f x s) Logic.I).
Qed.

(** A loop whose invariant moves with the position in the list: [I j]
    holds before the element at position [j] and [I (j + 1)] after it. *)
Lemma triple_for_each_indexed {A : Type} (I : nat -> S -> Prop)
    (body : A -> M S unit) (l : list A) (k : nat) :
  (forall i s, I i s -> I (Datatypes.S i) s) ->
  (forall j x, nth_error l j = Some x ->
     triple (I (k + j)%nat) (body x)
            (fun _ => I (Datatypes.S (k + j))) (I (Datatypes.S (k + j)))) ->
  triple (I k) (for_each l body)
         (fun _ => I (k + List.length l)%nat) (I (k + List.length l)%nat).
Proof.
  intros Hmono. revert k. induction l as [|x l IH]; intros k Hbody; simpl.
  - rewrite Nat.add_0_r. apply preserves_ret.
  - assert (Hup : forall n s, I (Datatypes.S k) s -> I (Datatypes.S k + n)%nat s).
    { induction n as [|n IHn]; intros s Hs.
      - now rewrite Nat.add_0_r.
      - rewrite Nat.add_succ_r. apply Hmono. now apply IHn. }
    replace (k + Datatypes.S (List.length l))%nat
      with (Datatypes.S k + List.length l)%nat by lia.
    apply triple_bind with (Q := fun _ => I (Datatypes.S k)).
    + eapply triple_consequence.
      * apply (Hbody 0%nat x eq_refl).
      * intros s Hs. now rewrite Nat.add_0_r.
      * intros a s Hs. rewrite Nat.add_0_r in Hs. exact Hs.
      * intros s Hs. rewrite Nat.add_0_r in Hs. now apply Hup.
    + intros u. apply IH. intros j y Hj.
      replace (Datatypes.S k + j)%nat with (k + Datatypes.S j)%nat by lia.
      apply (Hbody (Datatypes.S j) y Hj).
Qed.

(** A loop with accumulators whose invariant speaks of the elements
    already processed. *)
Lemma triple_fold_each {A B : Type} (I : list A -> B -> S -> Prop)
    (E : S -> Prop) (body : B -> A -> M S B) (l : list A) :
  (forall done x acc,
     triple (I done acc) (body acc x) (fun acc' => I (done ++ [x]) acc') E) ->
  forall done acc,
    triple (I done acc) (fold_each l acc body) (fun acc' => I (done ++ l) acc') E.
Proof.
  intros Hbody. induction l as [|x l IH]; intros done acc; simpl.
  - rewrite app_nil_r. apply triple_ret with (Q := fun acc' => I done acc').
  - eapply triple_bind; [apply Hbody|].
    intros acc'. specialize (IH (done ++ [x]) acc').
    rewrite <- app_assoc in IH. exact IH.
Qed.

End TripleRules.

(** * Properties of the script *)

Section ScriptFacts.

Context {ops : TorchOps}.
Variable args : Args.
Variable train_loader : DataLoader.
Variable test_loader : DataLoader.
Variable get_default_conda_env : Conda.pydict.

Local Open Scope string_scope.
Local Open Scope list_scope.

(** ** Metric logging *)

Lemma log_scalar_eq (name : string) (value : R) (step : Z) (w : World)
    (evs : list Event) :
  writer w = Some evs ->
  log_scalar name value step w
  = (Ok tt,
     set_metrics (metrics w ++ [{| metric_key := name; metric_value := value;
                                   metric_step := None |}])
                 (set_writer (Some (evs ++ [Scalar name value step])) w)).
Proof.
  intros H. unfold log_scalar, bind, add_scalar. rewrite H. reflexivity.
Qed.

(** C1 (as amended): a call of [log_scalar] appends the triple of name,
    value and step to the event writer and hands the tracking client the
    same name and the same value; the call to the client carries no step. *)
Theorem log_scalar_two_sinks (name : string) (value : R) (step : Z)
    (w : World) (evs : list Event) :
  writer w = Some evs ->
  fst (log_scalar name value step w) = Ok tt /\
  writer (snd (log_scalar name value step w))
  = Some (evs ++ [Scalar name value step]) /\
  metrics (snd (log_scalar name value step w))
  = metrics w ++ [{| metric_key := name; metric_value := value;
                     metric_step := None |}].
Proof.
  intros H. rewrite (log_scalar_eq name value step w H). simpl. auto.
Qed.

(** ** Invariants that only read part of the world *)

Lemma preserves_with_generator {A : Type} (I : World -> Prop) (m : M Generator A) :
  (forall w g, I w -> I (set_generator g w)) ->
  preserves I (with_generator m).
Proof.
  intros H w Hw. unfold with_generator.
  destruct (m (generator w)) as [[e|a] g]; apply H; exact Hw.
Qed.

Lemma preserves_iterate (I : World -> Prop) (l : DataLoader) :
  (forall w g, I w -> I (set_generator g w)) ->
  preserves I (iterate l).
Proof. intros H. unfold iterate. now apply preserves_with_generator. Qed.

Lemma preserves_add_scalar (I : World -> Prop) (tag : string) (v : R) (s : Z) :
  (forall w evs, writer w = Some evs -> I w ->
                 I (set_writer (Some (evs ++ [Scalar tag v s])) w)) ->
  preserves I (add_scalar tag v s).
Proof.
  intros H w Hw. unfold add_scalar.
  destruct (writer w) as [evs|] eqn:E; simpl; auto.
Qed.

Lemma preserves_add_histogram (I : World -> Prop) (tag : string)
    (v : ParamData) (s : Z) :
  (forall w evs, writer w = Some evs -> I w ->
                 I (set_writer (Some (evs ++ [Histogram tag v s])) w)) ->
  preserves I (add_histogram tag v s).
Proof.
  intros H w Hw. unfold add_histogram.
  destruct (writer w) as [evs|] eqn:E; simpl; auto.
Qed.

Lemma preserves_log_scalar (I : World -> Prop) (tag : string) (v : R) (s : Z) :
  (forall w evs, writer w = Some evs -> I w ->
                 I (set_writer (Some (evs ++ [Scalar tag v s])) w)) ->
  (forall w m, I w -> I (set_metrics m w)) ->
  preserves I (log_scalar tag v s).
Proof.
  intros Hw Hm. unfold log_scalar. apply preserves_bind.
  - now apply preserves_add_scalar.
  - intros u. apply preserves_modify. intros w H. now apply Hm.
Qed.

(** ** Evaluation leaves the training state alone *)

Lemma test_batch_preserves (I : World -> Prop) (acc : R * nat) (item : Batch) :
  (forall w g, I w -> I (set_generator g w)) ->
  preserves I (test_batch acc item).
Proof.
  intros Hg. unfold test_batch.
  apply preserves_bind; [apply preserves_gets|]. intros self.
  apply preserves_bind; [now apply preserves_with_generator|]. intros output.
  apply preserves_bind; [apply preserves_lift|]. intros batch_loss.
  apply preserves_bind; [apply preserves_lift|]. intros pred.
  apply preserves_ret.
Qed.

Lemma test_preserves (I : World -> Prop) (epoch : Z) :
  reads_training_state I ->
  preserves I (test train_loader test_loader epoch).
Proof.
  intros HI.
  assert (Hg : forall w g, I w -> I (set_generator g w))
    by (intros w g; apply HI; simpl; auto).
  unfold test.
  apply preserves_bind.
  { apply preserves_modify. intros w. apply HI; simpl; auto. }
  intros u. apply preserves_bind; [now apply preserves_iterate|]. intros batches.
  apply preserves_bind.
  { apply preserves_fold_each. intros b x. now apply test_batch_preserves. }
  intros acc. destruct (dataset_len test_loader =? 0)%nat.
  - apply preserves_raise.
  - apply preserves_bind; [|intros u'];
      (apply preserves_log_scalar;
       [intros w evs _; apply HI; simpl; auto
       | intros w m; apply HI; simpl; auto]).
Qed.

(** C6: [test] leaves every parameter tensor, the gradients, the momentum
    buffers and the number of optimizer steps as they were, for every
    evaluation feed and whether or not the pass raises. *)
Theorem test_keeps_training_state (epoch : Z) (w : World) :
  same_training_state w (snd (test train_loader test_loader epoch w)).
Proof.
  assert (HI : reads_training_state (same_training_state w)).
  { intros w1 w2 Hm Hg Hb Hs (H1 & H2 & H3 & H4). unfold same_training_state.
    rewrite Hg, Hb, Hs. repeat split; auto.
    destruct Hm as [-> | ->]; simpl; auto. }
  pose proof (test_preserves epoch HI w) as H.
  assert (H0 : same_training_state w w) by (unfold same_training_state; auto).
  specialize (H H0).
  destruct (test train_loader test_loader epoch w) as [[e|u] w']; exact H.
Qed.

(** The pass does switch the module to evaluation mode. *)
Lemma test_sets_eval_mode (epoch : Z) (w : World) :
  training (model (snd (test train_loader test_loader epoch w))) = false.
Proof.
  set (I := fun w : World => training (model w) = false).
  assert (H : triple (fun _ => True) (test train_loader test_loader epoch)
                     (fun _ => I) I).
  { unfold test. eapply triple_bind.
    - apply triple_modify with (Q := I). intros s _. reflexivity.
    - intros u.
      assert (Hg : forall w g, I w -> I (set_generator g w)) by (intros; assumption).
      apply preserves_bind; [now apply preserves_iterate|]. intros batches.
      apply preserves_bind.
      { apply preserves_fold_each. intros b x. now apply test_batch_preserves. }
      intros acc. destruct (dataset_len test_loader =? 0)%nat.
      + apply preserves_raise.
      + apply preserves_bind; [|intros u'];
          (apply preserves_log_scalar;
           [intros ? ? _ ?; assumption | intros; assumption]). }
  specialize (H w Logic.I).
  destruct (test train_loader test_loader epoch w) as [[e|u] w']; exact H.
Qed.

(** ** Step values *)

Lemma non_decreasing_snoc (l : list Z) (s : Z) :
  non_decreasing l -> Forall (fun x => (x <= s)%Z) l ->
  non_decreasing (l ++ [s]).
Proof.
  induction l as [|x l IH]; simpl; auto.
  intros [Hx Hl] Hall. inversion Hall as [|? ? Hxs Hall']; subst.
  split; [|now apply IH].
  destruct l as [|y l]; simpl; auto.
Qed.

Lemma sorted_below_mono (b b' : Z) (w : World) :
  (b <= b')%Z -> sorted_below b w -> sorted_below b' w.
Proof.
  intros Hle [Hs Hb]. split; auto.
  eapply Forall_impl; [|exact Hb]. simpl. intros; lia.
Qed.

Lemma sorted_below_reads_writer (b : Z) : reads_writer (sorted_below b).
Proof.
  intros w w' Hw. unfold sorted_below, steps, events. now rewrite Hw.
Qed.

Lemma sorted_below_add (b : Z) (w : World) (evs : list Event) (e : Event) :
  writer w = Some evs -> event_step e = b ->
  sorted_below b w ->
  sorted_below b (set_writer (Some (evs ++ [e])) w).
Proof.
  unfold sorted_below, steps, events. intros -> <- [Hs Hb]. simpl.
  rewrite map_app. simpl. split.
  - now apply non_decreasing_snoc.
  - apply Forall_app. split; auto. constructor; [lia | constructor].
Qed.

Lemma log_scalar_sorted (b : Z) (tag : string) (v : R) :
  preserves (sorted_below b) (log_scalar tag v b).
Proof.
  apply preserves_log_scalar.
  - intros w evs Hw H. now apply sorted_below_add.
  - intros w m. now apply sorted_below_reads_writer.
Qed.

Lemma log_weights_sorted (b : Z) : preserves (sorted_below b) (log_weights b).
Proof.
  unfold log_weights.
  apply preserves_bind; [apply preserves_gets|]. intros m.
  repeat (apply preserves_bind; [|intros ?]);
    apply preserves_add_histogram; intros w evs Hw H; now apply sorted_below_add.
Qed.

Lemma train_batch_sorted (epoch : Z) (i : nat) (batch : Batch) :
  preserves
    (sorted_below (epoch * Z.of_nat (loader_len train_loader) + Z.of_nat i))
    (train_batch args train_loader epoch (i, batch)).
Proof.
  set (b := (epoch * Z.of_nat (loader_len train_loader) + Z.of_nat i)%Z).
  pose proof (@sorted_below_reads_writer b) as Hr.
  unfold train_batch. simpl fst. simpl snd.
  apply preserves_bind.
  { apply preserves_modify. intros w. now apply Hr. }
  intros u1. apply preserves_bind; [apply preserves_gets|]. intros self.
  apply preserves_bind; [apply preserves_gets|]. intros g0.
  apply preserves_bind.
  { apply preserves_with_generator. intros w g. now apply Hr. }
  intros output. apply preserves_bind; [apply preserves_lift|]. intros loss.
  apply preserves_bind.
  { apply preserves_modify. intros w. now apply Hr. }
  intros u2. apply preserves_bind.
  { apply preserves_modify. intros w. apply Hr.
    destruct (sgd_step _ _ _ _ _). reflexivity. }
  intros u3.
  destruct (log_interval args =? 0)%Z; [apply preserves_raise|].
  destruct (Z.of_nat i mod log_interval args =? 0)%Z; [|apply preserves_ret].
  apply preserves_bind; [apply log_scalar_sorted|].
  intros u4. apply log_weights_sorted.
Qed.

Lemma nth_error_enumerate {A : Type} (l : list A) (j i : nat) (x : A) :
  nth_error (enumerate l) j = Some (i, x) -> i = j.
Proof.
  unfold enumerate. intros H.
  assert (Hgen : forall (k : nat) (l : list A) (j i : nat) (x : A),
             nth_error (combine (seq k (List.length l)) l) j = Some (i, x) ->
             i = (k + j)%nat).
  { clear. intros k l; revert k; induction l as [|y l IH]; intros k [|j] i x; simpl;
      try discriminate.
    - intros [= <- _]. lia.
    - intros H. apply IH in H. lia. }
  apply Hgen in H. lia.
Qed.

Lemma enumerate_length {A : Type} (l : list A) :
  List.length (enumerate l) = List.length l.
Proof.
  unfold enumerate. rewrite length_combine, length_seq. apply Nat.min_id.
Qed.

(** An epoch of training that starts with all steps below [epoch * L] ends
    with all steps below [(epoch + 1) * L], [L] being [len(train_loader)]. *)
Lemma train_sorted (epoch : Z) :
  loader_ok train_loader ->
  triple
    (sorted_below (epoch * Z.of_nat (loader_len train_loader)))
    (train args train_loader epoch)
    (fun _ => sorted_below ((epoch + 1) * Z.of_nat (loader_len train_loader)))
    (sorted_below ((epoch + 1) * Z.of_nat (loader_len train_loader))).
Proof.
  intros Hok.
  set (L := Z.of_nat (loader_len train_loader)).
  set (I := fun (i : nat) => sorted_below (epoch * L + Z.of_nat i)).
  assert (Hmono : forall i s, I i s -> I (S i) s).
  { intros i s. apply sorted_below_mono. lia. }
  unfold train.
  apply triple_bind with (Q := fun _ => I 0%nat).
  { apply triple_modify. intros w H. unfold I.
    replace (epoch * L + Z.of_nat 0)%Z with (epoch * L)%Z by lia.
    revert H. now apply sorted_below_reads_writer. }
  intros u.
  apply triple_bind
    with (Q := fun bs w => List.length bs = loader_len train_loader /\ I 0%nat w).
  { intros w Hw. unfold iterate, with_generator.
    destruct (iter_batches train_loader (generator w)) as [bs g] eqn:E.
    split.
    - destruct (Hok (generator w)) as [Hlen _]. now rewrite E in Hlen.
    - revert Hw. now apply sorted_below_reads_writer. }
  intros bs.
  assert (Hloop := @triple_for_each_indexed World (nat * Batch) I
                     (train_batch args train_loader epoch) (enumerate bs) 0 Hmono).
  assert (Hbody : forall j x, nth_error (enumerate bs) j = Some x ->
            triple (I (0 + j)%nat) (train_batch args train_loader epoch x)
                   (fun _ => I (S (0 + j))) (I (S (0 + j)))).
  { intros j [i batch] Hj. apply nth_error_enumerate in Hj. subst i. simpl.
    eapply triple_consequence; [apply (train_batch_sorted epoch j batch) | | |];
      unfold I; fold L; auto; intros; now apply Hmono. }
  specialize (Hloop Hbody). rewrite enumerate_length in Hloop. simpl in Hloop.
  intros w [Hlen Hw]. specialize (Hloop w Hw).
  unfold I in Hloop. rewrite Hlen in Hloop. fold L in Hloop.
  replace ((epoch + 1) * L)%Z with (epoch * L + L)%Z by lia.
  exact Hloop.
Qed.

Lemma test_sorted (epoch : Z) :
  preserves (sorted_below ((epoch + 1) * Z.of_nat (loader_len train_loader)))
            (test train_loader test_loader epoch).
Proof.
  set (b := ((epoch + 1) * Z.of_nat (loader_len train_loader))%Z).
  pose proof (@sorted_below_reads_writer b) as Hr.
  assert (Hg : forall w g, sorted_below b w -> sorted_below b (set_generator g w))
    by (intros w g; now apply Hr).
  unfold test.
  apply preserves_bind.
  { apply preserves_modify. intros w. now apply Hr. }
  intros u. apply preserves_bind; [now apply preserves_iterate|]. intros batches.
  apply preserves_bind.
  { apply preserves_fold_each. intros acc x. now apply test_batch_preserves. }
  intros acc. destruct (dataset_len test_loader =? 0)%nat.
  - apply preserves_raise.
  - apply preserves_bind; [|intros u']; apply log_scalar_sorted.
Qed.

Lemma nth_error_range1 (n : Z) (j : nat) (e : Z) :
  nth_error (range1 n) j = Some e -> e = Z.of_nat (1 + j).
Proof.
  unfold range1. rewrite nth_error_map.
  destruct (nth_error (seq 1 (Z.to_nat n)) j) as [i|] eqn:E; [|discriminate].
  intros [= <-]. f_equal.
  assert (Hlt : nth_error (seq 1 (Z.to_nat n)) j <> None) by congruence.
  apply nth_error_Some in Hlt. rewrite length_seq in Hlt.
  apply (nth_error_nth _ _ 0%nat) in E. rewrite seq_nth in E; auto.
Qed.

(** C5 (as amended): the steps of the events written during a run never
    decrease in call order, for every number of epochs, log interval and
    number of batches, also when the run is cut short by an exception. *)
Theorem steps_non_decreasing (w : World) :
  loader_ok train_loader ->
  non_decreasing
    (steps (snd (main args train_loader test_loader get_default_conda_env w))).
Proof.
  intros Hok.
  set (L := Z.of_nat (loader_len train_loader)).
  set (J := fun w : World => non_decreasing (steps w)).
  set (I := fun (i : nat) => sorted_below (Z.of_nat i * L)).
  assert (HJ : reads_writer J).
  { intros w1 w2 Hw. unfold J, steps, events. now rewrite Hw. }
  assert (Hmono : forall i s, I i s -> I (S i) s).
  { intros i s. apply sorted_below_mono. nia. }
  assert (H : triple (fun _ => True)
                (main args train_loader test_loader get_default_conda_env)
                (fun _ => J) J).
  { unfold main.
    apply triple_bind with (Q := fun _ _ => True).
    { apply triple_for_each_modify
        with (f := fun kv w => set_run_params (run_params w ++ [kv]) w). }
    intros u1. apply triple_bind with (Q := fun _ => I 1%nat).
    { apply triple_modify. intros s _. split; simpl; constructor. }
    intros u2. apply triple_bind with (Q := fun _ => J).
    { eapply triple_consequence.
      - apply (@triple_for_each_indexed World Z I
                 (fun epoch => bind (train args train_loader epoch)
                                 (fun _ => test train_loader test_loader epoch))
                 (range1 (epochs args)) 1 Hmono).
        intros j e Hj. apply nth_error_range1 in Hj. subst e.
        apply triple_bind
          with (Q := fun _ => sorted_below ((Z.of_nat (1 + j) + 1) * L)).
        + eapply triple_consequence; [apply (train_sorted (Z.of_nat (1 + j)) Hok) | | |];
            unfold I; fold L; auto;
            intros; replace (Z.of_nat (S (1 + j))) with (Z.of_nat (1 + j) + 1)%Z by lia;
            auto.
        + intros u3.
          eapply triple_consequence; [apply (test_sorted (Z.of_nat (1 + j))) | | |];
            unfold I; fold L; auto;
            intros; replace (Z.of_nat (S (1 + j))) with (Z.of_nat (1 + j) + 1)%Z by lia;
            auto.
      - auto.
      - intros a s [Hs _]. exact Hs.
      - intros s [Hs _]. exact Hs. }
    intros u3. apply preserves_bind.
    { apply preserves_modify. intros s. now apply HJ. }
    intros u4. apply preserves_bind; [apply preserves_gets|]. intros scripted_model.
    apply preserves_bind.
    { apply preserves_modify. intros s. now apply HJ. }
    intros u5. apply preserves_bind; [apply preserves_lift|]. intros conda_env.
    apply preserves_modify. intros s. now apply HJ. }
  specialize (H w Logic.I).
  destruct (main args train_loader test_loader get_default_conda_env w)
    as [[e|u] w']; exact H.
Qed.

(** ** Evaluation feeds *)

Lemma rows_app (a b : list Batch) : rows (a ++ b) = (rows a + rows b)%nat.
Proof.
  unfold rows. induction a as [|x a IH]; simpl; auto. rewrite IH. lia.
Qed.

(** ** A run without epochs *)

(** C8: with [epochs = 0] the run takes no optimizer step, leaves the
    model as it was, writes no event and logs no metric, and still uploads
    the event directory and registers the scripted model with its wrapper
    and manifest, given that the default manifest accepts the merge. *)
Theorem zero_epochs_run (w : World) (conda_env' : Conda.pydict) :
  epochs args = 0%Z ->
  Conda.add_libraries_to_conda_env get_default_conda_env
    [Conda.PyStr "typing-extensions"; Conda.PyStr "Pillow"] [] = Ok conda_env' ->
  let r := main args train_loader test_loader get_default_conda_env w in
  fst r = Ok tt /\
  model (snd r) = model w /\
  grad (snd r) = grad w /\
  momentum_buffers (snd r) = momentum_buffers w /\
  optimizer_steps (snd r) = optimizer_steps w /\
  writer (snd r) = Some [] /\
  metrics (snd r) = metrics w /\
  run_artifacts (snd r) = run_artifacts w ++ [("events", [])] /\
  files (snd r) = store "scripted_model.pth" (model w) (files w) /\
  logged_models (snd r)
  = logged_models w ++ [{| artifact_path := "pytorch-model";
                           python_model := {| wrapper_model := None |};
                           artifacts := [("scripted_model", "scripted_model.pth")];
                           conda_env := conda_env' |}].
Proof.
  intros Hepochs Henv. unfold main, range1. rewrite Hepochs, Henv. simpl.
  repeat split.
Qed.

(** ** The first batch of an epoch *)









(** ** The inference wrapper *)

(** In evaluation mode the forward pass draws nothing from the generator
    and its result does not depend on it. *)
Lemma forward_eval_mode (self : Net) (x : Tensor) (g1 g2 : Generator) :
  training self = false ->
  fst (forward self x g1) = fst (forward self x g2) /\
  snd (forward self x g1) = g1.
Proof.
  intros Heval. unfold forward, Dropout2d, dropout. rewrite Heval.
  unfold bind, lift, ret. repeat step_result.
Qed.

Lemma load_context_ignores_self (fs : list (string * Net))
    (self self' : PytorchModelWrapper) (context : PythonModelContext) :
  load_context fs self context = load_context fs self' context.
Proof. reflexivity. Qed.

(** C7 (as amended): a wrapper whose loaded model is in evaluation mode
    returns the same labels for the same input batch, whatever the state of
    the random generator, also when the model is loaded again from the
    same file. *)
Theorem predict_deterministic_in_eval_mode
    (fs : list (string * Net)) (context : PythonModelContext)
    (self self' loaded loaded' : PytorchModelWrapper)
    (model_input : list string) (g g' : Generator) :
  load_context fs self context = Ok loaded ->
  load_context fs self' context = Ok loaded' ->
  (forall m, wrapper_model loaded = Some m -> training m = false) ->
  fst (predict loaded model_input g) = fst (predict loaded' model_input g').
Proof.
  intros Hl Hl' Heval.
  rewrite (load_context_ignores_self fs self self') in Hl.
  rewrite Hl in Hl'. injection Hl' as <-.
  unfold predict, bind, lift, raise.
  destruct (decode_rows model_input) as [e|arrays]; simpl; auto.
  destruct (stack_to_tensor arrays) as [e|t]; simpl; auto.
  destruct (wrapper_model loaded) as [m|] eqn:Hm; simpl; auto.
  destruct (forward_eval_mode m t g g' (Heval m eq_refl)) as [Hfst _].
  destruct (forward m t g) as [r1 s1], (forward m t g') as [r2 s2].
  simpl in Hfst. subst r2. destruct r1; simpl; auto.
Qed.

(** ** The mode of the saved model *)

(** On a single image the forward pass returns the all-zero row. *)
Lemma forward_single_row (self : Net) (x : Tensor) :
  triple (fun _ => True) (forward self x)
         (fun out _ => List.length out = 1%nat ->
                       exists row : list R, out = [map (fun _ => 0%R) row])
         (fun _ => True).
Proof.
  unfold forward.
  repeat (cbv zeta; apply triple_bind_true; intros ?).
  intros s _. unfold lift, F.log_softmax. simpl.
  match goal with |- context [F.log_softmax_dim0 ?z] => set (logits := z) end.
  intros Hlen. unfold F.log_softmax_dim0 in Hlen. rewrite length_map in Hlen.
  destruct logits as [|row [|]]; try discriminate.
  exists row. apply FFacts.log_softmax_dim0_single_row.
Qed.

Lemma lookup_store_same {A : Type} (k : string) (v : A) (d : list (string * A)) :
  lookup k (store k v d) = Some v.
Proof.
  induction d as [|[k' v'] d IH]; simpl.
  - now rewrite String.eqb_refl.
  - destruct (String.eqb k k') eqn:E; simpl; rewrite E; auto.
Qed.

Lemma range1_last (n : Z) :
  (1 <= n)%Z -> exists l, range1 n = l ++ [n].
Proof.
  intros Hn. unfold range1.
  destruct (Z.to_nat n) as [|k] eqn:E; [lia|].
  rewrite seq_S, map_app. simpl. exists (map Z.of_nat (seq 1 k)).
  do 2 f_equal. lia.
Qed.

(** After at least one epoch the module is in evaluation mode: the last
    thing an epoch does is [test]. *)
Lemma epochs_end_in_eval_mode :
  (1 <= epochs args)%Z ->
  triple (fun _ => True)
    (for_each (range1 (epochs args))
       (fun epoch => bind (train args train_loader epoch)
                          (fun _ => test train_loader test_loader epoch)))
    (fun _ w => training (model w) = false) (fun _ => True).
Proof.
  intros Hn. destruct (range1_last Hn) as [l ->].
  eapply triple_ext; [intros s; apply for_each_app|].
  apply triple_bind_true. intros u. cbn [for_each].
  apply triple_bind with (Q := fun _ w => training (model w) = false).
  - apply triple_bind_true. intros u'. intros w _.
    pose proof (test_sets_eval_mode (epochs args) w) as H.
    destruct (test train_loader test_loader (epochs args) w) as [[e|v] w'];
      simpl in *; auto.
  - intros u'. apply triple_ret with (Q := fun _ w => training (model w) = false).
Qed.

(** A run of at least one epoch saves the model in evaluation mode. *)
Lemma main_saves_eval_mode :
  (1 <= epochs args)%Z ->
  triple (fun _ => True)
    (main args train_loader test_loader get_default_conda_env)
    (fun _ w => exists m, lookup "scripted_model.pth" (files w) = Some m /\
                          training m = false)
    (fun _ => True).
Proof.
  intros Hn. unfold main.
  apply triple_bind_true. intros u1.
  apply triple_bind_true. intros u2.
  apply triple_bind with (Q := fun _ w => training (model w) = false).
  { now apply epochs_end_in_eval_mode. }
  intros u3.
  apply triple_bind with (Q := fun _ w => training (model w) = false).
  { apply triple_modify. intros w H. exact H. }
  intros u4. apply triple_bind_gets. intros scripted_model.
  apply triple_bind
    with (Q := fun _ w => exists m, lookup "scripted_model.pth" (files w) = Some m /\
                                    training m = false).
  { apply triple_modify. intros w [-> H]. exists (model w). split; [|exact H].
    apply lookup_store_same. }
  intros u5.
  apply triple_bind
    with (Q := fun _ w => exists m, lookup "scripted_model.pth" (files w) = Some m /\
                                    training m = false).
  { intros w H. unfold lift. destruct (Conda.add_libraries_to_conda_env _ _ _); auto. }
  intros conda_env. apply triple_modify. intros w H. exact H.
Qed.

End ScriptFacts.

Module DemoFacts.
Import Demo.
Import F.
Local Open Scope string_scope.
Local Open Scope list_scope.
Local Open Scope R_scope.

Lemma dot_zeros_l (n : nat) (v : list R) : dot (repeat 0 n) v = 0.
Proof.
  revert v; induction n as [|n IH]; intros [|b v]; simpl; auto.
  rewrite IH. lra.
Qed.

Lemma dot_zeros_r (n : nat) (u : list R) : dot u (repeat 0 n) = 0.
Proof.
  revert u; induction n as [|n IH]; intros [|a u]; simpl; auto.
  rewrite IH. lra.
Qed.

Lemma map2_repeat {A B C : Type} (f : A -> B -> C) (a : A) (b : B) (n : nat) :
  map2 f (repeat a n) (repeat b n) = repeat (f a b) n.
Proof. induction n as [|n IH]; simpl; auto. now rewrite IH. Qed.

(** The hidden layer of the demo network is the vector of ones. *)
Lemma demo_hidden (n : nat) :
  relu (linear (repeat (repeat 0 320) n) (fc1_weight demo_params)
               (fc1_bias demo_params))
  = repeat (repeat 1 50) n.
Proof.
  unfold relu, linear. rewrite !map_repeat. f_equal.
  change (fc1_weight demo_params) with (repeat (repeat 0 320) 50).
  change (fc1_bias demo_params) with (repeat 1 50).
  rewrite map_repeat, map2_repeat, map_repeat. f_equal.
  rewrite dot_zeros_l. rewrite Rmax_right; lra.
Qed.

Lemma demo_output_layer (h : R) :
  linear [h :: repeat 0 49; repeat 0 50]
         (fc2_weight demo_params) (fc2_bias demo_params)
  = demo_logits h.
Proof.
  unfold linear, demo_logits.
  change (fc2_weight demo_params)
    with [repeat 0 50; 1 :: repeat 0 49; repeat 0 50; repeat 0 50; repeat 0 50;
          repeat 0 50; repeat 0 50; repeat 0 50; repeat 0 50; repeat 0 50].
  change (fc2_bias demo_params) with [0; 0; 0; 0; 0; 0; 0; 0; 0; 0].
  cbn [map map2].
  rewrite !dot_zeros_r.
  change (dot (h :: repeat 0 49) (1 :: repeat 0 49))
    with (h * 1 + dot (repeat 0 49) (repeat 0 49)).
  change (dot (repeat 0 50) (1 :: repeat 0 49))
    with (0 * 1 + dot (repeat 0 49) (repeat 0 49)).
  rewrite !dot_zeros_r.
  repeat (f_equal; try lra).
Qed.

Lemma forward_train_mode_kept :
  @forward zero_ops train_mode_net 2%nat [true]
  = (Ok (log_softmax_dim0 (demo_logits (1 * 2))), []).
Proof.
  transitivity
    (let (r, s') :=
       @dropout_rows zero_ops
         (relu (linear (repeat (repeat 0 320) 2) (fc1_weight demo_params)
                       (fc1_bias demo_params))) [true] in
     match r with
     | inl e => (inl e, s')
     | inr a =>
         (log_softmax (linear a (fc2_weight demo_params) (fc2_bias demo_params)) 0,
          s')
     end).
  { reflexivity. }
  rewrite demo_hidden.
  change (@dropout_rows zero_ops (repeat (repeat 1 50) 2) [true])
    with (Ok [1 * 2 :: repeat 0 49; repeat 0 50], @nil bool).
  unfold Ok. cbv beta iota. rewrite demo_output_layer. reflexivity.
Qed.

Lemma forward_train_mode_dropped :
  @forward zero_ops train_mode_net 2%nat []
  = (Ok (log_softmax_dim0 (demo_logits 0)), []).
Proof.
  transitivity
    (let (r, s') :=
       @dropout_rows zero_ops
         (relu (linear (repeat (repeat 0 320) 2) (fc1_weight demo_params)
                       (fc1_bias demo_params))) [] in
     match r with
     | inl e => (inl e, s')
     | inr a =>
         (log_softmax (linear a (fc2_weight demo_params) (fc2_bias demo_params)) 0,
          s')
     end).
  { reflexivity. }
  rewrite demo_hidden.
  change (@dropout_rows zero_ops (repeat (repeat 1 50) 2) [])
    with (Ok [0 :: repeat 0 49; repeat 0 50], @nil bool).
  unfold Ok. cbv beta iota. rewrite demo_output_layer. reflexivity.
Qed.

Lemma argmax_from_no_better (best_i i : nat) (best : R) (l : list R) :
  (forall v, In v l -> ~ best < v) -> argmax_from best_i best i l = best_i.
Proof.
  revert i; induction l as [|v l IH]; intros i H; simpl; auto.
  destruct (Rlt_dec best v) as [Hlt|_].
  - exfalso. apply (H v); [now left | exact Hlt].
  - apply IH. intros v' Hv'. apply H. now right.
Qed.

Lemma argmax_from_better (best_i i : nat) (best v : R) (l : list R) :
  best < v -> argmax_from best_i best i (v :: l) = argmax_from i v (S i) l.
Proof. intros H. simpl. destruct (Rlt_dec best v); [reflexivity | contradiction]. Qed.

Lemma exp_gt_1 (h : R) : 0 < h -> 1 < exp h.
Proof. intros H. rewrite <- exp_0. now apply exp_increasing. Qed.

(** With a positive logit for class 1 in the first row the labels are
    1 and 0; with all logits equal they are 0 and 0. *)
Lemma demo_labels_kept (h : R) :
  0 < h -> max_dim1 (log_softmax_dim0 (demo_logits h)) = Ok [1%nat; 0%nat].
Proof.
  intros Hh. pose proof (exp_gt_1 Hh) as He. pose proof (exp_pos h) as Hp.
  unfold log_softmax_dim0, demo_logits. cbn [map sum_rows map2].
  rewrite exp_0.
  assert (Hab : 0 - ln (1 + 1) < h - ln (exp h + 1)).
  { assert (ln (exp h + 1) < ln ((1 + 1) * exp h)) by (apply ln_increasing; lra).
    rewrite ln_mult, ln_exp in H by lra. lra. }
  assert (Hca : 0 - ln (exp h + 1) < 0 - ln (1 + 1)).
  { assert (ln (1 + 1) < ln (exp h + 1)) by (apply ln_increasing; lra). lra. }
  set (a := 0 - ln (1 + 1)) in *. set (b := h - ln (exp h + 1)) in *.
  set (c := 0 - ln (exp h + 1)) in *.
  unfold max_dim1, argmax, rbind, Ok.
  rewrite (argmax_from_better 0 1 _ Hab).
  rewrite !argmax_from_no_better
    by (intros v Hv; simpl in Hv; intuition (subst; lra)).
  reflexivity.
Qed.

Lemma demo_labels_dropped :
  max_dim1 (log_softmax_dim0 (demo_logits 0)) = Ok [0%nat; 0%nat].
Proof.
  unfold log_softmax_dim0, demo_logits. cbn [map sum_rows map2].
  set (a := 0 - ln (exp 0 + exp 0)).
  unfold max_dim1, argmax, rbind, Ok.
  rewrite !argmax_from_no_better
    by (intros v Hv; simpl in Hv; intuition (subst; lra)).
  reflexivity.
Qed.

(** ** The run, the evaluation and the wrapper on the concrete backend *)

Lemma one_image_loader_ok : @loader_ok zero_ops one_image_loader.
Proof. intros g. split; reflexivity. Qed.

(** C1, counterexample: after [log_scalar("train_loss", 0, 5)] the writer
    holds the triple with step 5, the tracking client a metric without
    step: the two sinks did not receive the same triple. *)
Lemma log_scalar_remote_step_missing :
  ~ @same_event_at_both_sinks zero_ops "train_loss" 0 5
      (snd (@log_scalar zero_ops "train_loss" 0 5 demo_world)).
Proof.
  intros [_ (m & Hlast & _ & _ & Hstep)].
  simpl in Hlast. injection Hlast as <-. discriminate Hstep.
Qed.

Lemma log_scalar_two_sinks_witness :
  fst (@log_scalar zero_ops "train_loss" 0 5 demo_world) = Ok tt /\
  writer (snd (@log_scalar zero_ops "train_loss" 0 5 demo_world))
  = Some ([] ++ [Scalar "train_loss" 0 5]) /\
  metrics (snd (@log_scalar zero_ops "train_loss" 0 5 demo_world))
  = metrics demo_world ++ [{| metric_key := "train_loss"; metric_value := 0;
                              metric_step := None |}].
Proof.
  apply (@log_scalar_two_sinks zero_ops "train_loss" 0 5 demo_world []).
  reflexivity.
Defined.

(** The run of one epoch over one batch writes a loss and the histograms
    at step 1, then the two evaluation metrics at step 2. *)
Lemma demo_run_steps :
  fst demo_run = Ok tt /\
  @steps zero_ops (snd demo_run) = [1; 1; 1; 1; 1; 1; 1; 1; 1; 2; 2]%Z /\
  @scalar_steps zero_ops (snd demo_run) = [1; 2; 2]%Z.
Proof. lazy. repeat split. Qed.

(** C5, counterexample: in that run [test_loss] and [test_accuracy] carry
    the same step, so the steps are not strictly increasing, whether the
    histograms are counted or not. *)
Lemma steps_not_strictly_increasing :
  ~ strictly_increasing (@scalar_steps zero_ops (snd demo_run)) /\
  ~ strictly_increasing (@steps zero_ops (snd demo_run)).
Proof.
  destruct demo_run_steps as (_ & -> & ->).
  split; simpl; intros H; decompose [and] H; lia.
Qed.

Lemma steps_non_decreasing_witness :
  non_decreasing (@steps zero_ops (snd demo_run)).
Proof.
  apply (@steps_non_decreasing zero_ops demo_args one_image_loader
           one_image_loader demo_conda_env demo_world).
  intros g. split; reflexivity.
Defined.

(** C7, counterexample: a wrapper that loads a model saved in training
    mode labels the same two images [1; 0] on a first call and [0; 0] on
    the next one, the dropout mask having changed in between. *)
Lemma predict_train_mode_differs :
  @load_context zero_ops train_mode_files unloaded_wrapper demo_context
  = Ok train_mode_wrapper /\
  fst (@predict zero_ops train_mode_wrapper two_images [true]) = Ok [1%nat; 0%nat] /\
  fst (@predict zero_ops train_mode_wrapper two_images
         (snd (@predict zero_ops train_mode_wrapper two_images [true])))
  = Ok [0%nat; 0%nat] /\
  fst (@predict zero_ops train_mode_wrapper two_images [true])
  <> fst (@predict zero_ops train_mode_wrapper two_images
            (snd (@predict zero_ops train_mode_wrapper two_images [true]))).
Proof.
  assert (H1 : @predict zero_ops train_mode_wrapper two_images [true]
               = (Ok [1%nat; 0%nat], [])).
  { transitivity
      (match @forward zero_ops train_mode_net 2%nat [true] with
       | (inl e, s') => (inl e, s')
       | (inr a, s') => (max_dim1 a, s')
       end); [reflexivity|].
    rewrite forward_train_mode_kept. unfold Ok. cbv beta iota.
    rewrite demo_labels_kept by lra. reflexivity. }
  assert (H2 : @predict zero_ops train_mode_wrapper two_images []
               = (Ok [0%nat; 0%nat], [])).
  { transitivity
      (match @forward zero_ops train_mode_net 2%nat [] with
       | (inl e, s') => (inl e, s')
       | (inr a, s') => (max_dim1 a, s')
       end); [reflexivity|].
    rewrite forward_train_mode_dropped. unfold Ok. cbv beta iota.
    rewrite demo_labels_dropped. reflexivity. }
  rewrite H1. cbn [fst snd]. rewrite H2. cbn [fst].
  repeat split. discriminate.
Qed.

Lemma predict_deterministic_in_eval_mode_witness :
  fst (@predict zero_ops eval_mode_wrapper two_images [true])
  = fst (@predict zero_ops eval_mode_wrapper two_images []).
Proof.
  apply (@predict_deterministic_in_eval_mode zero_ops eval_mode_files
           demo_context unloaded_wrapper unloaded_wrapper
           eval_mode_wrapper eval_mode_wrapper two_images [true] []).
  - reflexivity.
  - reflexivity.
  - intros m H. injection H as <-. reflexivity.
Defined.

Lemma zero_epochs_run_witness :
  let r := @main zero_ops zero_epoch_args one_image_loader one_image_loader
             demo_conda_env demo_world in
  fst r = Ok tt /\
  model (snd r) = model demo_world /\
  grad (snd r) = grad demo_world /\
  momentum_buffers (snd r) = momentum_buffers demo_world /\
  optimizer_steps (snd r) = optimizer_steps demo_world /\
  writer (snd r) = Some [] /\
  metrics (snd r) = metrics demo_world /\
  run_artifacts (snd r) = run_artifacts demo_world ++ [("events", [])] /\
  files (snd r) = store "scripted_model.pth" (model demo_world) (files demo_world) /\
  logged_models (snd r)
  = logged_models demo_world
    ++ [{| artifact_path := "pytorch-model";
           python_model := {| wrapper_model := None |};
           artifacts := [("scripted_model", "scripted_model.pth")];
           conda_env := merged_conda_env |}].
Proof.
  apply (@zero_epochs_run zero_ops zero_epoch_args one_image_loader
           one_image_loader demo_conda_env demo_world merged_conda_env);
    reflexivity.
Defined.

(** On the demo feed the pass does not raise: both metrics are written. *)
Lemma demo_test_succeeds :
  fst (@test zero_ops one_image_loader one_image_loader 1 demo_world) = Ok tt.
Proof. lazy. reflexivity. Qed.


End DemoFacts.

(** * More on the manifest utility *)

Module CondaMore.

Import Conda.
Import CondaFacts.
Local Open Scope string_scope.

Lemma dict_set_same_value (k : string) (v : pyval) (d : pydict) :
  dict_get k d = Some v -> dict_set k v d = d.
Proof.
  induction d as [|[k' v'] d IH]; simpl; [discriminate|].
  destruct (String.eqb k k') eqn:E.
  - intros [= ->]. reflexivity.
  - intros H. now rewrite IH.
Qed.

Lemma dict_set_twice (k : string) (v v' : pyval) (d : pydict) :
  dict_set k v (dict_set k v' d) = dict_set k v d.
Proof.
  induction d as [|[k' v0] d IH]; simpl.
  - now rewrite String.eqb_refl.
  - destruct (String.eqb k k') eqn:E; simpl; rewrite E; [reflexivity|].
    now rewrite IH.
Qed.

Lemma list_set_same_value {A : Type} (i : nat) (x : A) (l : list A) :
  nth_error l i = Some x -> list_set i x l = l.
Proof.
  revert i; induction l as [|y l IH]; intros [|i]; simpl; try discriminate.
  - intros [= ->]. reflexivity.
  - intros H. now rewrite IH.
Qed.

Lemma list_set_twice {A : Type} (i : nat) (x y : A) (l : list A) :
  list_set i x (list_set i y l) = list_set i x l.
Proof.
  revert i; induction l as [|z l IH]; intros [|i]; simpl; auto.
  now rewrite IH.
Qed.

(** What a successful merge was given and what it returns. *)
Lemma add_libraries_ok_inv
    (env env' : pydict) (libraries conda_dependencies : list pyval) :
  add_libraries_to_conda_env env libraries conda_dependencies = Ok env' ->
  exists deps i entry l,
    dict_get "dependencies" env = Some (PyList deps) /\
    find_pip_index (deps ++ conda_dependencies) = Some i /\
    nth_error (deps ++ conda_dependencies) i = Some (PyDict entry) /\
    dict_get "pip" entry = Some (PyList l) /\
    env' = dict_set "dependencies"
             (PyList (list_set i
                        (PyDict (dict_set "pip" (PyList (l ++ libraries)) entry))
                        (deps ++ conda_dependencies)))
             env.
Proof.
  unfold add_libraries_to_conda_env.
  destruct (dict_get "dependencies" env) as [[| s | deps | d]|] eqn:Hd;
    simpl; try discriminate.
  destruct (find_pip_index (deps ++ conda_dependencies)) as [i|] eqn:Hf;
    [|discriminate].
  destruct (nth_error (deps ++ conda_dependencies) i) as [[| s | l0 | entry]|] eqn:Hn;
    try discriminate.
  destruct (dict_get "pip" entry) as [[| s | l | d]|] eqn:Hp; simpl;
    try discriminate.
  intros [= <-]. exists deps, i, entry, l. auto.
Qed.

Lemma add_libraries_ok
    (env : pydict) (deps libraries conda_dependencies : list pyval)
    (i : nat) (entry : pydict) (l : list pyval) :
  dict_get "dependencies" env = Some (PyList deps) ->
  find_pip_index (deps ++ conda_dependencies) = Some i ->
  nth_error (deps ++ conda_dependencies) i = Some (PyDict entry) ->
  dict_get "pip" entry = Some (PyList l) ->
  add_libraries_to_conda_env env libraries conda_dependencies
  = Ok (dict_set "dependencies"
          (PyList (list_set i
                     (PyDict (dict_set "pip" (PyList (l ++ libraries)) entry))
                     (deps ++ conda_dependencies)))
          env).
Proof.
  intros Hd Hf Hn Hp. unfold add_libraries_to_conda_env.
  rewrite Hd. simpl. rewrite Hf, Hn, Hp. reflexivity.
Qed.

(** The merge returns a manifest exactly when the dependencies are a list,
    one of its elements (or of [conda_dependencies]) is a dict with the key
    ["pip"], and the first such dict holds a list under that key; in every
    other case it raises. *)
Theorem add_libraries_succeeds_iff
    (env : pydict) (libraries conda_dependencies : list pyval) :
  (exists env', add_libraries_to_conda_env env libraries conda_dependencies
                = Ok env')
  <->
  (exists deps i entry l,
     dict_get "dependencies" env = Some (PyList deps) /\
     find_pip_index (deps ++ conda_dependencies) = Some i /\
     nth_error (deps ++ conda_dependencies) i = Some (PyDict entry) /\
     dict_get "pip" entry = Some (PyList l)).
Proof.
  split.
  - intros [env' H]. apply add_libraries_ok_inv in H.
    destruct H as (deps & i & entry & l & H1 & H2 & H3 & H4 & _).
    exists deps, i, entry, l. auto.
  - intros (deps & i & entry & l & H1 & H2 & H3 & H4).
    eexists. eapply add_libraries_ok; eauto.
Qed.

(** Merging no library and no dependency into a manifest that accepts the
    merge returns the manifest as it was. *)
Theorem add_nothing_is_identity (env env' : pydict) :
  add_libraries_to_conda_env env [] [] = Ok env' -> env' = env.
Proof.
  intros H. apply add_libraries_ok_inv in H.
  destruct H as (deps & i & entry & l & Hd & Hf & Hn & Hp & ->).
  rewrite !app_nil_r in *.
  rewrite (dict_set_same_value "pip" entry Hp).
  rewrite (list_set_same_value i deps Hn).
  now apply dict_set_same_value.
Qed.

Lemma add_nothing_is_identity_witness :
  add_libraries_to_conda_env Demo.demo_conda_env [] [] = Ok Demo.demo_conda_env /\
  Demo.demo_conda_env = Demo.demo_conda_env.
Proof.
  split; [reflexivity|].
  apply (@add_nothing_is_identity Demo.demo_conda_env Demo.demo_conda_env).
  reflexivity.
Defined.

(** Two merges in a row add up: merging [l1] and then [l2] gives what
    merging [l1 ++ l2] gives. *)
Theorem add_libraries_twice (env env1 : pydict) (l1 l2 : list pyval) :
  add_libraries_to_conda_env env l1 [] = Ok env1 ->
  add_libraries_to_conda_env env1 l2 []
  = add_libraries_to_conda_env env (l1 ++ l2) [].
Proof.
  intros H. apply add_libraries_ok_inv in H.
  destruct H as (deps & i & entry & l & Hd & Hf & Hn & Hp & ->).
  rewrite (add_libraries_ok env (l1 ++ l2) [] Hd Hf Hn Hp).
  rewrite !app_nil_r in *.
  set (entry1 := dict_set "pip" (PyList (l ++ l1)) entry).
  set (deps1 := list_set i (PyDict entry1) deps).
  assert (Hm : dict_mem "pip" entry1 = true)
    by (unfold entry1, dict_mem; now rewrite dict_get_set_same).
  assert (Hf1 : find_pip_index (deps1 ++ []) = Some i).
  { rewrite app_nil_r. unfold find_pip_index in *.
    apply (@find_pip_index_from_set deps 0 i entry entry1); auto. }
  assert (Hn1 : nth_error (deps1 ++ []) i = Some (PyDict entry1)).
  { rewrite app_nil_r. unfold deps1. eapply nth_error_list_set_same; eauto. }
  rewrite (@add_libraries_ok (dict_set "dependencies" (PyList deps1) env)
             deps1 l2 [] i entry1 (l ++ l1)
             (dict_get_set_same _ _ _) Hf1 Hn1 (dict_get_set_same _ _ _)).
  rewrite app_nil_r. unfold entry1, deps1.
  now rewrite dict_set_twice, list_set_twice, dict_set_twice, app_assoc.
Qed.

Lemma add_libraries_twice_witness :
  add_libraries_to_conda_env Demo.merged_conda_env [PyStr "numpy"] []
  = add_libraries_to_conda_env Demo.demo_conda_env
      ([PyStr "typing-extensions"; PyStr "Pillow"] ++ [PyStr "numpy"]) [].
Proof.
  apply (@add_libraries_twice Demo.demo_conda_env Demo.merged_conda_env
           [PyStr "typing-extensions"; PyStr "Pillow"] [PyStr "numpy"]).
  reflexivity.
Defined.

End CondaMore.

(** * The manifest utility on shared objects *)

Module CondaHeapFacts.

Import CondaHeap.
Local Open Scope string_scope.
Local Open Scope list_scope.

Lemma lookup_store_other {A : Type} (k k0 : string) (v : A)
    (d : list (string * A)) :
  k0 <> k -> lookup k0 (store k v d) = lookup k0 d.
Proof.
  intros Hne. induction d as [|[k' v'] d IH]; simpl.
  - destruct (String.eqb k0 k) eqn:E; auto.
    apply String.eqb_eq in E. contradiction.
  - destruct (String.eqb k k') eqn:E; simpl.
    + apply String.eqb_eq in E. subst k'.
      destruct (String.eqb k0 k) eqn:E0; auto.
      apply String.eqb_eq in E0. contradiction.
    + now rewrite IH.
Qed.

(** Assigning to a key that is present keeps the keys and their order. *)
Lemma store_keys {A : Type} (k : string) (v v0 : A) (d : list (string * A)) :
  lookup k d = Some v0 -> map fst (store k v d) = map fst d.
Proof.
  induction d as [|[k' v'] d IH]; simpl; [discriminate|].
  destruct (String.eqb k k') eqn:E; simpl; intros H; auto.
  now rewrite IH.
Qed.

Lemma store_same_value {A : Type} (k : string) (v : A) (d : list (string * A)) :
  lookup k d = Some v -> store k v d = d.
Proof.
  induction d as [|[k' v'] d IH]; simpl; [discriminate|].
  destruct (String.eqb k k') eqn:E.
  - intros [= ->]. reflexivity.
  - intros H. now rewrite IH.
Qed.

Lemma update_same (a : nat) (d : dict) (h : heap) : update a d h a = d.
Proof. unfold update. now rewrite Nat.eqb_refl. Qed.

Lemma update_other (a b : nat) (d : dict) (h : heap) :
  b <> a -> update a d h b = h b.
Proof.
  intros H. unfold update. apply Nat.eqb_neq in H. now rewrite H.
Qed.

(** ** Reading a value off the heap *)

Lemma traverse_ext {A B : Type} (f g : A -> option B) (l : list A) :
  (forall x, In x l -> f x = g x) -> traverse f l = traverse g l.
Proof.
  induction l as [|x l IH]; intros H; simpl; [reflexivity|].
  rewrite (H x (or_introl eq_refl)), IH; [reflexivity|].
  intros y Hy. apply H. now right.
Qed.

(** A value shows the same in two heaps that agree on the objects it
    holds. *)
Lemma read_frame (h h' : heap) (n : nat) (v : val) :
  (forall a, reaches h v a -> h' a = h a) -> read n h' v = read n h v.
Proof.
  revert v. induction n as [|n IH]; intros v H; [reflexivity|].
  destruct v as [| s | l | b]; simpl; try reflexivity.
  - f_equal. apply traverse_ext. intros x Hx. apply IH.
    intros a Ha. apply H. now apply reaches_item with x.
  - rewrite (H b (reaches_ref h b)). f_equal. apply traverse_ext.
    intros [k x] Hx. simpl. f_equal. apply IH.
    intros a Ha. apply H. now apply reaches_value with k x.
Qed.

(** ** The heap after the merge *)

Section InPlace.

Variable h : heap.
Variables env entry : nat.
Variables deps l libraries : list val.
Variable old : val.

Hypothesis env_dependencies : lookup "dependencies" (h env) = Some old.
Hypothesis entry_pip : lookup "pip" (h entry) = Some (VList l).

(** The heap after the two assignments of the function. *)
Local Notation "'h1'" :=
  (update entry (store "pip" (VList (l ++ libraries)) (h entry)) h).
Local Notation "'h2'" :=
  (update env (store "dependencies" (VList deps) (h1 env)) h1).

Lemma h1_dependencies : lookup "dependencies" (h1 env) = Some old.
Proof.
  destruct (Nat.eq_dec env entry) as [->|Hne].
  - rewrite update_same, lookup_store_other by discriminate.
    exact env_dependencies.
  - rewrite update_other by exact Hne. exact env_dependencies.
Qed.

Lemma merged_dependencies : lookup "dependencies" (h2 env) = Some (VList deps).
Proof. rewrite update_same. apply lookup_store_same. Qed.

Lemma merged_pip : lookup "pip" (h2 entry) = Some (VList (l ++ libraries)).
Proof.
  destruct (Nat.eq_dec entry env) as [->|Hne].
  - rewrite !update_same, lookup_store_other by discriminate.
    apply lookup_store_same.
  - rewrite update_other by exact Hne. rewrite update_same.
    apply lookup_store_same.
Qed.

Lemma merged_other (a : nat) : a <> env -> a <> entry -> h2 a = h a.
Proof. intros H1 H2. now rewrite !update_other. Qed.

Lemma merged_keys (a : nat) : map fst (h2 a) = map fst (h a).
Proof.
  assert (H1 : map fst (h1 a) = map fst (h a)).
  { destruct (Nat.eq_dec a entry) as [->|Hne].
    - rewrite update_same. eapply store_keys. exact entry_pip.
    - now rewrite update_other. }
  destruct (Nat.eq_dec a env) as [->|Hne].
  - rewrite update_same. rewrite <- H1. eapply store_keys. exact h1_dependencies.
  - rewrite update_other by exact Hne. exact H1.
Qed.

Lemma merged_slots (a : nat) (k : string) :
  k <> "pip" -> k <> "dependencies" -> lookup k (h2 a) = lookup k (h a).
Proof.
  intros Hp Hd.
  assert (H1 : lookup k (h1 a) = lookup k (h a)).
  { destruct (Nat.eq_dec a entry) as [->|Hne].
    - rewrite update_same. now apply lookup_store_other.
    - now rewrite update_other. }
  destruct (Nat.eq_dec a env) as [->|Hne].
  - rewrite update_same, lookup_store_other by exact Hd. exact H1.
  - rewrite update_other by exact Hne. exact H1.
Qed.

Lemma merged_entry_slots (k : string) :
  env <> entry -> k <> "pip" -> lookup k (h2 entry) = lookup k (h entry).
Proof.
  intros Hne Hk. rewrite update_other by congruence.
  rewrite update_same. now apply lookup_store_other.
Qed.

Lemma merged_env_slots (k : string) :
  env <> entry -> k <> "dependencies" -> lookup k (h2 env) = lookup k (h env).
Proof.
  intros Hne Hk. rewrite update_same, lookup_store_other by exact Hk.
  now rewrite update_other.
Qed.

(** The objects that carry the key ["pip"] are the same as before. *)
Lemma merged_is_pip_entry (v : val) : is_pip_entry h2 v = is_pip_entry h v.
Proof.
  destruct v as [| s | l0 | a]; try reflexivity. simpl.
  assert (H1 : match lookup "pip" (h1 a) with Some _ => true | None => false end
               = match lookup "pip" (h a) with Some _ => true | None => false end).
  { destruct (Nat.eq_dec a entry) as [->|Hne].
    - now rewrite update_same, lookup_store_same, entry_pip.
    - now rewrite update_other. }
  destruct (Nat.eq_dec a env) as [->|Hne].
  - rewrite update_same, lookup_store_other by discriminate. exact H1.
  - rewrite update_other by exact Hne. exact H1.
Qed.

Lemma merged_find_pip_index (ds : list val) (i0 : nat) :
  find_pip_index_from h2 i0 ds = find_pip_index_from h i0 ds.
Proof.
  revert i0. induction ds as [|e ds IH]; intros i0; simpl; [reflexivity|].
  now rewrite merged_is_pip_entry, IH.
Qed.

(** A value that holds neither the manifest nor the entry shows as
    before. *)
Lemma merged_same_value (v : val) :
  ~ reaches h v env -> ~ reaches h v entry -> same_value h h2 v.
Proof.
  intros He Hp n. apply read_frame. intros a Ha. apply merged_other.
  - intros ->. exact (He Ha).
  - intros ->. exact (Hp Ha).
Qed.

(** When the manifest is handed back the list it had, the entry is the
    only object that changed. *)
Lemma merged_only_entry (a : nat) :
  old = VList deps -> a <> entry -> h2 a = h a.
Proof.
  intros -> Hne.
  destruct (Nat.eq_dec a env) as [->|Hne'].
  - rewrite update_same, update_other by exact Hne.
    apply store_same_value. exact env_dependencies.
  - now rewrite !update_other.
Qed.

End InPlace.

(** What the function returns and the heap it leaves, when the manifest
    has a list of dependencies whose first pip entry holds a list. *)
Lemma add_libraries_run (h : heap) (env : nat)
    (deps libraries conda_dependencies : list val) (i entry : nat)
    (l : list val) :
  lookup "dependencies" (h env) = Some (VList deps) ->
  find_pip_index h (deps ++ conda_dependencies) = Some i ->
  nth_error (deps ++ conda_dependencies) i = Some (VRef entry) ->
  lookup "pip" (h entry) = Some (VList l) ->
  add_libraries_to_conda_env env libraries conda_dependencies h
  = (Ok env,
     update env
       (store "dependencies" (VList (deps ++ conda_dependencies))
          (update entry (store "pip" (VList (l ++ libraries)) (h entry)) h env))
       (update entry (store "pip" (VList (l ++ libraries)) (h entry)) h)).
Proof.
  intros Hd Hf Hn Hp.
  unfold add_libraries_to_conda_env, bind, getitem, lift, gets, setitem,
    modify, ret.
  rewrite Hd. simpl. rewrite Hf, Hn. simpl. rewrite Hp. reflexivity.
Qed.

(** C4 (as amended): adding [["Pillow"]] to a manifest whose first pip
    entry holds [["mlflow"]] returns the manifest object it was given; the
    entry then holds [["mlflow"; "Pillow"]] under ["pip"].  The manifest
    lists the same dependencies, every dict keeps its keys in their order,
    the entry is the only object that changed and ["pip"] its only key that
    did: so every value that does not hold the entry's dict object - the
    other keys of the manifest, the other elements of the list - shows as
    before. *)
Theorem add_pillow_in_place (h : heap) (env : nat) (deps : list val)
    (i entry : nat) :
  lookup "dependencies" (h env) = Some (VList deps) ->
  find_pip_index h deps = Some i ->
  nth_error deps i = Some (VRef entry) ->
  lookup "pip" (h entry) = Some (VList [VStr "mlflow"]) ->
  exists h',
    add_libraries_to_conda_env env [VStr "Pillow"] [] h = (Ok env, h') /\
    lookup "pip" (h' entry) = Some (VList [VStr "mlflow"; VStr "Pillow"]) /\
    lookup "dependencies" (h' env) = Some (VList deps) /\
    find_pip_index h' deps = Some i /\
    (forall a, map fst (h' a) = map fst (h a)) /\
    (forall a, a <> entry -> h' a = h a) /\
    (forall k, k <> "pip" -> lookup k (h' entry) = lookup k (h entry)) /\
    (forall v, ~ reaches h v entry -> same_value h h' v).
Proof.
  intros Hd Hf Hn Hp.
  assert (Hf' : find_pip_index h (deps ++ []) = Some i)
    by now rewrite app_nil_r.
  assert (Hn' : nth_error (deps ++ []) i = Some (VRef entry))
    by now rewrite app_nil_r.
  eexists. split; [exact (@add_libraries_run h env deps [VStr "Pillow"] [] i entry
                             [VStr "mlflow"] Hd Hf' Hn' Hp)|].
  rewrite app_nil_r.
  pose proof (@merged_only_entry h env entry deps [VStr "mlflow"] [VStr "Pillow"]
                (VList deps) Hd) as Hframe.
  split; [exact (@merged_pip h env entry deps [VStr "mlflow"] [VStr "Pillow"] Hp)|].
  split; [exact (@merged_dependencies h env entry deps [VStr "mlflow"]
                   [VStr "Pillow"])|].
  split; [unfold find_pip_index in *;
          now rewrite (@merged_find_pip_index h env entry deps [VStr "mlflow"]
                         [VStr "Pillow"] Hp)|].
  split; [exact (@merged_keys h env entry deps [VStr "mlflow"] [VStr "Pillow"]
                   (VList deps) Hd Hp)|].
  split; [intros a Ha; now apply Hframe|].
  split.
  - intros k Hk. destruct (Nat.eq_dec env entry) as [->|Hne].
    + destruct (String.eqb k "dependencies") eqn:Ek.
      * apply String.eqb_eq in Ek. subst k.
        rewrite (@merged_dependencies h entry entry deps [VStr "mlflow"]
                   [VStr "Pillow"]).
        now rewrite Hd.
      * apply String.eqb_neq in Ek.
        now apply (@merged_slots h entry entry deps [VStr "mlflow"]
                     [VStr "Pillow"]).
    + now apply (@merged_entry_slots h env entry deps [VStr "mlflow"]
                   [VStr "Pillow"]).
  - intros v Hv n. apply read_frame. intros a Ha. apply Hframe; [reflexivity|].
    intros ->. exact (Hv Ha).
Qed.

Lemma add_pillow_in_place_witness :
  exists h',
    add_libraries_to_conda_env 0 [VStr "Pillow"] [] Demo.demo_heap = (Ok 0%nat, h') /\
    lookup "pip" (h' 1%nat) = Some (VList [VStr "mlflow"; VStr "Pillow"]) /\
    lookup "dependencies" (h' 0%nat)
    = Some (VList [VStr "python=3.8"; VStr "pip"; VRef 1]) /\
    find_pip_index h' [VStr "python=3.8"; VStr "pip"; VRef 1] = Some 2%nat /\
    (forall a, map fst (h' a) = map fst (Demo.demo_heap a)) /\
    (forall a, a <> 1%nat -> h' a = Demo.demo_heap a) /\
    (forall k, k <> "pip" -> lookup k (h' 1%nat) = lookup k (Demo.demo_heap 1%nat)) /\
    (forall v, ~ reaches Demo.demo_heap v 1 -> same_value Demo.demo_heap h' v).
Proof.
  apply (@add_pillow_in_place Demo.demo_heap 0
           [VStr "python=3.8"; VStr "pip"; VRef 1] 2 1); reflexivity.
Defined.

(** C4, counterexample: in a manifest whose dependencies hold the pip
    entry's dict object a second time, at index 2, the merge changes what
    that element shows as well: it is not true that every element but the
    first pip entry is unchanged. *)
Lemma shared_entry_changes :
  ~ other_elements_unchanged Demo.shared_heap
      (snd (add_libraries_to_conda_env 0 [VStr "Pillow"] [] Demo.shared_heap))
      Demo.shared_dependencies 1.
Proof.
  intros H.
  specialize (H 2%nat (VRef 1) ltac:(discriminate) eq_refl 3%nat).
  vm_compute in H. discriminate H.
Qed.

(** For every list of libraries and of extra conda dependencies the
    function returns the manifest object it was given, now listing the old
    dependencies followed by [conda_dependencies], with the first pip entry
    holding its old list followed by [libraries].  Every dict keeps its
    keys in their order, no object but the manifest and the entry changed
    and in those only the keys ["dependencies"] and ["pip"]: so every value
    that holds neither of the two objects shows as before. *)
Theorem add_libraries_in_place (h : heap) (env : nat)
    (deps libraries conda_dependencies : list val) (i entry : nat)
    (l : list val) :
  lookup "dependencies" (h env) = Some (VList deps) ->
  find_pip_index h (deps ++ conda_dependencies) = Some i ->
  nth_error (deps ++ conda_dependencies) i = Some (VRef entry) ->
  lookup "pip" (h entry) = Some (VList l) ->
  exists h',
    add_libraries_to_conda_env env libraries conda_dependencies h
    = (Ok env, h') /\
    lookup "dependencies" (h' env) = Some (VList (deps ++ conda_dependencies)) /\
    find_pip_index h' (deps ++ conda_dependencies) = Some i /\
    lookup "pip" (h' entry) = Some (VList (l ++ libraries)) /\
    (forall a, map fst (h' a) = map fst (h a)) /\
    (forall a, a <> env -> a <> entry -> h' a = h a) /\
    (forall a k, k <> "pip" -> k <> "dependencies" ->
                 lookup k (h' a) = lookup k (h a)) /\
    (env <> entry ->
     lookup "pip" (h' env) = lookup "pip" (h env) /\
     lookup "dependencies" (h' entry) = lookup "dependencies" (h entry)) /\
    (forall v, ~ reaches h v env -> ~ reaches h v entry -> same_value h h' v).
Proof.
  intros Hd Hf Hn Hp.
  eexists. split; [exact (@add_libraries_run h env deps libraries
                             conda_dependencies i entry l Hd Hf Hn Hp)|].
  split; [exact (@merged_dependencies h env entry (deps ++ conda_dependencies)
                   l libraries)|].
  split; [unfold find_pip_index in *;
          now rewrite (@merged_find_pip_index h env entry
                         (deps ++ conda_dependencies) l libraries Hp)|].
  split; [exact (@merged_pip h env entry (deps ++ conda_dependencies) l
                   libraries Hp)|].
  split; [exact (@merged_keys h env entry (deps ++ conda_dependencies) l
                   libraries (VList deps) Hd Hp)|].
  split; [exact (@merged_other h env entry (deps ++ conda_dependencies) l
                   libraries)|].
  split; [exact (@merged_slots h env entry (deps ++ conda_dependencies) l
                   libraries)|].
  split.
  - intros Hne. split.
    + apply (@merged_env_slots h env entry (deps ++ conda_dependencies) l
               libraries); [exact Hne | discriminate].
    + apply (@merged_entry_slots h env entry (deps ++ conda_dependencies) l
               libraries); [exact Hne | discriminate].
  - exact (@merged_same_value h env entry (deps ++ conda_dependencies) l
             libraries).
Qed.

Lemma add_libraries_in_place_witness :
  exists h',
    add_libraries_to_conda_env 0 [VStr "Pillow"] [VStr "numpy"] Demo.demo_heap
    = (Ok 0%nat, h') /\
    lookup "dependencies" (h' 0%nat)
    = Some (VList ([VStr "python=3.8"; VStr "pip"; VRef 1] ++ [VStr "numpy"])) /\
    find_pip_index h' ([VStr "python=3.8"; VStr "pip"; VRef 1] ++ [VStr "numpy"])
    = Some 2%nat /\
    lookup "pip" (h' 1%nat) = Some (VList ([VStr "mlflow"] ++ [VStr "Pillow"])) /\
    (forall a, map fst (h' a) = map fst (Demo.demo_heap a)) /\
    (forall a, a <> 0%nat -> a <> 1%nat -> h' a = Demo.demo_heap a) /\
    (forall a k, k <> "pip" -> k <> "dependencies" ->
                 lookup k (h' a) = lookup k (Demo.demo_heap a)) /\
    (0%nat <> 1%nat ->
     lookup "pip" (h' 0%nat) = lookup "pip" (Demo.demo_heap 0%nat) /\
     lookup "dependencies" (h' 1%nat)
     = lookup "dependencies" (Demo.demo_heap 1%nat)) /\
    (forall v, ~ reaches Demo.demo_heap v 0 -> ~ reaches Demo.demo_heap v 1 ->
               same_value Demo.demo_heap h' v).
Proof.
  apply (@add_libraries_in_place Demo.demo_heap 0
           [VStr "python=3.8"; VStr "pip"; VRef 1] [VStr "Pillow"]
           [VStr "numpy"] 2 1 [VStr "mlflow"]); reflexivity.
Defined.

End CondaHeapFacts.

(** * More on logging and training *)

Section TrainingMore.

Context {ops : TorchOps}.
Variable args : Args.
Variable train_loader : DataLoader.
Variable test_loader : DataLoader.

Local Open Scope string_scope.
Local Open Scope list_scope.

Lemma bind_ok {S A B : Type} (m : M S A) (k : A -> M S B) (s s' : S) (a : A) :
  m s = (Ok a, s') -> bind m k s = k a s'.
Proof. intros H. unfold bind. now rewrite H. Qed.

Lemma bind_raise {S A B : Type} (m : M S A) (k : A -> M S B) (s s' : S)
    (e : PyError) :
  m s = (Raise e, s') -> bind m k s = (Raise e, s').
Proof. intros H. unfold bind. now rewrite H. Qed.

(** A loop whose invariant counts the elements processed; it no longer
    holds once an element raises. *)
Lemma triple_for_each_counted {S A : Type} (I : nat -> S -> Prop)
    (E : S -> Prop) (body : A -> M S unit) (l : list A) (k : nat) :
  (forall j x, nth_error l j = Some x ->
     triple (I (k + j)%nat) (body x) (fun _ => I (Datatypes.S (k + j))) E) ->
  triple (I k) (for_each l body) (fun _ => I (k + List.length l)%nat) E.
Proof.
  revert k. induction l as [|x l IH]; intros k Hbody; simpl.
  - rewrite Nat.add_0_r. apply triple_ret with (Q := fun _ => I k).
  - replace (k + Datatypes.S (List.length l))%nat
      with (Datatypes.S k + List.length l)%nat by lia.
    apply triple_bind with (Q := fun _ => I (Datatypes.S k)).
    + specialize (Hbody 0%nat x eq_refl). rewrite Nat.add_0_r in Hbody.
      exact Hbody.
    + intros u. apply IH. intros j y Hj.
      replace (Datatypes.S k + j)%nat with (k + Datatypes.S j)%nat by lia.
      apply (Hbody (Datatypes.S j) y Hj).
Qed.

(** ** Logging *)

(** Called while the global [writer] is still [None], [log_scalar] raises
    [AttributeError] at the writer, and the tracking client, which comes
    second, is not called. *)
Theorem log_scalar_without_writer (name : string) (value : R) (step : Z)
    (w : World) :
  writer w = None ->
  log_scalar name value step w = (Raise AttributeError, w).
Proof.
  intros H. unfold log_scalar, bind, add_scalar. rewrite H. reflexivity.
Qed.




(** ** One trip through the training loop *)

Lemma with_generator_eq {A : Type} (m : M Generator A) (w : World)
    (r : result A) (g : Generator) :
  m (generator w) = (r, g) -> with_generator m w = (r, set_generator g w).
Proof. intros H. unfold with_generator. now rewrite H. Qed.

(** When the forward pass and the loss go through, a trip through the loop
    is the optimizer step followed by the logging decision. *)
Lemma train_batch_eq (epoch : Z) (i : nat) (data : Tensor) (target : list Z)
    (w : World) (output : F.Matrix) (g2 : Generator) (loss : R) :
  forward (model w) data (generator w) = (Ok output, g2) ->
  F.nll_loss output target F.Mean = Ok loss ->
  train_batch args train_loader epoch (i, (data, target)) w
  = (if (log_interval args =? 0)%Z then raise ZeroDivisionError
     else if (Z.of_nat i mod log_interval args =? 0)%Z then
       bind (log_scalar "train_loss" loss
               (epoch * Z.of_nat (loader_len train_loader) + Z.of_nat i))
            (fun _ => log_weights
                        (epoch * Z.of_nat (loader_len train_loader) + Z.of_nat i))
     else ret tt)
      (after_step args w data target g2).
Proof.
  intros Hfw Hloss. unfold train_batch. cbn [fst snd].
  rewrite (@bind_ok _ _ _ (modify (set_grad None)) _ w (set_grad None w) tt eq_refl).
  rewrite (@bind_ok _ _ _ (gets model) _ (set_grad None w) (set_grad None w)
             (model w) eq_refl).
  rewrite (@bind_ok _ _ _ (gets generator) _ (set_grad None w) (set_grad None w)
             (generator w) eq_refl).
  rewrite (@bind_ok _ _ _ (with_generator (forward (model w) data)) _
             (set_grad None w) (set_generator g2 (set_grad None w)) output
             (with_generator_eq (forward (model w) data) (set_grad None w) Hfw)).
  rewrite (@bind_ok _ _ _ (lift (F.nll_loss output target F.Mean)) _
             (set_generator g2 (set_grad None w))
             (set_generator g2 (set_grad None w)) loss).
  2: { unfold lift. now rewrite Hloss. }
  set (gr := backward (parameters (model w)) (generator w) data target).
  rewrite (@bind_ok _ _ _ (modify (set_grad (Some gr))) _
             (set_generator g2 (set_grad None w))
             (set_grad (Some gr) (set_generator g2 (set_grad None w))) tt eq_refl).
  unfold bind at 1. unfold modify at 1. reflexivity.
Qed.

Lemma after_step_optimizer_steps (w : World) (data : Tensor) (target : list Z)
    (g2 : Generator) :
  optimizer_steps (after_step args w data target g2) = S (optimizer_steps w).
Proof. unfold after_step. destruct (sgd_step _ _ _ _ _). reflexivity. Qed.

Lemma after_step_writer (w : World) (data : Tensor) (target : list Z)
    (g2 : Generator) :
  writer (after_step args w data target g2) = writer w.
Proof. unfold after_step. destruct (sgd_step _ _ _ _ _). reflexivity. Qed.

Lemma after_step_metrics (w : World) (data : Tensor) (target : list Z)
    (g2 : Generator) :
  metrics (after_step args w data target g2) = metrics w.
Proof. unfold after_step. destruct (sgd_step _ _ _ _ _). reflexivity. Qed.

Lemma train_first_batch_eq (epoch : Z) (w : World) (data : Tensor)
    (target : list Z) (bs : list Batch) (g1 : Generator) :
  iter_batches train_loader (generator w) = ((data, target) :: bs, g1) ->
  train args train_loader epoch w
  = bind (train_batch args train_loader epoch (0%nat, (data, target)))
         (fun _ => for_each (combine (seq 1 (List.length bs)) bs)
                            (train_batch args train_loader epoch))
         (set_generator g1 (set_model (set_training true (model w)) w)).
Proof.
  intros Hit. unfold train. unfold bind at 1. cbn [modify].
  unfold bind at 1. unfold iterate, with_generator.
  cbn [generator set_model]. rewrite Hit. reflexivity.
Qed.

(** With [log_interval = 0] the first batch of an epoch is trained on and
    then the test [batch_idx % log_interval] raises [ZeroDivisionError]:
    one optimizer step has been taken, nothing has been logged. *)
Theorem train_log_interval_zero (epoch : Z) (w : World)
    (data : Tensor) (target : list Z) (bs : list Batch) (g1 g2 : Generator)
    (output : F.Matrix) (loss : R) :
  log_interval args = 0%Z ->
  iter_batches train_loader (generator w) = ((data, target) :: bs, g1) ->
  forward (set_training true (model w)) data g1 = (Ok output, g2) ->
  F.nll_loss output target F.Mean = Ok loss ->
  fst (train args train_loader epoch w) = Raise ZeroDivisionError /\
  optimizer_steps (snd (train args train_loader epoch w))
  = S (optimizer_steps w) /\
  writer (snd (train args train_loader epoch w)) = writer w /\
  metrics (snd (train args train_loader epoch w)) = metrics w.
Proof.
  intros Hli Hit Hfw Hloss.
  rewrite (train_first_batch_eq epoch w Hit).
  set (w0 := set_generator g1 (set_model (set_training true (model w)) w)).
  assert (Hb : train_batch args train_loader epoch (0%nat, (data, target)) w0
               = (Raise ZeroDivisionError, after_step args w0 data target g2)).
  { rewrite (@train_batch_eq epoch 0 data target w0 output g2 loss Hfw Hloss).
    rewrite Hli. reflexivity. }
  rewrite (@bind_raise _ _ _ _ _ _ _ _ Hb). cbn [fst snd].
  rewrite after_step_optimizer_steps, after_step_writer, after_step_metrics.
  repeat split.
Qed.

(** ** Optimizer steps and the training flag *)

Lemma triple_of_preserves {S A : Type} (I E : S -> Prop) (m : M S A) :
  preserves I m -> (forall s, I s -> E s) -> triple I m (fun _ => I) E.
Proof.
  intros Hp HE. eapply triple_consequence; [exact Hp | auto | auto | exact HE].
Qed.

Lemma triple_bind_gets_any {S A B : Type} (f : S -> A) (k : A -> M S B)
    (P : S -> Prop) (Q : B -> S -> Prop) (E : S -> Prop) :
  (forall a, triple P (k a) Q E) -> triple P (bind (gets f) k) Q E.
Proof. intros Hk s HP. unfold bind, gets. apply (Hk (f s) s HP). Qed.

(** A trip through the loop of [train] keeps every invariant that its
    five kinds of update keep. *)
Lemma train_batch_preserves (I : World -> Prop) (epoch : Z) (item : nat * Batch) :
  (forall w g, I w -> I (set_grad g w)) ->
  (forall w g, I w -> I (set_generator g w)) ->
  (forall w b n p, I w ->
     I (set_optimizer b n (set_model (set_parameters p (model w)) w))) ->
  (forall w e, I w -> I (set_writer e w)) ->
  (forall w m, I w -> I (set_metrics m w)) ->
  preserves I (train_batch args train_loader epoch item).
Proof.
  intros Hgrad Hgen Hopt Hwr Hmet. unfold train_batch.
  apply preserves_bind; [apply preserves_modify; auto|]. intros u1.
  apply preserves_bind; [apply preserves_gets|]. intros self.
  apply preserves_bind; [apply preserves_gets|]. intros g0.
  apply preserves_bind; [apply preserves_with_generator; auto|]. intros output.
  apply preserves_bind; [apply preserves_lift|]. intros loss.
  apply preserves_bind; [apply preserves_modify; auto|]. intros u2.
  apply preserves_bind.
  { apply preserves_modify. intros w H. destruct (sgd_step _ _ _ _ _). auto. }
  intros u3.
  destruct (log_interval args =? 0)%Z; [apply preserves_raise|].
  destruct (_ mod log_interval args =? 0)%Z; [|apply preserves_ret].
  apply preserves_bind.
  { apply preserves_log_scalar; auto. }
  intros u4. unfold log_weights.
  apply preserves_bind; [apply preserves_gets|]. intros m.
  repeat (apply preserves_bind; [|intros ?]);
    apply preserves_add_histogram; auto.
Qed.

(** One trip takes one optimizer step, or none or one when it raises. *)
Lemma train_batch_one_step (n : nat) (epoch : Z) (item : nat * Batch) :
  triple (fun w => optimizer_steps w = n)
         (train_batch args train_loader epoch item)
         (fun _ w => optimizer_steps w = S n)
         (fun w => (n <= optimizer_steps w <= S n)%nat).
Proof.
  set (I0 := fun w : World => optimizer_steps w = n).
  set (I1 := fun w : World => optimizer_steps w = S n).
  set (E := fun w : World => (n <= optimizer_steps w <= S n)%nat).
  assert (H0 : forall s, I0 s -> E s) by (unfold I0, E; intros; lia).
  assert (H1 : forall s, I1 s -> E s) by (unfold I1, E; intros; lia).
  unfold train_batch.
  apply triple_bind with (Q := fun _ => I0).
  { apply triple_modify. intros w H. exact H. }
  intros u1. apply triple_bind_gets_any. intros self.
  apply triple_bind_gets_any. intros g0.
  apply triple_bind with (Q := fun _ => I0).
  { apply triple_of_preserves; [|exact H0].
    apply preserves_with_generator. intros w g H. exact H. }
  intros output. apply triple_bind with (Q := fun _ => I0).
  { apply triple_of_preserves; [apply preserves_lift | exact H0]. }
  intros loss. apply triple_bind with (Q := fun _ => I0).
  { apply triple_modify. intros w H. exact H. }
  intros u2. apply triple_bind with (Q := fun _ => I1).
  { apply triple_modify. intros w H. unfold I0, I1 in *.
    destruct (sgd_step _ _ _ _ _). simpl. now rewrite H. }
  intros u3.
  destruct (log_interval args =? 0)%Z.
  { intros w H. apply H1. exact H. }
  destruct (_ mod log_interval args =? 0)%Z.
  - apply triple_of_preserves; [|exact H1].
    apply preserves_bind.
    { apply preserves_log_scalar; intros; assumption. }
    intros u4. unfold log_weights.
    apply preserves_bind; [apply preserves_gets|]. intros m.
    repeat (apply preserves_bind; [|intros ?]);
      apply preserves_add_histogram; intros; assumption.
  - apply triple_ret with (Q := fun _ => I1).
Qed.

Lemma train_steps_triple (n : nat) (epoch : Z) :
  loader_ok train_loader ->
  triple (fun w => optimizer_steps w = n)
         (train args train_loader epoch)
         (fun _ w => optimizer_steps w = (n + loader_len train_loader)%nat)
         (fun w => (n <= optimizer_steps w <= n + loader_len train_loader)%nat).
Proof.
  intros Hok. unfold train.
  apply triple_bind with (Q := fun _ w => optimizer_steps w = n).
  { apply triple_modify. intros w H. exact H. }
  intros u.
  apply triple_bind
    with (Q := fun bs w => List.length bs = loader_len train_loader /\
                           optimizer_steps w = n).
  { intros w Hw. unfold iterate, with_generator.
    destruct (iter_batches train_loader (generator w)) as [bs g] eqn:E.
    split; [|exact Hw].
    destruct (Hok (generator w)) as [Hlen _]. now rewrite E in Hlen. }
  intros bs. apply triple_pure_pre. intros Hlen.
  eapply triple_consequence.
  - apply (@triple_for_each_counted World (nat * Batch)
             (fun i w => optimizer_steps w = (n + i)%nat)
             (fun w => (n <= optimizer_steps w <= n + loader_len train_loader)%nat)
             (train_batch args train_loader epoch) (enumerate bs) 0).
    intros j x Hj.
    assert (Hlt : (j < loader_len train_loader)%nat).
    { rewrite <- Hlen, <- (enumerate_length bs). apply nth_error_Some. congruence. }
    eapply triple_consequence; [apply (@train_batch_one_step (n + j)%nat epoch x) | | |].
    + intros s H. exact H.
    + intros a s H. simpl in *. lia.
    + intros s H. simpl in *. lia.
  - intros s H. simpl. lia.
  - intros a s H. simpl in H. rewrite enumerate_length, Hlen in H. exact H.
  - auto.
Qed.

(** An epoch of training that goes through takes exactly
    [len(train_loader)] optimizer steps, one per batch; one that raises has
    taken at most that many. *)
Theorem train_optimizer_steps (epoch : Z) (w : World) :
  loader_ok train_loader ->
  (fst (train args train_loader epoch w) = Ok tt ->
   optimizer_steps (snd (train args train_loader epoch w))
   = (optimizer_steps w + loader_len train_loader)%nat) /\
  (optimizer_steps w
   <= optimizer_steps (snd (train args train_loader epoch w))
   <= optimizer_steps w + loader_len train_loader)%nat.
Proof.
  intros Hok.
  pose proof (@train_steps_triple (optimizer_steps w) epoch Hok w eq_refl) as H.
  destruct (train args train_loader epoch w) as [[e|[]] w']; simpl.
  - split; [discriminate | exact H].
  - split; [intros _; exact H | rewrite H; lia].
Qed.

(** [train] leaves the module in training mode, however it ends. *)
Theorem train_sets_training_mode (epoch : Z) (w : World) :
  training (model (snd (train args train_loader epoch w))) = true.
Proof.
  set (J := fun w : World => training (model w) = true).
  assert (H : triple (fun _ => True) (train args train_loader epoch)
                     (fun _ => J) J).
  { unfold train. apply triple_bind with (Q := fun _ => J).
    - apply triple_modify. intros s _. reflexivity.
    - intros u. apply preserves_bind.
      + apply preserves_iterate. intros s g H. exact H.
      + intros bs. apply preserves_for_each. intros x.
        apply train_batch_preserves; unfold J; intros; assumption. }
  specialize (H w Logic.I).
  destruct (train args train_loader epoch w) as [[e|u] w']; exact H.
Qed.

End TrainingMore.

(** * More on evaluation, the wrapper and the run *)

Section RunMore.

Context {ops : TorchOps}.
Variable args : Args.
Variable train_loader : DataLoader.
Variable test_loader : DataLoader.
Variable get_default_conda_env : Conda.pydict.

Local Open Scope string_scope.
Local Open Scope list_scope.

(** ** Evaluation *)

(** On an empty evaluation feed the division by [len(test_loader.dataset)]
    raises [ZeroDivisionError]; nothing is written or logged. *)
Theorem test_empty_feed (epoch : Z) (w : World) (g' : Generator) :
  iter_batches test_loader (generator w) = ([], g') ->
  dataset_len test_loader = 0%nat ->
  fst (test train_loader test_loader epoch w) = Raise ZeroDivisionError /\
  writer (snd (test train_loader test_loader epoch w)) = writer w /\
  metrics (snd (test train_loader test_loader epoch w)) = metrics w.
Proof.
  intros Hit Hn.
  set (w1 := set_model (set_training false (model w)) w).
  assert (Heq : test train_loader test_loader epoch w
                = (Raise ZeroDivisionError, set_generator g' w1)).
  { unfold test.
    rewrite (@bind_ok _ _ _
               (modify (fun w => set_model (set_training false (model w)) w))
               _ w w1 tt eq_refl).
    rewrite (@bind_ok _ _ _ (iterate test_loader) _ w1 (set_generator g' w1) []).
    2: { unfold iterate. apply with_generator_eq.
         change (generator w1) with (generator w). now rewrite Hit. }
    cbn [fold_each].
    rewrite (@bind_ok _ _ _ (ret (0%R, 0%nat)) _ (set_generator g' w1)
               (set_generator g' w1) (0%R, 0%nat) eq_refl).
    rewrite Hn. reflexivity. }
  rewrite Heq. repeat split.
Qed.

(** The evaluation pass draws from the random generator only to iterate
    over the loader: the forward passes run in evaluation mode and draw
    nothing. *)
Theorem test_generator (epoch : Z) (w : World) :
  generator (snd (test train_loader test_loader epoch w))
  = snd (iter_batches test_loader (generator w)).
Proof.
  set (g' := snd (iter_batches test_loader (generator w))).
  set (J := fun s : World => generator s = g' /\ training (model s) = false).
  assert (HJ : forall acc item, preserves J (test_batch acc item)).
  { intros acc item s [Hg Ht].
    unfold test_batch, bind, gets, with_generator, lift, ret, Ok.
    cbv beta iota.
    destruct (forward_eval_mode (model s) (fst item) (generator s) (generator s) Ht)
      as [_ Hsnd].
    destruct (forward (model s) (fst item) (generator s)) as [r g''].
    cbn [snd] in Hsnd. subst g''.
    assert (HJ' : J (set_generator (generator s) s)) by (split; assumption).
    destruct r as [e|output]; [exact HJ'|].
    destruct (F.nll_loss output (snd item) F.Sum) as [e|l]; [exact HJ'|].
    destruct (F.max_dim1 output) as [e|p]; exact HJ'. }
  assert (H : triple (fun s => generator s = generator w)
                (test train_loader test_loader epoch) (fun _ => J) J).
  { unfold test.
    apply triple_bind
      with (Q := fun _ s => generator s = generator w /\ training (model s) = false).
    { apply triple_modify. intros s H. split; [exact H | reflexivity]. }
    intros u. apply triple_bind with (Q := fun _ => J).
    { intros s [Hg Ht]. unfold iterate, with_generator. rewrite Hg.
      unfold J, g'. destruct (iter_batches test_loader (generator w)) as [bs g].
      split; [reflexivity | exact Ht]. }
    intros bs. apply preserves_bind.
    { apply preserves_fold_each. exact HJ. }
    intros acc. destruct (dataset_len test_loader =? 0)%nat.
    - apply preserves_raise.
    - apply preserves_bind; [|intros u'];
        (apply preserves_log_scalar; [intros ? ? _ ?; assumption | intros; assumption]). }
  specialize (H w eq_refl).
  destruct (test train_loader test_loader epoch w) as [[e|u] w'];
    destruct H as [H _]; exact H.
Qed.

(** ** The inference wrapper *)

(** A wrapper whose [load_context] has not run never answers: [predict]
    raises and leaves the random generator alone. *)
Theorem predict_before_load (model_input : list string) (g : Generator) :
  exists e,
    predict {| wrapper_model := None |} model_input g = (Raise e, g).
Proof.
  unfold predict, bind, lift, raise.
  destruct (decode_rows model_input) as [e|arrays]; [now exists e|].
  destruct (stack_to_tensor arrays) as [e|t]; [now exists e|].
  now exists AttributeError.
Qed.

Lemma decode_rows_ok (rows : list string) (arrays : list NdArray) :
  decode_rows rows = Ok arrays ->
  List.length arrays = List.length rows /\
  forall row, In row rows ->
    exists decoded image_np,
      b64decode row = Ok decoded /\ image_array decoded = Ok image_np.
Proof.
  revert arrays; induction rows as [|row rows IH]; intros arrays; simpl.
  - intros [= <-]. split; [reflexivity | intros ? []].
  - destruct (b64decode row) as [e|decoded] eqn:Hb; simpl; [discriminate|].
    destruct (image_array decoded) as [e|image_np] eqn:Hi; simpl; [discriminate|].
    destruct (decode_rows rows) as [e|rest]; simpl; [discriminate|].
    intros [= <-]. destruct (IH rest eq_refl) as [Hlen Hall].
    split; [simpl; now rewrite Hlen|].
    intros r [<- | Hr]; [now exists decoded, image_np | now apply Hall].
Qed.

(** [predict] answers only if every row of the table decodes: one
    malformed cell fails the whole batch. *)
Theorem predict_decodes_every_row (self : PytorchModelWrapper)
    (model_input : list string) (g : Generator) (labels : list nat) :
  fst (predict self model_input g) = Ok labels ->
  forall row, In row model_input ->
    exists decoded image_np,
      b64decode row = Ok decoded /\ image_array decoded = Ok image_np.
Proof.
  unfold predict, bind, lift.
  destruct (decode_rows model_input) as [e|arrays] eqn:Hd; [discriminate|].
  intros _. exact (proj2 (decode_rows_ok model_input Hd)).
Qed.

(** With a model in evaluation mode [predict] leaves the random generator
    as it found it. *)
Theorem predict_eval_keeps_generator (self : PytorchModelWrapper)
    (model_input : list string) (g : Generator) :
  (forall m, wrapper_model self = Some m -> training m = false) ->
  snd (predict self model_input g) = g.
Proof.
  intros Heval. unfold predict, bind, lift, raise.
  destruct (decode_rows model_input) as [e|arrays]; [reflexivity|].
  destruct (stack_to_tensor arrays) as [e|t]; [reflexivity|].
  destruct (wrapper_model self) as [m|]; [|reflexivity].
  destruct (forward_eval_mode m t g g (Heval m eq_refl)) as [_ Hsnd].
  destruct (forward m t g) as [[e|out] g1]; cbn [snd] in *; exact Hsnd.
Qed.

(** ** The run *)

Lemma test_preserves_updates (I : World -> Prop) (epoch : Z) :
  (forall w, I w -> I (set_model (set_training false (model w)) w)) ->
  (forall w g, I w -> I (set_generator g w)) ->
  (forall w e, I w -> I (set_writer e w)) ->
  (forall w m, I w -> I (set_metrics m w)) ->
  preserves I (test train_loader test_loader epoch).
Proof.
  intros Hmod Hgen Hwr Hmet. unfold test.
  apply preserves_bind; [apply preserves_modify; auto|]. intros u.
  apply preserves_bind; [now apply preserves_iterate|]. intros batches.
  apply preserves_bind.
  { apply preserves_fold_each. intros b x. now apply test_batch_preserves. }
  intros acc. destruct (dataset_len test_loader =? 0)%nat.
  - apply preserves_raise.
  - apply preserves_bind; [|intros u']; apply preserves_log_scalar; auto.
Qed.

Lemma train_preserves_updates (I : World -> Prop) (epoch : Z) :
  (forall w, I w -> I (set_model (set_training true (model w)) w)) ->
  (forall w g, I w -> I (set_grad g w)) ->
  (forall w g, I w -> I (set_generator g w)) ->
  (forall w b n p, I w ->
     I (set_optimizer b n (set_model (set_parameters p (model w)) w))) ->
  (forall w e, I w -> I (set_writer e w)) ->
  (forall w m, I w -> I (set_metrics m w)) ->
  preserves I (train args train_loader epoch).
Proof.
  intros Hmod Hgrad Hgen Hopt Hwr Hmet. unfold train.
  apply preserves_bind; [apply preserves_modify; auto|]. intros u.
  apply preserves_bind; [now apply preserves_iterate|]. intros bs.
  apply preserves_for_each. intros x. now apply train_batch_preserves.
Qed.

(** The epochs only touch the model, the optimizer, the generator, the
    writer and the metrics. *)
Lemma epochs_preserve_run_record (I : World -> Prop) (l : list Z) :
  reads_run_record I ->
  preserves I
    (for_each l (fun epoch => bind (train args train_loader epoch)
                                   (fun _ => test train_loader test_loader epoch))).
Proof.
  intros HI. apply preserves_for_each. intros epoch.
  apply preserves_bind.
  - apply train_preserves_updates; intros; (eapply HI; [| | | |eassumption]);
      reflexivity.
  - intros u.
    apply test_preserves_updates; intros; (eapply HI; [| | | |eassumption]);
      reflexivity.
Qed.

Lemma log_params_triple (l : list (string * ArgValue))
    (rp : list (string * ArgValue)) (I E : World -> Prop) :
  (forall w p, I w -> I (set_run_params p w)) ->
  triple (fun w => run_params w = rp /\ I w)
    (for_each l (fun kv => modify (fun w => set_run_params (run_params w ++ [kv]) w)))
    (fun _ w => run_params w = rp ++ l /\ I w) E.
Proof.
  intros HI. revert rp. induction l as [|kv l IH]; intros rp; simpl.
  - intros w [H Hi]. rewrite app_nil_r. split; assumption.
  - apply triple_bind with (Q := fun _ w => run_params w = rp ++ [kv] /\ I w).
    + apply triple_modify. intros w [H Hi]. simpl. rewrite H. split; auto.
    + intros u. specialize (IH (rp ++ [kv])). rewrite <- app_assoc in IH.
      exact IH.
Qed.

(** The nine arguments are logged as run parameters, in the order of
    [vars(args)], before anything else; they are there however the run
    ends, and nothing else is logged as a parameter. *)
Theorem main_logs_params (w : World) :
  run_params (snd (main args train_loader test_loader get_default_conda_env w))
  = run_params w ++ vars args.
Proof.
  set (I := fun s : World => run_params s = run_params w ++ vars args).
  assert (HI : reads_run_record I).
  { intros w1 w2 Hp _ _ _. unfold I. now rewrite Hp. }
  assert (H : triple (fun s => run_params s = run_params w /\ True)
                (main args train_loader test_loader get_default_conda_env)
                (fun _ => I) I).
  { unfold main.
    apply triple_bind with (Q := fun _ s => I s).
    { eapply triple_consequence.
      - apply (@log_params_triple (vars args) (run_params w) (fun _ => True) I).
        auto.
      - auto.
      - intros a s [H _]. exact H.
      - auto. }
    intros u1. apply preserves_bind.
    { apply preserves_modify. intros s. now apply HI. }
    intros u2. apply preserves_bind.
    { now apply epochs_preserve_run_record. }
    intros u3. apply preserves_bind.
    { apply preserves_modify. intros s H. exact H. }
    intros u4. apply preserves_bind; [apply preserves_gets|]. intros sm.
    apply preserves_bind.
    { apply preserves_modify. intros s H. exact H. }
    intros u5. apply preserves_bind; [apply preserves_lift|]. intros ce.
    apply preserves_modify. intros s H. exact H. }
  specialize (H w (conj eq_refl Logic.I)).
  destruct (main args train_loader test_loader get_default_conda_env w)
    as [[e|u] w']; exact H.
Qed.

(** What a run that goes through leaves behind. *)
Lemma main_success_triple (ra : list (string * list Event))
    (lm : list LoggedModel) (fs : list (string * Net)) :
  triple
    (fun s => run_artifacts s = ra /\ logged_models s = lm /\ files s = fs)
    (main args train_loader test_loader get_default_conda_env)
    (fun _ s =>
       run_artifacts s = ra ++ [("events", events s)] /\
       files s = store "scripted_model.pth" (model s) fs /\
       exists conda_env,
         Conda.add_libraries_to_conda_env get_default_conda_env
           [Conda.PyStr "typing-extensions"; Conda.PyStr "Pillow"] []
         = Ok conda_env /\
         logged_models s = lm ++ [registered_model conda_env])
    (fun _ => True).
Proof.
  set (I := fun s : World =>
              run_artifacts s = ra /\ logged_models s = lm /\ files s = fs).
  assert (HI : reads_run_record I).
  { intros w1 w2 _ Ha Hl Hf. unfold I. now rewrite Ha, Hl, Hf. }
  assert (HT : forall s : World, I s -> True) by auto.
  unfold main.
  apply triple_bind with (Q := fun _ => I).
  { apply triple_of_preserves; [|exact HT].
    apply preserves_for_each. intros kv. apply preserves_modify.
    intros s H. exact H. }
  intros u1. apply triple_bind with (Q := fun _ => I).
  { apply triple_modify. intros s H. exact H. }
  intros u2. apply triple_bind with (Q := fun _ => I).
  { apply triple_of_preserves; [|exact HT]. now apply epochs_preserve_run_record. }
  intros u3.
  apply triple_bind
    with (Q := fun _ s => run_artifacts s = ra ++ [("events", events s)] /\
                          logged_models s = lm /\ files s = fs).
  { apply triple_modify. intros s (Ha & Hl & Hf). simpl. rewrite Ha.
    repeat split; assumption. }
  intros u4. apply triple_bind_gets. intros scripted_model.
  apply triple_bind
    with (Q := fun _ s => run_artifacts s = ra ++ [("events", events s)] /\
                          logged_models s = lm /\
                          files s = store "scripted_model.pth" (model s) fs).
  { apply triple_modify. intros s (-> & Ha & Hl & Hf). simpl.
    rewrite Hf. repeat split; assumption. }
  intros u5.
  destruct (Conda.add_libraries_to_conda_env get_default_conda_env
              [Conda.PyStr "typing-extensions"; Conda.PyStr "Pillow"] [])
    as [e|conda_env] eqn:Hmerge.
  { intros s _. unfold bind, lift. exact Logic.I. }
  apply triple_bind_lift with (a := conda_env); [reflexivity|].
  apply triple_modify. intros s (Ha & Hl & Hf). simpl.
  split; [exact Ha|]. split; [exact Hf|].
  exists conda_env. split; [reflexivity|]. now rewrite Hl.
Qed.

(** A run that goes through registers exactly one model: the unloaded
    wrapper, the artifact dictionary naming the saved file, and the default
    manifest merged with ["typing-extensions"] and ["Pillow"]. *)
Theorem main_registers_model (w : World) :
  fst (main args train_loader test_loader get_default_conda_env w) = Ok tt ->
  exists conda_env,
    Conda.add_libraries_to_conda_env get_default_conda_env
      [Conda.PyStr "typing-extensions"; Conda.PyStr "Pillow"] [] = Ok conda_env /\
    logged_models (snd (main args train_loader test_loader get_default_conda_env w))
    = logged_models w ++ [registered_model conda_env].
Proof.
  pose proof (@main_success_triple (run_artifacts w) (logged_models w) (files w)
                w (conj eq_refl (conj eq_refl eq_refl))) as H.
  destruct (main args train_loader test_loader get_default_conda_env w)
    as [[e|u] w']; [discriminate|].
  intros _. exact (proj2 (proj2 H)).
Qed.

(** Round trip: the wrapper, handed the artifact dictionary the run
    registered and the files the run wrote, loads the model the run
    ended with. *)
Theorem saved_model_loads_back (w : World) (self : PytorchModelWrapper) :
  fst (main args train_loader test_loader get_default_conda_env w) = Ok tt ->
  load_context
    (files (snd (main args train_loader test_loader get_default_conda_env w)))
    self {| context_artifacts := [("scripted_model", "scripted_model.pth")] |}
  = Ok {| wrapper_model :=
            Some (model (snd (main args train_loader test_loader
                                   get_default_conda_env w))) |}.
Proof.
  pose proof (@main_success_triple (run_artifacts w) (logged_models w) (files w)
                w (conj eq_refl (conj eq_refl eq_refl))) as H.
  destruct (main args train_loader test_loader get_default_conda_env w)
    as [[e|u] w']; [discriminate|].
  intros _. destruct H as (_ & Hf & _). cbn [snd].
  unfold load_context. cbn [context_artifacts lookup].
  cbn [String.eqb Ascii.eqb Bool.eqb]. rewrite Hf, lookup_store_same. reflexivity.
Qed.

(** When the default manifest does not accept the merge, the run raises
    and registers no model. *)
Theorem main_merge_failure (w : World) (e : PyError) :
  Conda.add_libraries_to_conda_env get_default_conda_env
    [Conda.PyStr "typing-extensions"; Conda.PyStr "Pillow"] [] = Raise e ->
  (exists e', fst (main args train_loader test_loader get_default_conda_env w)
              = Raise e') /\
  logged_models (snd (main args train_loader test_loader get_default_conda_env w))
  = logged_models w.
Proof.
  intros Hmerge.
  set (I := fun s : World => logged_models s = logged_models w).
  assert (HI : reads_run_record I).
  { intros w1 w2 _ _ Hl _. unfold I. now rewrite Hl. }
  assert (H : triple I (main args train_loader test_loader get_default_conda_env)
                (fun _ _ => False) I).
  { unfold main.
    apply triple_bind with (Q := fun _ => I).
    { apply preserves_for_each. intros kv. apply preserves_modify.
      intros s H. exact H. }
    intros u1. apply triple_bind with (Q := fun _ => I).
    { apply triple_modify. intros s H. exact H. }
    intros u2. apply triple_bind with (Q := fun _ => I).
    { now apply epochs_preserve_run_record. }
    intros u3. apply triple_bind with (Q := fun _ => I).
    { apply triple_modify. intros s H. exact H. }
    intros u4. apply triple_bind_gets_any. intros sm.
    apply triple_bind with (Q := fun _ => I).
    { apply triple_modify. intros s H. exact H. }
    intros u5. rewrite Hmerge. intros s H. exact H. }
  specialize (H w eq_refl).
  destruct (main args train_loader test_loader get_default_conda_env w)
    as [[e'|u] w']; [|contradiction].
  split; [now exists e' | exact H].
Qed.

(** A run of at least one epoch that goes through saves the model in
    evaluation mode: the last thing the last epoch does to the module is
    [model.eval()]. *)
Theorem saved_model_in_eval_mode (w : World) :
  (1 <= epochs args)%Z ->
  fst (main args train_loader test_loader get_default_conda_env w) = Ok tt ->
  exists m,
    lookup "scripted_model.pth"
      (files (snd (main args train_loader test_loader get_default_conda_env w)))
    = Some m /\ training m = false.
Proof.
  intros Hn.
  pose proof (@main_saves_eval_mode ops args train_loader test_loader
                get_default_conda_env Hn w Logic.I) as H.
  destruct (main args train_loader test_loader get_default_conda_env w)
    as [[e|u] w']; [discriminate|].
  intros _. exact H.
Qed.

(** A run that goes through has taken one optimizer step per batch and
    epoch: [epochs * len(train_loader)] in all, none for [epochs <= 0]. *)
Theorem main_optimizer_steps (w : World) :
  loader_ok train_loader ->
  fst (main args train_loader test_loader get_default_conda_env w) = Ok tt ->
  optimizer_steps (snd (main args train_loader test_loader get_default_conda_env w))
  = (optimizer_steps w + Z.to_nat (epochs args) * loader_len train_loader)%nat.
Proof.
  intros Hok.
  set (n0 := optimizer_steps w). set (L := loader_len train_loader).
  set (I := fun (i : nat) (s : World) => optimizer_steps s = (n0 + i * L)%nat).
  assert (H : triple (I 0%nat)
                (main args train_loader test_loader get_default_conda_env)
                (fun _ => I (Z.to_nat (epochs args))) (fun _ => True)).
  { assert (HT : forall s : World, I 0%nat s -> True) by auto.
    unfold main.
    apply triple_bind with (Q := fun _ => I 0%nat).
    { apply triple_of_preserves; [|exact HT].
      apply preserves_for_each. intros kv. apply preserves_modify.
      intros s H. exact H. }
    intros u1. apply triple_bind with (Q := fun _ => I 0%nat).
    { apply triple_modify. intros s H. exact H. }
    intros u2. apply triple_bind with (Q := fun _ => I (Z.to_nat (epochs args))).
    { eapply triple_consequence.
      - apply (@triple_for_each_counted World Z I (fun _ => True)
                 (fun epoch => bind (train args train_loader epoch)
                                 (fun _ => test train_loader test_loader epoch))
                 (range1 (epochs args)) 0).
        intros j epoch Hj.
        apply triple_bind with (Q := fun _ => I (S j)).
        + eapply triple_consequence;
            [apply (@train_steps_triple ops args train_loader (n0 + j * L)%nat
                      epoch Hok) | | | ].
          * intros s H. exact H.
          * intros a s H. unfold I. fold L in H. rewrite H. simpl. lia.
          * auto.
        + intros u. apply triple_of_preserves; [|auto].
          apply test_preserves_updates; intros; assumption.
      - auto.
      - intros a s H. simpl in H. unfold range1 in H.
        rewrite length_map, length_seq in H. exact H.
      - auto. }
    intros u3. apply triple_bind with (Q := fun _ => I (Z.to_nat (epochs args))).
    { apply triple_modify. intros s H. exact H. }
    intros u4. apply triple_bind_gets_any. intros sm.
    apply triple_bind with (Q := fun _ => I (Z.to_nat (epochs args))).
    { apply triple_modify. intros s H. exact H. }
    intros u5.
    apply triple_bind with (Q := fun _ => I (Z.to_nat (epochs args))).
    { intros s H. unfold lift.
      destruct (Conda.add_libraries_to_conda_env _ _ _); [exact Logic.I | exact H]. }
    intros ce. apply triple_modify. intros s H. exact H. }
  assert (H0 : I 0%nat w) by (unfold I; simpl; lia).
  specialize (H w H0).
  destruct (main args train_loader test_loader get_default_conda_env w)
    as [[e|u] w']; [discriminate|].
  intros _. exact H.
Qed.

End RunMore.

(** * How often the run logs *)

Section Cadence.

Context {ops : TorchOps}.
Variable args : Args.
Variable train_loader : DataLoader.
Variable test_loader : DataLoader.
Variable get_default_conda_env : Conda.pydict.

Local Open Scope string_scope.
Local Open Scope list_scope.

Lemma logged_indices_S (li : Z) (n : nat) :
  logged_indices li (S n)
  = logged_indices li n ++ (if (Z.of_nat n mod li =? 0)%Z then [n] else []).
Proof.
  unfold logged_indices. rewrite seq_S, filter_app. simpl.
  destruct (Z.of_nat n mod li =? 0)%Z; reflexivity.
Qed.

Lemma logged_batches_S (li : Z) (n : nat) :
  logged_batches li (S n)
  = (logged_batches li n
     + (if (Z.of_nat n mod li =? 0)%Z then 1 else 0))%nat.
Proof.
  unfold logged_batches. rewrite seq_S, filter_app, length_app. simpl.
  destruct (Z.of_nat n mod li =? 0)%Z; reflexivity.
Qed.

(** For a positive interval the count is the number of batches divided by
    the interval, rounded up. *)
Lemma logged_batches_ceil (li : Z) (n : nat) :
  (1 <= li)%Z ->
  Z.of_nat (logged_batches li n) = ((Z.of_nat n + li - 1) / li)%Z.
Proof.
  intros Hli. induction n as [|n IH].
  - simpl. symmetry. apply Z.div_small. lia.
  - rewrite logged_batches_S, Nat2Z.inj_add, IH. clear IH.
    pose proof (Z.div_mod (Z.of_nat n) li ltac:(lia)) as Hdm.
    pose proof (Z.mod_pos_bound (Z.of_nat n) li ltac:(lia)) as Hb.
    set (q := (Z.of_nat n / li)%Z) in *. set (r := (Z.of_nat n mod li)%Z) in *.
    replace (Z.of_nat (S n) + li - 1)%Z with ((q + 1) * li + r)%Z by lia.
    replace (Z.of_nat n + li - 1)%Z with (q * li + (r + li - 1))%Z by lia.
    rewrite !Z.div_add_l by lia.
    rewrite (Z.div_small r li) by lia.
    destruct (r =? 0)%Z eqn:Er.
    + apply Z.eqb_eq in Er. rewrite Er.
      rewrite (Z.div_small (0 + li - 1) li) by lia. simpl. lia.
    + apply Z.eqb_neq in Er.
      assert (H1 : ((r + li - 1) / li = 1)%Z).
      { symmetry. apply (Z.div_unique (r + li - 1) li 1 (r - 1)); lia. }
      rewrite H1. simpl. lia.
Qed.

Lemma train_schedule_length (li : Z) (n : nat) (epoch : Z) :
  List.length (train_schedule li n epoch) = logged_batches li n.
Proof. unfold train_schedule. now rewrite length_map. Qed.

Lemma run_schedule_length (li : Z) (n : nat) (e : Z) :
  List.length (run_schedule li n e)
  = (Z.to_nat e * (logged_batches li n + 2))%nat.
Proof.
  unfold run_schedule, range1.
  rewrite <- (length_seq (Z.to_nat e) 1) at 2.
  induction (seq 1 (Z.to_nat e)) as [|x l IH]; simpl; [reflexivity|].
  rewrite !length_app, IH, train_schedule_length. simpl. lia.
Qed.

(** ** What the sinks hold *)

Lemma scalars_add_scalar (w : World) (evs : list Event) (t : string) (v : R)
    (s : Z) :
  writer w = Some evs ->
  scalars (set_writer (Some (evs ++ [Scalar t v s])) w)
  = scalars w ++ [(t, v, s)].
Proof.
  intros H. unfold scalars, events. simpl. rewrite H, flat_map_app. reflexivity.
Qed.

Lemma scalars_add_histogram (w : World) (evs : list Event) (t : string)
    (v : ParamData) (s : Z) :
  writer w = Some evs ->
  scalars (set_writer (Some (evs ++ [Histogram t v s])) w) = scalars w.
Proof.
  intros H. unfold scalars, events. simpl. rewrite H, flat_map_app. simpl.
  apply app_nil_r.
Qed.

(** [logged_since] reads the writer and the metrics only. *)
Lemma logged_since_reads (sc : list (string * R * Z)) (ms : list Metric)
    (sched : list (string * Z)) (w w' : World) :
  writer w' = writer w -> metrics w' = metrics w ->
  logged_since sc ms sched w -> logged_since sc ms sched w'.
Proof.
  intros Hw Hm (new & H1 & H2 & H3). exists new.
  unfold scalars, events in *. rewrite Hw, Hm. auto.
Qed.

Lemma logged_since_add_histogram (sc : list (string * R * Z)) (ms : list Metric)
    (sched : list (string * Z)) (t : string) (v : ParamData) (s : Z) :
  preserves (logged_since sc ms sched) (add_histogram t v s).
Proof.
  apply preserves_add_histogram. intros w evs Hw (new & H1 & H2 & H3).
  exists new. rewrite (scalars_add_histogram w t v s Hw). auto.
Qed.

Lemma log_weights_logged (sc : list (string * R * Z)) (ms : list Metric)
    (sched : list (string * Z)) (step : Z) :
  preserves (logged_since sc ms sched) (log_weights step).
Proof.
  unfold log_weights.
  apply preserves_bind; [apply preserves_gets|]. intros m.
  repeat (apply preserves_bind; [|intros ?]);
    apply logged_since_add_histogram.
Qed.

(** A call of [log_scalar] that returns has written one scalar and handed
    it to the tracking client. *)
Lemma log_scalar_logged (sc : list (string * R * Z)) (ms : list Metric)
    (sched : list (string * Z)) (t : string) (v : R) (s : Z) :
  triple (logged_since sc ms sched) (log_scalar t v s)
         (fun _ => logged_since sc ms (sched ++ [(t, s)])) (fun _ => True).
Proof.
  intros w (new & H1 & H2 & H3).
  destruct (writer w) as [evs|] eqn:Hw.
  - rewrite (log_scalar_eq t v s w Hw). simpl.
    exists (new ++ [(t, v, s)]).
    unfold scalars, events in *. simpl. rewrite Hw in H1.
    rewrite flat_map_app, H1, H2, !map_app, H3, <- !app_assoc.
    repeat split.
  - unfold log_scalar, bind, add_scalar. rewrite Hw. exact Logic.I.
Qed.

(** ** One epoch of training *)

Lemma train_batch_logged (sc : list (string * R * Z)) (ms : list Metric)
    (sched : list (string * Z)) (j : nat) (epoch : Z) (batch : Batch) :
  triple (logged_since sc ms sched)
         (train_batch args train_loader epoch (j, batch))
         (fun _ =>
            logged_since sc ms
              (sched ++
               (if (Z.of_nat j mod log_interval args =? 0)%Z
                then [("train_loss",
                       (epoch * Z.of_nat (loader_len train_loader)
                        + Z.of_nat j)%Z)]
                else [])))
         (fun _ => True).
Proof.
  set (I0 := logged_since sc ms sched).
  assert (HT : forall s : World, I0 s -> True) by auto.
  assert (Hreads : forall w w' : World,
             writer w' = writer w -> metrics w' = metrics w -> I0 w -> I0 w')
    by (intros w w'; apply logged_since_reads).
  unfold train_batch. cbn [fst snd].
  apply triple_bind with (Q := fun _ => I0).
  { apply triple_modify. intros w H. now apply (Hreads w). }
  intros u1. apply triple_bind_gets_any. intros self.
  apply triple_bind_gets_any. intros g0.
  apply triple_bind with (Q := fun _ => I0).
  { apply triple_of_preserves; [|exact HT].
    apply preserves_with_generator. intros w g H. now apply (Hreads w). }
  intros output. apply triple_bind with (Q := fun _ => I0).
  { apply triple_of_preserves; [apply preserves_lift | exact HT]. }
  intros loss. apply triple_bind with (Q := fun _ => I0).
  { apply triple_modify. intros w H. now apply (Hreads w). }
  intros u2. apply triple_bind with (Q := fun _ => I0).
  { apply triple_modify. intros w H.
    destruct (sgd_step _ _ _ _ _). now apply (Hreads w). }
  intros u3.
  destruct (log_interval args =? 0)%Z.
  { intros w H. exact Logic.I. }
  destruct (Z.of_nat j mod log_interval args =? 0)%Z.
  - eapply triple_bind; [apply log_scalar_logged|].
    intros u4. apply triple_of_preserves; [apply log_weights_logged | auto].
  - intros w H. simpl. rewrite app_nil_r. exact H.
Qed.

Lemma train_logged (sc : list (string * R * Z)) (ms : list Metric)
    (sched : list (string * Z)) (epoch : Z) :
  loader_ok train_loader ->
  triple (logged_since sc ms sched)
         (train args train_loader epoch)
         (fun _ =>
            logged_since sc ms
              (sched ++ train_schedule (log_interval args)
                          (loader_len train_loader) epoch))
         (fun _ => True).
Proof.
  intros Hok. unfold train.
  set (step := fun j : nat =>
                 ("train_loss",
                  (epoch * Z.of_nat (loader_len train_loader) + Z.of_nat j)%Z)).
  set (I := fun (i : nat) =>
              logged_since sc ms
                (sched ++ map step (logged_indices (log_interval args) i))).
  apply triple_bind with (Q := fun _ => I 0%nat).
  { apply triple_modify. intros w H. unfold I. simpl. rewrite app_nil_r.
    now apply (logged_since_reads (w := w)). }
  intros u.
  apply triple_bind
    with (Q := fun bs w => List.length bs = loader_len train_loader /\ I 0%nat w).
  { intros w Hw. unfold iterate, with_generator.
    destruct (iter_batches train_loader (generator w)) as [bs g] eqn:E.
    split.
    - destruct (Hok (generator w)) as [Hlen _]. now rewrite E in Hlen.
    - now apply (logged_since_reads (w := w)). }
  intros bs. apply triple_pure_pre. intros Hlen.
  eapply triple_consequence.
  - apply (@triple_for_each_counted World (nat * Batch) I (fun _ => True)
             (train_batch args train_loader epoch) (enumerate bs) 0).
    intros j [i batch] Hj. apply nth_error_enumerate in Hj. subst i.
    eapply triple_consequence; [apply train_batch_logged | | | ].
    + intros s H. exact H.
    + intros a s H. unfold I. cbn [Nat.add] in *.
      rewrite logged_indices_S, map_app, app_assoc.
      destruct (Z.of_nat j mod log_interval args =? 0)%Z; exact H.
    + auto.
  - intros s H. exact H.
  - intros a s H. simpl in H. rewrite enumerate_length, Hlen in H. exact H.
  - auto.
Qed.

(** An epoch of training that goes through logs [train_loss], and no other
    scalar or metric, for the batch indices divisible by [log_interval],
    in their order, each at the step
    [epoch * len(train_loader) + batch_idx] and with the same name and
    value at both sinks; with a positive interval that is
    [len(train_loader) / log_interval] values, rounded up. *)
Theorem train_logs_every_interval (epoch : Z) (w : World) :
  loader_ok train_loader ->
  fst (train args train_loader epoch w) = Ok tt ->
  exists new,
    scalars (snd (train args train_loader epoch w)) = scalars w ++ new /\
    metrics (snd (train args train_loader epoch w))
    = metrics w ++ map metric_of new /\
    map name_and_step new
    = train_schedule (log_interval args) (loader_len train_loader) epoch /\
    ((1 <= log_interval args)%Z ->
     Z.of_nat (List.length new)
     = ((Z.of_nat (loader_len train_loader) + log_interval args - 1)
        / log_interval args)%Z).
Proof.
  intros Hok.
  assert (H0 : logged_since (scalars w) (metrics w) [] w).
  { exists []. simpl. now rewrite !app_nil_r. }
  pose proof (@train_logged (scalars w) (metrics w) [] epoch Hok w H0) as H.
  destruct (train args train_loader epoch w) as [[e|[]] w']; [discriminate|].
  intros _. cbn [snd]. destruct H as (new & H1 & H2 & H3).
  exists new. simpl in H3. repeat split; auto.
  intros Hli.
  rewrite <- (length_map name_and_step new), H3, train_schedule_length.
  now apply logged_batches_ceil.
Qed.

(** ** The evaluation pass and the run *)

Lemma test_logged (sc : list (string * R * Z)) (ms : list Metric)
    (sched : list (string * Z)) (epoch : Z) :
  triple (logged_since sc ms sched)
         (test train_loader test_loader epoch)
         (fun _ =>
            logged_since sc ms
              (sched ++ test_schedule (loader_len train_loader) epoch))
         (fun _ => True).
Proof.
  set (I0 := logged_since sc ms sched).
  assert (HT : forall s : World, I0 s -> True) by auto.
  assert (Hreads : forall w w' : World,
             writer w' = writer w -> metrics w' = metrics w -> I0 w -> I0 w')
    by (intros w w'; apply logged_since_reads).
  unfold test.
  apply triple_bind with (Q := fun _ => I0).
  { apply triple_modify. intros w H. now apply (Hreads w). }
  intros u. apply triple_bind with (Q := fun _ => I0).
  { apply triple_of_preserves; [|exact HT].
    apply preserves_iterate. intros w g H. now apply (Hreads w). }
  intros bs. apply triple_bind with (Q := fun _ => I0).
  { apply triple_of_preserves; [|exact HT].
    apply preserves_fold_each. intros b x.
    apply test_batch_preserves. intros w g H. now apply (Hreads w). }
  intros acc. destruct (dataset_len test_loader =? 0)%nat.
  - intros w H. exact Logic.I.
  - eapply triple_bind; [apply log_scalar_logged|].
    intros u'. eapply triple_consequence; [apply log_scalar_logged | | | ].
    + intros s H. exact H.
    + intros a s H. unfold test_schedule. rewrite <- app_assoc in H. exact H.
    + auto.
Qed.

Lemma range1_S (n : nat) :
  map Z.of_nat (seq 1 (S n)) = map Z.of_nat (seq 1 n) ++ [Z.of_nat (S n)].
Proof. rewrite seq_S, map_app. reflexivity. Qed.

(** A run that goes through has logged, epoch after epoch, the training
    losses of the cadence at their steps, then [test_loss] and
    [test_accuracy] at the step [(epoch + 1) * len(train_loader)], each
    with the same name and value at both sinks, and no other scalar or
    metric. *)
Theorem main_logs_schedule (w : World) :
  loader_ok train_loader ->
  fst (main args train_loader test_loader get_default_conda_env w) = Ok tt ->
  exists new,
    scalars (snd (main args train_loader test_loader get_default_conda_env w))
    = new /\
    metrics (snd (main args train_loader test_loader get_default_conda_env w))
    = metrics w ++ map metric_of new /\
    map name_and_step new
    = run_schedule (log_interval args) (loader_len train_loader) (epochs args) /\
    ((1 <= log_interval args)%Z ->
     Z.of_nat (List.length new)
     = (Z.of_nat (Z.to_nat (epochs args))
        * ((Z.of_nat (loader_len train_loader) + log_interval args - 1)
           / log_interval args + 2))%Z).
Proof.
  intros Hok.
  set (ms := metrics w).
  set (sched := fun epoch : Z =>
                  train_schedule (log_interval args) (loader_len train_loader)
                                 epoch
                  ++ test_schedule (loader_len train_loader) epoch).
  set (I := fun (i : nat) =>
              logged_since [] ms (flat_map sched (map Z.of_nat (seq 1 i)))).
  set (Iend := I (Z.to_nat (epochs args))).
  assert (Hreads : forall s s' : World,
             writer s' = writer s -> metrics s' = metrics s -> Iend s -> Iend s')
    by (intros s s'; apply logged_since_reads).
  assert (H : triple (fun s => metrics s = ms)
                (main args train_loader test_loader get_default_conda_env)
                (fun _ => Iend) (fun _ => True)).
  { unfold main.
    apply triple_bind with (Q := fun _ s => metrics s = ms).
    { apply triple_of_preserves; [|auto].
      apply preserves_for_each. intros kv. apply preserves_modify.
      intros s H. exact H. }
    intros u1. apply triple_bind with (Q := fun _ => I 0%nat).
    { apply triple_modify. intros s H. exists []. simpl.
      rewrite app_nil_r. auto. }
    intros u2. apply triple_bind with (Q := fun _ => Iend).
    { eapply triple_consequence.
      - apply (@triple_for_each_counted World Z I (fun _ => True)
                 (fun epoch => bind (train args train_loader epoch)
                                 (fun _ => test train_loader test_loader epoch))
                 (range1 (epochs args)) 0).
        intros j epoch Hj. apply nth_error_range1 in Hj. subst epoch.
        eapply triple_bind; [apply (train_logged _ Hok)|].
        intros u. eapply triple_consequence; [apply test_logged | | | ].
        + intros s H. exact H.
        + intros a s H. unfold I. simpl Nat.add.
          rewrite range1_S, flat_map_app. simpl flat_map at 2.
          rewrite app_nil_r. unfold sched at 2.
          cbv beta in H. rewrite <- app_assoc in H. exact H.
        + auto.
      - auto.
      - intros a s H. simpl in H. unfold range1 in H.
        rewrite length_map, length_seq in H. exact H.
      - auto. }
    intros u3. apply triple_bind with (Q := fun _ => Iend).
    { apply triple_modify. intros s H. now apply (Hreads s). }
    intros u4. apply triple_bind_gets_any. intros sm.
    apply triple_bind with (Q := fun _ => Iend).
    { apply triple_modify. intros s H. now apply (Hreads s). }
    intros u5. apply triple_bind with (Q := fun _ => Iend).
    { intros s H. unfold lift.
      destruct (Conda.add_libraries_to_conda_env _ _ _); [exact Logic.I | exact H]. }
    intros ce. apply triple_modify. intros s H. now apply (Hreads s). }
  specialize (H w eq_refl).
  destruct (main args train_loader test_loader get_default_conda_env w)
    as [[e|u] w']; [discriminate|].
  intros _. cbn [snd]. destruct H as (new & H1 & H2 & H3).
  exists new. simpl in H1. repeat split; auto.
  intros Hli.
  rewrite <- (length_map name_and_step new), H3.
  change (flat_map sched (map Z.of_nat (seq 1 (Z.to_nat (epochs args)))))
    with (run_schedule (log_interval args) (loader_len train_loader)
                       (epochs args)).
  rewrite run_schedule_length, Nat2Z.inj_mul, Nat2Z.inj_add.
  now rewrite logged_batches_ceil.
Qed.

End Cadence.

(** * The further properties on the concrete backend *)

Module DemoMore.
Import Demo.
Import F.
Local Open Scope string_scope.
Local Open Scope list_scope.

Lemma log_scalar_without_writer_witness :
  @log_scalar zero_ops "train_loss" 0 5 fresh_world
  = (Raise AttributeError, fresh_world).
Proof.
  apply (@log_scalar_without_writer zero_ops "train_loss" 0%R 5%Z fresh_world).
  reflexivity.
Defined.


Lemma train_log_interval_zero_witness :
  fst (@train zero_ops zero_interval_args one_image_loader 1 demo_world)
  = Raise ZeroDivisionError /\
  optimizer_steps
    (snd (@train zero_ops zero_interval_args one_image_loader 1 demo_world))
  = S (optimizer_steps demo_world) /\
  writer (snd (@train zero_ops zero_interval_args one_image_loader 1 demo_world))
  = writer demo_world /\
  metrics (snd (@train zero_ops zero_interval_args one_image_loader 1 demo_world))
  = metrics demo_world.
Proof.
  apply (@train_log_interval_zero zero_ops zero_interval_args one_image_loader
           1%Z demo_world 1%nat [0%Z] [] [] [] demo_first_output demo_first_loss);
    reflexivity.
Defined.

Lemma train_optimizer_steps_witness :
  (fst (@train zero_ops demo_args one_image_loader 1 demo_world) = Ok tt ->
   optimizer_steps (snd (@train zero_ops demo_args one_image_loader 1 demo_world))
   = (optimizer_steps demo_world + loader_len one_image_loader)%nat) /\
  (optimizer_steps demo_world
   <= optimizer_steps (snd (@train zero_ops demo_args one_image_loader 1 demo_world))
   <= optimizer_steps demo_world + loader_len one_image_loader)%nat.
Proof.
  apply (@train_optimizer_steps zero_ops demo_args one_image_loader 1%Z demo_world).
  intros g. split; reflexivity.
Defined.

(** On the demo feed the epoch of training goes through. *)
Lemma demo_train_succeeds :
  fst (@train zero_ops demo_args one_image_loader 1 demo_world) = Ok tt.
Proof. lazy. reflexivity. Qed.

Lemma test_empty_feed_witness :
  fst (@test zero_ops one_image_loader empty_loader 1 demo_world)
  = Raise ZeroDivisionError /\
  writer (snd (@test zero_ops one_image_loader empty_loader 1 demo_world))
  = writer demo_world /\
  metrics (snd (@test zero_ops one_image_loader empty_loader 1 demo_world))
  = metrics demo_world.
Proof.
  apply (@test_empty_feed zero_ops one_image_loader empty_loader 1%Z demo_world []);
    reflexivity.
Defined.

Lemma argmax_zeros_nonempty {A : Type} (row : list A) :
  row <> [] -> argmax (map (fun _ => 0%R) row) = Ok 0%nat.
Proof.
  destruct row as [|a row]; [congruence|]. intros _. simpl. unfold Ok. f_equal.
  apply DemoFacts.argmax_from_no_better.
  intros v Hv. apply in_map_iff in Hv. destruct Hv as (x & <- & _).
  apply Rlt_irrefl.
Qed.

(** The wrapper in evaluation mode labels a single image 0. *)
Lemma demo_predict_one_image (g : list bool) :
  @predict zero_ops eval_mode_wrapper one_image g = (Ok [0%nat], g).
Proof.
  transitivity
    (match @forward zero_ops eval_mode_net 1%nat g with
     | (inl e, s') => (inl e, s')
     | (inr a, s') => (max_dim1 a, s')
     end); [reflexivity|].
  transitivity
    (max_dim1
       (log_softmax_dim0
          (linear (relu (linear (repeat (repeat 0%R 320) 1)
                                (fc1_weight demo_params) (fc1_bias demo_params)))
                  (fc2_weight demo_params) (fc2_bias demo_params))), g);
    [reflexivity|].
  rewrite DemoFacts.demo_hidden.
  set (row := map2 Rplus (map (dot (repeat 1%R 50)) (fc2_weight demo_params))
                   (fc2_bias demo_params)).
  change (linear (repeat (repeat 1%R 50) 1) (fc2_weight demo_params)
                 (fc2_bias demo_params)) with [row].
  rewrite FFacts.log_softmax_dim0_single_row.
  assert (Hrow : row <> []) by discriminate.
  cbn [max_dim1]. rewrite (argmax_zeros_nonempty Hrow). reflexivity.
Qed.

Lemma predict_decodes_every_row_witness :
  exists decoded image_np,
    @b64decode zero_ops "<image 1>" = Ok decoded /\
    @image_array zero_ops decoded = Ok image_np.
Proof.
  apply (@predict_decodes_every_row zero_ops eval_mode_wrapper one_image []
           [0%nat]).
  - rewrite demo_predict_one_image. reflexivity.
  - left. reflexivity.
Defined.

Lemma predict_eval_keeps_generator_witness :
  snd (@predict zero_ops eval_mode_wrapper two_images [true]) = [true].
Proof.
  apply (@predict_eval_keeps_generator zero_ops eval_mode_wrapper two_images
           [true]).
  intros m H. injection H as <-. reflexivity.
Defined.

(** One epoch over one batch of one image, written out. *)
Local Notation "'one_epoch_run'" :=
  (@main zero_ops demo_args one_image_loader one_image_loader
         demo_conda_env demo_world).

Lemma demo_run_succeeds : fst one_epoch_run = Ok tt.
Proof. lazy. reflexivity. Qed.

Lemma main_registers_model_witness :
  exists conda_env,
    Conda.add_libraries_to_conda_env demo_conda_env
      [Conda.PyStr "typing-extensions"; Conda.PyStr "Pillow"] [] = Ok conda_env /\
    logged_models (snd one_epoch_run)
    = logged_models demo_world ++ [registered_model conda_env].
Proof.
  apply (@main_registers_model zero_ops demo_args one_image_loader
           one_image_loader demo_conda_env demo_world).
  exact demo_run_succeeds.
Defined.

Lemma saved_model_loads_back_witness :
  @load_context zero_ops (files (snd one_epoch_run)) unloaded_wrapper
    {| context_artifacts := [("scripted_model", "scripted_model.pth")] |}
  = Ok {| wrapper_model := Some (model (snd one_epoch_run)) |}.
Proof.
  apply (@saved_model_loads_back zero_ops demo_args one_image_loader
           one_image_loader demo_conda_env demo_world unloaded_wrapper).
  exact demo_run_succeeds.
Defined.

Lemma main_merge_failure_witness :
  (exists e', fst (@main zero_ops demo_args one_image_loader one_image_loader
                     no_pip_env demo_world) = Raise e') /\
  logged_models (snd (@main zero_ops demo_args one_image_loader one_image_loader
                        no_pip_env demo_world))
  = logged_models demo_world.
Proof.
  apply (@main_merge_failure zero_ops demo_args one_image_loader one_image_loader
           no_pip_env demo_world TypeError).
  reflexivity.
Defined.

Lemma saved_model_in_eval_mode_witness :
  exists m,
    lookup "scripted_model.pth" (files (snd one_epoch_run)) = Some m /\
    training m = false.
Proof.
  apply (@saved_model_in_eval_mode zero_ops demo_args one_image_loader
           one_image_loader demo_conda_env demo_world).
  - simpl. lia.
  - exact demo_run_succeeds.
Defined.

Lemma main_optimizer_steps_witness :
  optimizer_steps (snd one_epoch_run)
  = (optimizer_steps demo_world
     + Z.to_nat (epochs demo_args) * loader_len one_image_loader)%nat.
Proof.
  apply (@main_optimizer_steps zero_ops demo_args one_image_loader
           one_image_loader demo_conda_env demo_world).
  - intros g. split; reflexivity.
  - exact demo_run_succeeds.
Defined.

Lemma columns_normalised_witness :
  sum_rows (map (map exp) (log_softmax_dim0 two_by_two)) = repeat 1%R 2.
Proof.
  apply (@FFacts.log_softmax_dim0_columns_normalised two_by_two 2).
  - discriminate.
  - repeat constructor.
Defined.

Lemma train_logs_every_interval_witness :
  exists new,
    scalars (snd (@train zero_ops demo_args one_image_loader 1 demo_world))
    = scalars demo_world ++ new /\
    metrics (snd (@train zero_ops demo_args one_image_loader 1 demo_world))
    = metrics demo_world ++ map metric_of new /\
    map name_and_step new
    = train_schedule (log_interval demo_args) (loader_len one_image_loader) 1 /\
    ((1 <= log_interval demo_args)%Z ->
     Z.of_nat (List.length new)
     = ((Z.of_nat (loader_len one_image_loader) + log_interval demo_args - 1)
        / log_interval demo_args)%Z).
Proof.
  apply (@train_logs_every_interval zero_ops demo_args one_image_loader 1%Z
           demo_world).
  - intros g. split; reflexivity.
  - exact demo_train_succeeds.
Defined.

Lemma main_logs_schedule_witness :
  exists new,
    scalars (snd one_epoch_run) = new /\
    metrics (snd one_epoch_run) = metrics demo_world ++ map metric_of new /\
    map name_and_step new
    = run_schedule (log_interval demo_args) (loader_len one_image_loader)
                   (epochs demo_args) /\
    ((1 <= log_interval demo_args)%Z ->
     Z.of_nat (List.length new)
     = (Z.of_nat (Z.to_nat (epochs demo_args))
        * ((Z.of_nat (loader_len one_image_loader) + log_interval demo_args - 1)
           / log_interval demo_args + 2))%Z).
Proof.
  apply (@main_logs_schedule zero_ops demo_args one_image_loader one_image_loader
           demo_conda_env demo_world).
  - intros g. split; reflexivity.
  - exact demo_run_succeeds.
Defined.

End DemoMore.

(** * The evaluation pass in floating point: properties *)

Module FloatFacts.

Import Float.
Local Open Scope R_scope.

(** ** Arithmetic *)

Lemma overflow32_large : 100 < overflow32.
Proof. unfold overflow32. simpl. lra. Qed.

Lemma round32_finite (x : R) :
  - overflow32 < x < overflow32 -> round32 x = Finite x.
Proof.
  intros [H1 H2]. unfold round32.
  destruct (Rle_dec overflow32 x); [lra|].
  destruct (Rle_dec x (- overflow32)); [lra | reflexivity].
Qed.

Lemma round32_overflow (x : R) : overflow32 <= x -> round32 x = PosInf.
Proof.
  intros H. unfold round32. destruct (Rle_dec overflow32 x); [reflexivity | lra].
Qed.

Lemma round32_nonnegative (x : R) : 0 <= x -> nonnegative_or_nan (round32 x).
Proof.
  intros H. pose proof overflow32_large. unfold round32.
  destruct (Rle_dec overflow32 x); [exact Logic.I|].
  destruct (Rle_dec x (- overflow32)); [lra | exact H].
Qed.

Lemma round32_nonpositive (x : R) : x <= 0 -> nonpositive_or_nan (round32 x).
Proof.
  intros H. pose proof overflow32_large. unfold round32.
  destruct (Rle_dec overflow32 x); [lra|].
  destruct (Rle_dec x (- overflow32)); [exact Logic.I | exact H].
Qed.

(** A rounded value that is finite is the exact one. *)
Lemma round32_is_finite (x v : R) : round32 x = Finite v -> v = x.
Proof.
  unfold round32. destruct (Rle_dec overflow32 x); [discriminate|].
  destruct (Rle_dec x (- overflow32)); [discriminate|]. now intros [= <-].
Qed.

Lemma fadd_nonnegative (a b : num) :
  nonnegative_or_nan a -> nonnegative_or_nan b -> nonnegative_or_nan (fadd a b).
Proof.
  destruct a as [x| | |], b as [y| | |]; simpl; try tauto.
  intros Hx Hy. apply round32_nonnegative. lra.
Qed.

Lemma below_refl (a : num) : nonnegative_or_nan a -> below a a.
Proof. destruct a as [x| | |]; simpl; auto. intros _. lra. Qed.

(** A sum of values that are not negative is at least each of them. *)
Lemma fadd_below_l (a b : num) :
  nonnegative_or_nan a -> nonnegative_or_nan b -> below a (fadd a b).
Proof.
  destruct a as [x| | |], b as [y| | |]; simpl; try tauto.
  intros Hx Hy. unfold round32.
  destruct (Rle_dec overflow32 (x + y)); [exact Logic.I|].
  destruct (Rle_dec (x + y) (- overflow32)); simpl; [|lra].
  pose proof overflow32_large. lra.
Qed.

Lemma fadd_below_r (a b c : num) :
  nonnegative_or_nan c -> nonnegative_or_nan b -> below a b ->
  below a (fadd c b).
Proof.
  destruct c as [z| | |], b as [y| | |]; simpl; try tauto.
  destruct a as [x| | |]; try tauto.
  intros Hz Hy Hxy. unfold round32.
  destruct (Rle_dec overflow32 (z + y)); [exact Logic.I|].
  destruct (Rle_dec (z + y) (- overflow32)); simpl; [|lra].
  pose proof overflow32_large. lra.
Qed.

Lemma fexp_nonnegative (a : num) : nonnegative_or_nan (fexp a).
Proof.
  destruct a as [x| | |]; simpl; auto; [|lra].
  apply round32_nonnegative. left. apply exp_pos.
Qed.

(** An entry reduced by the logarithm of a sum that holds its exponential
    is not positive. *)
Lemma log_term_nonpositive (t s : num) :
  below (fexp t) s -> nonnegative_or_nan s ->
  nonpositive_or_nan (fsub t (fln s)).
Proof.
  destruct s as [y| | |]; simpl.
  - destruct (fexp t) as [v| | |] eqn:Ht; try tauto. intros Hv Hy.
    destruct t as [x| | |]; simpl in Ht; try discriminate.
    + apply round32_is_finite in Ht. subst v.
      pose proof (exp_pos x) as Hpos.
      destruct (Rlt_dec y 0); [lra|]. destruct (Rlt_dec 0 y); [|lra].
      unfold fsub. simpl. apply round32_nonpositive.
      assert (Hle : x <= ln y).
      { rewrite <- (ln_exp x). destruct Hv as [Hlt | Heq].
        - left. now apply ln_increasing.
        - rewrite Heq. right. reflexivity. }
      lra.
    + destruct (Rlt_dec y 0); [exact Logic.I|].
      destruct (Rlt_dec 0 y); exact Logic.I.
  - intros _ _. destruct t; exact Logic.I.
  - tauto.
  - intros _ _. destruct t; exact Logic.I.
Qed.

Lemma py_add_nonnegative (a b : num) :
  nonnegative_or_nan a -> nonnegative_or_nan b ->
  nonnegative_or_nan (py_add a b).
Proof.
  destruct a as [x| | |], b as [y| | |]; simpl; try tauto. lra.
Qed.

Lemma py_div_nonnegative (a : num) (n : nat) :
  (0 < n)%nat -> nonnegative_or_nan a -> nonnegative_or_nan (py_div a n).
Proof.
  intros Hn. destruct a as [x| | |]; simpl; auto. intros Hx.
  apply Rmult_le_pos; [exact Hx|]. left. apply Rinv_0_lt_compat.
  now apply lt_0_INR.
Qed.

(** What [>= 0] says of a value that is not NaN. *)
Lemma nonnegative_or_nan_fleb (a : num) :
  nonnegative_or_nan a -> a = NaN \/ fleb (Finite 0) a = true.
Proof.
  destruct a as [x| | |]; simpl; auto; try tauto.
  intros Hx. right. destruct (Rle_dec 0 x); [reflexivity | contradiction].
Qed.

(** ** The final activation and the loss *)

Lemma sum_rows_nonnegative (m : Matrix) :
  (forall row v, In row m -> In v row -> nonnegative_or_nan v) ->
  forall j s, nth_error (sum_rows m) j = Some s -> nonnegative_or_nan s.
Proof.
  induction m as [|r0 m IH]; intros Hpos j s; simpl.
  - destruct j; discriminate.
  - destruct m as [|r1 m].
    + intros H. apply (Hpos r0 s); [now left | eapply nth_error_In; eauto].
    + intros H. apply FFacts.nth_error_map2 in H.
      destruct H as (a & b & Ha & Hb & ->).
      apply fadd_nonnegative.
      * apply (Hpos r0 a); [now left | eapply nth_error_In; eauto].
      * apply (IH (fun row v Hr Hv => Hpos row v (or_intror Hr) Hv) j b Hb).
Qed.

Lemma sum_rows_below (m : Matrix) :
  (forall row v, In row m -> In v row -> nonnegative_or_nan v) ->
  forall r, In r m ->
  forall j a s, nth_error r j = Some a -> nth_error (sum_rows m) j = Some s ->
                below a s.
Proof.
  induction m as [|r0 m IH]; intros Hpos r Hin j a s Ha; simpl; [contradiction|].
  assert (Hpos' : forall row v, In row m -> In v row -> nonnegative_or_nan v)
    by (intros row v Hr Hv; apply (Hpos row v); [now right | exact Hv]).
  destruct m as [|r1 m].
  - destruct Hin as [<- | []]. rewrite Ha. intros [= <-].
    apply below_refl. apply (Hpos r0 a); [now left | eapply nth_error_In; eauto].
  - intros H. apply FFacts.nth_error_map2 in H.
    destruct H as (a0 & b0 & Ha0 & Hb0 & ->).
    assert (H0 : nonnegative_or_nan a0)
      by (apply (Hpos r0 a0); [now left | eapply nth_error_In; eauto]).
    destruct Hin as [<- | Hin].
    + rewrite Ha in Ha0. injection Ha0 as <-.
      apply fadd_below_l; [exact H0|].
      eapply sum_rows_nonnegative; eauto.
    + apply fadd_below_r; [exact H0 | eapply sum_rows_nonnegative; eauto|].
      apply (IH Hpos' r Hin j a b0 Ha Hb0).
Qed.

Lemma fexp_matrix_nonnegative (x : Matrix) (row : list num) (v : num) :
  In row (map (map fexp) x) -> In v row -> nonnegative_or_nan v.
Proof.
  intros Hr Hv. apply in_map_iff in Hr. destruct Hr as (r & <- & _).
  apply in_map_iff in Hv. destruct Hv as (a & <- & _). apply fexp_nonnegative.
Qed.

(** Every entry of the axis 0 normalisation is at most zero, or NaN. *)
Lemma log_softmax_dim0_nonpositive (x : Matrix) (row : list num) (v : num) :
  In row (log_softmax_dim0 x) -> In v row -> nonpositive_or_nan v.
Proof.
  unfold log_softmax_dim0.
  set (shifted := map (fun row => F.map2 fsub row (max_rows x)) x).
  rewrite in_map_iff. intros (r & <- & Hr) Hv.
  apply In_nth_error in Hv. destruct Hv as (j & Hj).
  apply FFacts.nth_error_map2 in Hj. destruct Hj as (a & l & Ha & Hl & ->).
  rewrite nth_error_map in Hl.
  destruct (nth_error (sum_rows (map (map fexp) shifted)) j) as [s|] eqn:Hs;
    [|discriminate].
  simpl in Hl. injection Hl as <-.
  apply log_term_nonpositive.
  - apply (@sum_rows_below (map (map fexp) shifted)
             (fexp_matrix_nonnegative shifted) (map fexp r)) with (j := j); auto.
    + apply in_map_iff. now exists r.
    + rewrite nth_error_map, Ha. reflexivity.
  - apply (@sum_rows_nonnegative (map (map fexp) shifted)
             (fexp_matrix_nonnegative shifted) j s Hs).
Qed.

Lemma nll_terms_nonnegative (input : Matrix) (target : list Z)
    (terms : list num) :
  (forall row v, In row input -> In v row -> nonpositive_or_nan v) ->
  nll_terms input target = Ok terms ->
  nonnegative_or_nan (fold_right fadd (Finite 0) terms).
Proof.
  revert target terms; induction input as [|row input IH];
    intros [|t target] terms Hnp; simpl; try (intros [= <-]; simpl; lra).
  assert (Hnp' : forall r v, In r input -> In v r -> nonpositive_or_nan v)
    by (intros r v Hr Hv; apply (Hnp r v); [now right | exact Hv]).
  destruct (t =? F.ignore_index)%Z; [now apply IH|].
  destruct (t <? 0)%Z; [discriminate|].
  destruct (nth_error row (Z.to_nat t)) as [v|] eqn:Hv; [|discriminate].
  destruct (nll_terms input target) as [e|rest] eqn:Hrest; simpl; [discriminate|].
  intros [= <-]. simpl.
  apply fadd_nonnegative; [|now apply (IH target rest Hnp')].
  assert (H : nonpositive_or_nan v)
    by (apply (Hnp row v); [now left | eapply nth_error_In; eauto]).
  destruct v as [y| | |]; simpl in *; auto. lra.
Qed.

Lemma nll_loss_sum_nonnegative (input : Matrix) (target : list Z) (loss : num) :
  (forall row v, In row input -> In v row -> nonpositive_or_nan v) ->
  nll_loss_sum input target = Ok loss ->
  nonnegative_or_nan loss.
Proof.
  intros Hnp. unfold nll_loss_sum.
  destruct (negb _); [discriminate|].
  destruct (nll_terms input target) as [e|terms] eqn:Ht; simpl; [discriminate|].
  intros [= <-]. eapply nll_terms_nonnegative; eauto.
Qed.

(** ** The evaluation pass *)

Section Evaluation.

Context {ops : TorchOps}.
Variable train_loader : DataLoader.
Variable test_loader : DataLoader.

Local Open Scope string_scope.
Local Open Scope list_scope.

Lemma forward_nonpositive (self : Net) (x : Tensor) :
  triple (fun _ => True) (forward self x)
         (fun out _ => forall row v, In row out -> In v row ->
                                     nonpositive_or_nan v)
         (fun _ => True).
Proof.
  unfold forward.
  repeat (cbv zeta; apply triple_bind_true; intros ?).
  intros s _. simpl. intros row v. apply log_softmax_dim0_nonpositive.
Qed.

Lemma float_log_scalar_eq (name : string) (value : num) (step : Z) (w : World)
    (evs : list (string * num * Z)) :
  writer w = Some evs ->
  log_scalar name value step w
  = (Ok tt,
     set_metrics (metrics w ++ [(name, value)])
                 (set_writer (Some (evs ++ [(name, value, step)])) w)).
Proof.
  intros H. unfold log_scalar, bind, add_scalar. rewrite H. reflexivity.
Qed.

Lemma test_batch_accumulates (evs : list (string * num * Z))
    (ms : list (string * num)) (done : list Batch) (item : Batch)
    (acc : num * nat) :
  triple
    (fun w => (writer w = Some evs /\ metrics w = ms) /\
              nonnegative_or_nan (fst acc) /\ (snd acc <= rows done)%nat)
    (test_batch acc item)
    (fun acc' w => (writer w = Some evs /\ metrics w = ms) /\
                   nonnegative_or_nan (fst acc') /\
                   (snd acc' <= rows (done ++ [item]))%nat)
    (fun w => writer w = Some evs /\ metrics w = ms).
Proof.
  intros w (Hs & Hloss & Hcorrect).
  unfold test_batch, bind, gets, with_generator, lift, ret. simpl.
  pose proof (@forward_nonpositive (model w) (fst item) (generator w) Logic.I) as Hf.
  destruct (forward (model w) (fst item) (generator w)) as [[e|output] g];
    simpl; [exact Hs|].
  destruct (nll_loss_sum output (snd item)) as [e|batch_loss] eqn:Hl;
    simpl; [exact Hs|].
  destruct (max_dim1 output) as [e|pred]; simpl; [exact Hs|].
  split; [exact Hs|]. split.
  - apply py_add_nonnegative; [exact Hloss|].
    eapply nll_loss_sum_nonnegative; eauto.
  - rewrite rows_app. unfold rows at 2. simpl.
    pose proof (FFacts.count_eq_le pred (snd item)). lia.
Qed.

(** The evaluation pass either raises and writes nothing, or writes a
    loss that is NaN or not negative and an accuracy between 0 and 100. *)
Lemma test_triple (epoch : Z) (evs : list (string * num * Z))
    (ms : list (string * num)) :
  loader_ok test_loader ->
  triple (fun w => writer w = Some evs /\ metrics w = ms)
    (test train_loader test_loader epoch)
    (fun _ w' =>
       exists loss accuracy step,
         writer w' = Some (evs ++ [("test_loss", loss, step);
                                   ("test_accuracy", Finite accuracy, step)]) /\
         metrics w'
         = ms ++ [("test_loss", loss); ("test_accuracy", Finite accuracy)] /\
         nonnegative_or_nan loss /\ (0 <= accuracy <= 100)%R)
    (fun w => writer w = Some evs /\ metrics w = ms).
Proof.
  intros Hok. unfold test.
  set (S0 := fun w : World => writer w = Some evs /\ metrics w = ms).
  apply triple_bind with (Q := fun _ => S0).
  { apply triple_modify. intros w H. exact H. }
  intros u.
  apply triple_bind
    with (Q := fun bs w => rows bs = dataset_len test_loader /\ S0 w).
  { intros w Hw. unfold iterate, with_generator.
    destruct (iter_batches test_loader (generator w)) as [bs g] eqn:E.
    split; [|exact Hw].
    destruct (Hok (generator w)) as [_ Hrows]. now rewrite E in Hrows. }
  intros bs. apply triple_pure_pre. intros Hrows.
  apply triple_bind
    with (Q := fun acc w => S0 w /\ nonnegative_or_nan (fst acc) /\
                            (snd acc <= rows bs)%nat).
  { eapply triple_consequence.
    - apply (@triple_fold_each World Batch (num * nat)%type
               (fun done acc w => S0 w /\ nonnegative_or_nan (fst acc) /\
                                  (snd acc <= rows done)%nat)
               S0 (test_batch) bs
               (fun done x acc => @test_batch_accumulates evs ms done x acc)
               [] (Finite 0, 0%nat)).
    - intros w Hw. simpl. split; [exact Hw|]. split; [lra | apply Nat.le_0_l].
    - intros acc w H. exact H.
    - auto. }
  intros [test_loss correct]. simpl fst. simpl snd.
  destruct (dataset_len test_loader =? 0)%nat eqn:En.
  { intros w (Hs & _). exact Hs. }
  apply Nat.eqb_neq in En.
  intros w ((Hw & Hm) & Hloss & Hcorrect).
  rewrite Hrows in Hcorrect.
  set (n := dataset_len test_loader) in *.
  assert (Hn : (0 < INR n)%R) by (apply lt_0_INR; lia).
  assert (Hc : (0 <= INR correct <= INR n)%R)
    by (split; [apply pos_INR | now apply le_INR]).
  unfold bind. rewrite (float_log_scalar_eq _ _ _ _ Hw).
  rewrite (@float_log_scalar_eq "test_accuracy" _ _ _
             (evs ++ [("test_loss", py_div test_loss n,
                       ((epoch + 1) * Z.of_nat (loader_len train_loader))%Z)]));
    [|reflexivity].
  exists (py_div test_loss n), (100 * INR correct / INR n)%R,
         ((epoch + 1) * Z.of_nat (loader_len train_loader))%Z.
  simpl. rewrite <- !app_assoc. simpl. rewrite Hm.
  split; [reflexivity|]. split; [reflexivity|]. split.
  - apply py_div_nonnegative; [lia | exact Hloss].
  - split.
    + apply Rmult_le_pos; [lra | left; now apply Rinv_0_lt_compat].
    + apply (Rmult_le_reg_r (INR n)); [exact Hn|].
      unfold Rdiv. rewrite Rmult_assoc, Rinv_l; lra.
Qed.

(** C9 (as amended): the accuracy that [test] emits lies in [0, 100], and
    the mean loss it emits is at least 0 unless it is NaN, for every
    evaluation feed; when the pass raises (an empty data set, a label
    outside the classes) it emits nothing. *)
Theorem test_metrics_bounded_or_nan (epoch : Z) (w : World)
    (evs : list (string * num * Z)) :
  loader_ok test_loader ->
  writer w = Some evs ->
  (exists loss accuracy step,
     fst (test train_loader test_loader epoch w) = Ok tt /\
     writer (snd (test train_loader test_loader epoch w))
     = Some (evs ++ [("test_loss", loss, step);
                     ("test_accuracy", Finite accuracy, step)]) /\
     metrics (snd (test train_loader test_loader epoch w))
     = metrics w ++ [("test_loss", loss); ("test_accuracy", Finite accuracy)] /\
     (loss = NaN \/ fleb (Finite 0) loss = true) /\
     (0 <= accuracy <= 100)%R)
  \/
  (exists e,
     fst (test train_loader test_loader epoch w) = Raise e /\
     writer (snd (test train_loader test_loader epoch w)) = Some evs /\
     metrics (snd (test train_loader test_loader epoch w)) = metrics w).
Proof.
  intros Hok Hw.
  pose proof (@test_triple epoch evs (metrics w) Hok w (conj Hw eq_refl)) as H.
  destruct (test train_loader test_loader epoch w) as [[e|[]] w']; simpl.
  - right. exists e. destruct H as [H1 H2]. auto.
  - left. destruct H as (loss & accuracy & step & H1 & H2 & H3 & H4).
    exists loss, accuracy, step.
    repeat split; auto; try tauto. now apply nonnegative_or_nan_fleb.
Qed.

End Evaluation.

(** ** A single batch *)

Section SingleBatch.

Context {ops : TorchOps}.
Variable train_loader : DataLoader.
Variable test_loader : DataLoader.

Local Open Scope string_scope.
Local Open Scope list_scope.

(** [forward] is [logits] followed by the normalisation. *)
Lemma forward_logits (self : Net) (x : Tensor) (g : Generator) :
  forward self x g
  = match logits self x g with
    | (inl e, g') => (inl e, g')
    | (inr l, g') => (Ok (log_softmax_dim0 l), g')
    end.
Proof.
  unfold forward, logits, bind, lift, ret.
  destruct (conv2d x _ _) as [e|c1]; [reflexivity|].
  destruct (max_pool2d c1 2) as [e|p1]; [reflexivity|].
  destruct (conv2d (relu_nd p1) _ _) as [e|c2]; [reflexivity|].
  destruct (Dropout2d (training self) c2 g) as [[e|d2] g1]; [reflexivity|].
  destruct (max_pool2d d2 2) as [e|p2]; [reflexivity|].
  destruct (view (relu_nd p2) 320) as [e|v]; [reflexivity|].
  destruct (dropout _ (training self) g1) as [[e|h] g2]; reflexivity.
Qed.

Lemma test_batch_eq (acc : num * nat) (data : Tensor) (target : list Z)
    (w : World) (g2 : Generator) (output : Matrix) (loss : num)
    (pred : list nat) :
  forward (model w) data (generator w) = (Ok output, g2) ->
  nll_loss_sum output target = Ok loss ->
  max_dim1 output = Ok pred ->
  test_batch acc (data, target) w
  = (Ok (py_add (fst acc) loss, (snd acc + F.count_eq pred target)%nat),
     set_generator g2 w).
Proof.
  intros Hf Hl Hp. unfold test_batch. cbn [fst snd].
  rewrite (@bind_ok _ _ _ (gets model) _ w w (model w) eq_refl).
  rewrite (@bind_ok _ _ _ (with_generator (forward (model w) data)) _ w
             (set_generator g2 w) output)
    by (unfold with_generator; now rewrite Hf).
  rewrite (@bind_ok _ _ _ (lift (nll_loss_sum output target)) _
             (set_generator g2 w) (set_generator g2 w) loss)
    by (unfold lift; now rewrite Hl).
  rewrite (@bind_ok _ _ _ (lift (max_dim1 output)) _
             (set_generator g2 w) (set_generator g2 w) pred)
    by (unfold lift; now rewrite Hp).
  reflexivity.
Qed.

(** What the pass over a feed of one batch writes. *)
Lemma test_single_batch (epoch : Z) (w : World) (data : Tensor)
    (target : list Z) (g1 g2 : Generator) (output : Matrix) (loss : num)
    (pred : list nat) (evs : list (string * num * Z)) :
  iter_batches test_loader (generator w) = ([(data, target)], g1) ->
  forward (set_training false (model w)) data g1 = (Ok output, g2) ->
  nll_loss_sum output target = Ok loss ->
  max_dim1 output = Ok pred ->
  dataset_len test_loader <> 0%nat ->
  writer w = Some evs ->
  exists accuracy step,
    writer (snd (test train_loader test_loader epoch w))
    = Some (evs ++ [("test_loss",
                     py_div (py_add (Finite 0) loss) (dataset_len test_loader),
                     step);
                    ("test_accuracy", accuracy, step)]).
Proof.
  intros Hiter Hfwd Hloss Hpred Hn Hw.
  apply Nat.eqb_neq in Hn.
  set (w1 := set_model (set_training false (model w)) w).
  set (w2 := set_generator g1 w1).
  set (w3 := set_generator g2 w2).
  unfold test.
  rewrite (@bind_ok _ _ _
             (modify (fun w => set_model (set_training false (model w)) w))
             _ w w1 tt eq_refl).
  rewrite (@bind_ok _ _ _ (iterate test_loader) _ w1 w2 [(data, target)])
    by (unfold iterate, with_generator; cbn [generator w1 set_model];
        now rewrite Hiter).
  rewrite (@bind_ok _ _ _
             (fold_each [(data, target)] (Finite 0, 0%nat) test_batch) _ w2 w3
             (py_add (Finite 0) loss, (0 + F.count_eq pred target)%nat)).
  2:{ cbn [fold_each].
      rewrite (@bind_ok _ _ _ (test_batch (Finite 0, 0%nat) (data, target)) _
                 w2 w3 _ (@test_batch_eq (Finite 0, 0%nat) data target w2 g2
                            output loss pred Hfwd Hloss Hpred)).
      reflexivity. }
  cbn [fst snd]. rewrite Hn.
  assert (Hw3 : writer w3 = Some evs) by exact Hw.
  rewrite (@bind_ok _ _ _ (log_scalar "test_loss" _ _) _ w3 _ tt
             (float_log_scalar_eq _ _ _ w3 Hw3)).
  erewrite float_log_scalar_eq by reflexivity.
  eexists _, _. cbn [snd writer set_metrics set_writer].
  rewrite <- app_assoc. reflexivity.
Qed.

Lemma max_dim1_zero_row (row : list num) :
  row <> [] -> max_dim1 [map (fun _ => Finite 0) row] = Ok [0%nat].
Proof.
  destruct row as [|a row]; [congruence|]. intros _.
  cbn [max_dim1 map argmax is_nan rbind]. unfold Ok. repeat f_equal.
  induction row as [|b row IH]; simpl; [reflexivity|].
  destruct (Rle_dec 0 0) as [_|H]; [|exfalso; apply H; lra].
  generalize 1%nat. revert IH. clear. intros _.
  induction row as [|c row IH]; intros i; simpl; [reflexivity|].
  destruct (Rle_dec 0 0) as [_|H]; [apply IH | exfalso; apply H; lra].
Qed.

Lemma fsub_self (x : R) : fsub (Finite x) (Finite x) = Finite 0.
Proof.
  pose proof overflow32_large as Hov. unfold fsub. cbn [fneg fadd].
  replace (x + - x) with 0 by lra. apply round32_finite. lra.
Qed.

(** On a batch of one row of finite logits every column holds a single
    entry: the maximum of the column is the entry itself and the
    normalisation returns zero. *)
Lemma log_softmax_dim0_finite_row (row : list num) :
  Forall finite row ->
  log_softmax_dim0 [row] = [map (fun _ => Finite 0) row].
Proof.
  intros Hfin. unfold log_softmax_dim0. cbn [max_rows map sum_rows].
  f_equal. pose proof overflow32_large as Hov.
  induction Hfin as [|a row Ha Hrow IH]; [reflexivity|].
  destruct a as [x| | |]; try contradiction.
  cbn [F.map2 map]. rewrite IH. f_equal.
  rewrite !fsub_self. cbn [fexp]. rewrite exp_0, (@round32_finite 1) by lra.
  cbn [fln]. destruct (Rlt_dec 1 0); [lra|]. destruct (Rlt_dec 0 1); [|lra].
  rewrite ln_1. apply fsub_self.
Qed.

(** On a single row of finite numbers the floating-point normalisation
    returns what the exact one returns. *)
Lemma log_softmax_dim0_single_row_exact (row : list R) :
  log_softmax_dim0 [map Finite row] = of_reals (F.log_softmax_dim0 [row]).
Proof.
  rewrite FFacts.log_softmax_dim0_single_row, log_softmax_dim0_finite_row.
  - unfold of_reals. cbn [map]. now rewrite !map_map.
  - apply Forall_forall. intros a Ha. apply in_map_iff in Ha.
    destruct Ha as (x & <- & _). exact Logic.I.
Qed.

(** On a table of one row whose logits are finite [predict] answers class
    0, whatever the image and the parameters: along axis 0 the activation
    of a single row is all zeros and the arg-max takes the first of equal
    entries. *)
Theorem predict_single_row_label (self : PytorchModelWrapper)
    (model_input : list string) (arrays : list NdArray) (t : Tensor)
    (m : Net) (g g' : Generator) (row : list num) :
  decode_rows model_input = Ok arrays ->
  stack_to_tensor arrays = Ok t ->
  wrapper_model self = Some m ->
  logits m t g = (Ok [row], g') ->
  row <> [] ->
  Forall finite row ->
  predict self model_input g = (Ok [0%nat], g').
Proof.
  intros Hd Hs Hm Hl Hne Hfin.
  unfold predict, bind, lift.
  rewrite Hd. unfold Ok at 1. cbv beta iota.
  rewrite Hs. unfold Ok at 1. cbv beta iota.
  rewrite Hm, forward_logits, Hl. unfold Ok at 1. cbv beta iota.
  rewrite (log_softmax_dim0_finite_row Hfin). unfold Ok at 1. cbv beta iota.
  now rewrite (max_dim1_zero_row Hne).
Qed.

End SingleBatch.

(** ** The concrete backend *)

Lemma dot_zero (n : nat) (b : R) :
  dot (repeat (Finite 0) n) (repeat (Finite b) n) = Finite 0.
Proof.
  pose proof overflow32_large as Hov.
  induction n as [|n IH]; simpl; [reflexivity|].
  rewrite IH. replace (0 * b) with 0 by lra.
  rewrite (@round32_finite 0) by lra. simpl.
  replace (0 + 0) with 0 by lra. apply round32_finite. lra.
Qed.

(** A layer with zero weights returns its bias. *)
Lemma linear_zero_weights (n m : nat) (b : R) :
  - overflow32 < b < overflow32 ->
  linear [repeat (Finite 0) n] (of_reals (repeat (repeat 0 n) m))
         (map Finite (repeat b m))
  = [repeat (Finite b) m].
Proof.
  intros Hb. unfold linear, of_reals. rewrite !map_repeat. cbn [map].
  rewrite map_repeat, dot_zero, DemoFacts.map2_repeat. cbn [fadd].
  rewrite Rplus_0_l. now rewrite round32_finite.
Qed.

Lemma relu_nonnegative_row (m : nat) (b : R) :
  0 <= b -> relu [repeat (Finite b) m] = [repeat (Finite b) m].
Proof.
  intros Hb. unfold relu. cbn [map]. rewrite map_repeat.
  now rewrite Rmax_right.
Qed.

Lemma dot_overflow (n : nat) :
  dot (repeat (Finite 2) (S n)) (repeat (Finite (2 ^ 127)) (S n)) = PosInf.
Proof.
  assert (H : fmul (Finite 2) (Finite (2 ^ 127)) = PosInf).
  { cbn [fmul]. apply round32_overflow. unfold overflow32. simpl. lra. }
  induction n as [|n IH].
  - cbn [repeat dot]. rewrite H. reflexivity.
  - change (dot (repeat (Finite 2) (S (S n))) (repeat (Finite (2 ^ 127)) (S (S n))))
      with (fadd (fmul (Finite 2) (Finite (2 ^ 127)))
                 (dot (repeat (Finite 2) (S n)) (repeat (Finite (2 ^ 127)) (S n)))).
    rewrite H, IH. reflexivity.
Qed.

Lemma linear_overflow (n m : nat) :
  linear [repeat (Finite 2) (S n)] (of_reals (repeat (repeat (2 ^ 127) (S n)) m))
         (map Finite (repeat 0 m))
  = [repeat PosInf m].
Proof.
  unfold linear, of_reals. rewrite !map_repeat. cbn [map].
  rewrite map_repeat, dot_overflow, DemoFacts.map2_repeat. reflexivity.
Qed.

(** With the overflowing parameters every logit of an image is [+inf]. *)
Lemma overflow_logits (g : list bool) :
  @logits zero_ops Demo.overflow_net 1%nat g = (Ok [repeat PosInf 10], g).
Proof.
  transitivity
    (Ok (linear (relu (linear (of_reals (repeat (repeat 0 320) 1))
                              (of_reals (repeat (repeat 0 320) 50))
                              (map Finite (repeat 2 50))))
                (of_reals (repeat (repeat (2 ^ 127) 50) 10))
                (map Finite (repeat 0 10))), g); [reflexivity|].
  pose proof overflow32_large as Hov.
  change (of_reals (repeat (repeat 0 320) 1)) with [map Finite (repeat 0 320)].
  rewrite map_repeat, linear_zero_weights by lra.
  rewrite relu_nonnegative_row by lra.
  now rewrite linear_overflow.
Qed.

(** The final activation is then NaN throughout. *)
Lemma overflow_forward (g : list bool) :
  @forward zero_ops Demo.overflow_net 1%nat g = (Ok [repeat NaN 10], g).
Proof. rewrite forward_logits, overflow_logits. reflexivity. Qed.

(** C9, counterexample: with finite parameters whose logits overflow, the
    evaluation pass over one image emits the mean loss NaN, which is not
    greater than or equal to 0. *)
Lemma test_loss_nan :
  ~ test_loss_nonnegative
      (snd (@test zero_ops Demo.one_image_loader Demo.one_image_loader 1
              Demo.overflow_world)).
Proof.
  destruct (@test_single_batch zero_ops Demo.one_image_loader
              Demo.one_image_loader 1 Demo.overflow_world 1%nat [0%Z] [] []
              [repeat NaN 10] NaN [0%nat] [] eq_refl (overflow_forward [])
              eq_refl eq_refl ltac:(discriminate) eq_refl)
    as (accuracy & step & Hw).
  intros H. specialize (H _ Hw NaN step (or_introl eq_refl)). discriminate H.
Qed.

Lemma test_metrics_bounded_or_nan_witness :
  (exists loss accuracy step,
     fst (@test zero_ops Demo.one_image_loader Demo.one_image_loader 1
            Demo.overflow_world) = Ok tt /\
     writer (snd (@test zero_ops Demo.one_image_loader Demo.one_image_loader 1
                    Demo.overflow_world))
     = Some ([] ++ [("test_loss"%string, loss, step);
                    ("test_accuracy"%string, Finite accuracy, step)]) /\
     metrics (snd (@test zero_ops Demo.one_image_loader Demo.one_image_loader 1
                     Demo.overflow_world))
     = metrics Demo.overflow_world
       ++ [("test_loss"%string, loss); ("test_accuracy"%string, Finite accuracy)] /\
     (loss = NaN \/ fleb (Finite 0) loss = true) /\
     (0 <= accuracy <= 100)%R)
  \/
  (exists e,
     fst (@test zero_ops Demo.one_image_loader Demo.one_image_loader 1
            Demo.overflow_world) = Raise e /\
     writer (snd (@test zero_ops Demo.one_image_loader Demo.one_image_loader 1
                    Demo.overflow_world)) = Some [] /\
     metrics (snd (@test zero_ops Demo.one_image_loader Demo.one_image_loader 1
                     Demo.overflow_world))
     = metrics Demo.overflow_world).
Proof.
  apply (@test_metrics_bounded_or_nan zero_ops Demo.one_image_loader
           Demo.one_image_loader 1%Z Demo.overflow_world []).
  - intros g. split; reflexivity.
  - reflexivity.
Defined.

(** With all-zero layers the logits of an image are zero. *)
Lemma zero_logits (g : list bool) :
  @logits zero_ops Demo.zero_net 1%nat g = (Ok [repeat (Finite 0) 10], g).
Proof.
  transitivity
    (Ok (linear (relu (linear (of_reals (repeat (repeat 0 320) 1))
                              (of_reals (repeat (repeat 0 320) 50))
                              (map Finite (repeat 0 50))))
                (of_reals (repeat (repeat 0 50) 10))
                (map Finite (repeat 0 10))), g); [reflexivity|].
  pose proof overflow32_large as Hov.
  change (of_reals (repeat (repeat 0 320) 1)) with [map Finite (repeat 0 320)].
  rewrite map_repeat, linear_zero_weights by lra.
  rewrite relu_nonnegative_row by lra.
  now rewrite linear_zero_weights by lra.
Qed.

Lemma predict_single_row_label_witness :
  @predict zero_ops Demo.zero_wrapper Demo.one_image [] = (Ok [0%nat], []).
Proof.
  apply (@predict_single_row_label zero_ops Demo.zero_wrapper Demo.one_image
           [tt] 1%nat Demo.zero_net [] [] (repeat (Finite 0) 10)).
  - reflexivity.
  - reflexivity.
  - reflexivity.
  - exact (zero_logits []).
  - discriminate.
  - repeat constructor.
Defined.

End FloatFacts.
